(** * Customer-AI-Agent front end: request wrapper, session store, chat turn

    A shallow embedding of the client-side request and session layer:

    - [lib/api.js]            : [apiRequest] and its timeout helper,
    - [context/AuthContext.js]: [checkAuthStatus], [login], [logout],
    - [pages/agent.js]        : [formatMessagesForBackend], [sendMessage].

    JavaScript strings are kept as Rocq strings holding their UTF-8
    encoding, so that equality, concatenation and emptiness are the
    JavaScript ones on every well-formed string.  Asynchronous functions
    are written in a small monad that threads the component state, records
    the observable effects (fetches, navigations, console output) and
    carries thrown exceptions. *)

From Stdlib Require Import String Ascii List NArith ZArith Bool DecimalString Lia.
From ExtLib Require Import Structures.Monad.
Import ListNotations.
Import MonadNotation.

Local Open Scope string_scope.
Local Open Scope N_scope.
Local Open Scope monad_scope.

(* ===================================================================== *)
(** ** The parts of the JavaScript run time the code relies on *)
(* ===================================================================== *)

Module Builtins.

(** *** Values *)

(** A number is kept as the text [Number::toString] gives for it, which
    determines the number up to the sign of zero.  An object lists its own
    properties in enumeration order, with distinct keys. *)
#[warnings="-register-all"]
Inductive value : Type :=
| VUndefined
| VNull
| VBool (b : bool)
| VNum (repr : string)
| VStr (s : string)
| VArr (elems : list value)
| VObj (props : list (string * value)).

(** ToBoolean: what [||], [&&], [!] and [if] look at. *)
Definition truthy (v : value) : bool :=
  match v with
  | VUndefined | VNull => false
  | VBool b => b
  | VNum r => negb ((r =? "0")%string || (r =? "NaN")%string)
  | VStr s => negb (s =? "")%string
  | VArr _ | VObj _ => true
  end.

(** [a || b] *)
Definition or_else (a b : value) : value := if truthy a then a else b.

Fixpoint lookup (k : string) (props : list (string * value)) : option value :=
  match props with
  | [] => None
  | (k', v) :: rest => if (k =? k')%string then Some v else lookup k rest
  end.

(** *** Exceptions *)

Module Error.

(** An exception object.  [status] and [details] are the properties
    [apiRequest] adds to some of the errors it throws; [None] stands for a
    property that was never assigned. *)
Record t : Type := mk {
  name : string;
  message : string;
  status : option N;
  details : option value
}.

End Error.

(** [new Error(message)] *)
Definition new_Error (message : string) : Error.t :=
  Error.mk "Error" message None None.

(** The [TypeError] of ToPrimitive on an object that has no usable
    [toString] and [valueOf] (V8's wording). *)
Definition TypeError_primitive : Error.t :=
  Error.mk "TypeError" "Cannot convert object to primitive value" None None.

(** ToString, as applied by [new Error(message)] and template literals.
    An object is converted by its [toString] method.  A value parsed from
    JSON holds no function, so an object with a property of its own named
    [toString] has no callable [toString], and its [valueOf], its own or the
    inherited one, gives no primitive either: the conversion throws.  Every
    other object inherits [Object.prototype.toString].  A list is joined,
    each element converted in turn, [null] and [undefined] as the empty
    text; the first element that cannot be converted throws. *)
Fixpoint ToString (v : value) : Error.t + string :=
  match v with
  | VUndefined => inr "undefined"
  | VNull => inr "null"
  | VBool true => inr "true"
  | VBool false => inr "false"
  | VNum r => inr r
  | VStr s => inr s
  | VArr l =>
      (fix join (l : list value) : Error.t + string :=
         match l with
         | [] => inr ""
         | x :: t =>
             match (match x with
                    | VUndefined | VNull => inr ""
                    | _ => ToString x
                    end) with
             | inl e => inl e
             | inr first =>
                 match t with
                 | [] => inr first
                 | _ :: _ =>
                     match join t with
                     | inl e => inl e
                     | inr rest => inr (first ++ "," ++ rest)
                     end
                 end
             end
         end) l
  | VObj props =>
      match lookup "toString" props with
      | Some _ => inl TypeError_primitive
      | None => inr "[object Object]"
      end
  end.

(** [new Error(message)] for a [message] of any type: the message is
    converted unless it is [undefined], and the conversion may throw. *)
Definition Error_of (message : value) : Error.t + Error.t :=
  match message with
  | VUndefined => inr (new_Error "")
  | _ =>
      match ToString message with
      | inl e => inl e
      | inr text => inr (new_Error text)
      end
  end.

(** How an engine names [null] and [undefined] in its messages. *)
Definition nullish_name (v : value) : string :=
  match v with
  | VNull => "null"
  | _ => "undefined"
  end.

(** The [TypeError] an engine raises when a property of [null] or
    [undefined] is read.  The wording is the engine's (V8's is used); nothing
    below depends on it. *)
Definition TypeError_read (of_ : value) (prop : string) : Error.t :=
  Error.mk "TypeError"
    ("Cannot read properties of " ++ nullish_name of_ ++ " (reading '" ++ prop ++ "')")
    None None.

(** [v.k] for a property name [k] that no prototype defines (all the names
    read in this program are such): an own property of an object, [undefined]
    on any other value, and a [TypeError] on [null] and [undefined]. *)
Definition get (v : value) (k : string) : Error.t + value :=
  match v with
  | VUndefined | VNull => inl (TypeError_read v k)
  | VObj props => inr (match lookup k props with Some x => x | None => VUndefined end)
  | _ => inr VUndefined
  end.

(** *** String.prototype.trim *)

(** WhiteSpace and LineTerminator code points, by the length of their UTF-8
    encoding: TAB, LF, VT, FF, CR, SP; U+00A0; U+1680, U+2000..U+200A,
    U+2028, U+2029, U+202F, U+205F, U+3000, U+FEFF. *)
Definition ws1 (a : N) : bool :=
  ((9 <=? a) && (a <=? 13)) || (a =? 32).

Definition ws2 (a b : N) : bool :=
  (a =? 194) && (b =? 160).

Definition ws3 (a b c : N) : bool :=
     ((a =? 225) && (b =? 154) && (c =? 128))
  || ((a =? 226) && (b =? 128) &&
        (((128 <=? c) && (c <=? 138)) || (c =? 168) || (c =? 169) || (c =? 175)))
  || ((a =? 226) && (b =? 129) && (c =? 159))
  || ((a =? 227) && (b =? 128) && (c =? 128))
  || ((a =? 239) && (b =? 187) && (c =? 191)).

(** Strip white space from the front of a byte sequence.  With [fwd = false]
    the sequence is read back to front, so multi-byte code points arrive last
    byte first. *)
Fixpoint strip (fwd : bool) (l : list N) : list N :=
  match l with
  | [] => []
  | a :: t =>
      if ws1 a then strip fwd t
      else match t with
           | [] => l
           | b :: t' =>
               if (if fwd then ws2 a b else ws2 b a) then strip fwd t'
               else match t' with
                    | [] => l
                    | c :: t'' =>
                        if (if fwd then ws3 a b c else ws3 c b a)
                        then strip fwd t''
                        else l
                    end
           end
  end.

Definition bytes (s : string) : list N := map N_of_ascii (list_ascii_of_string s).
Definition of_bytes (l : list N) : string := string_of_list_ascii (map ascii_of_N l).

Definition trimStart (s : string) : string := of_bytes (strip true (bytes s)).
Definition trimEnd (s : string) : string :=
  of_bytes (rev (strip false (rev (bytes s)))).
Definition trim (s : string) : string := trimEnd (trimStart s).

(** *** String.prototype.toUpperCase *)

(** Only ASCII letters are mapped.  The program compares the result with the
    ASCII literal ['GET'] and with nothing else, and no character outside
    ASCII upper-cases to one of G, E, T. *)
Definition upper (a : ascii) : ascii :=
  let n := N_of_ascii a in
  if (97 <=? n) && (n <=? 122) then ascii_of_N (n - 32) else a.

Fixpoint toUpperCase (s : string) : string :=
  match s with
  | EmptyString => EmptyString
  | String a t => String (upper a) (toUpperCase t)
  end.

(** *** encodeURIComponent *)

Definition hexdigit (upper_case : bool) (n : N) : ascii :=
  if n <? 10 then ascii_of_N (48 + n)
  else ascii_of_N ((if upper_case then 55 else 87) + n).

Definition uriUnreserved (a : ascii) : bool :=
  let n := N_of_ascii a in
     ((65 <=? n) && (n <=? 90))
  || ((97 <=? n) && (n <=? 122))
  || ((48 <=? n) && (n <=? 57))
  || existsb (Ascii.eqb a) (list_ascii_of_string "-_.!~*'()").

(** Every byte of the UTF-8 encoding that is not an unreserved ASCII
    character becomes [%XX]. *)
Fixpoint encodeURIComponent (s : string) : string :=
  match s with
  | EmptyString => EmptyString
  | String a t =>
      (if uriUnreserved a then String a ""
       else let n := N_of_ascii a in
            String "%" (String (hexdigit true (n / 16))
                          (String (hexdigit true (n mod 16)) "")))
      ++ encodeURIComponent t
  end.

(** *** JSON.stringify *)

Definition dquote : ascii := "034"%char.

Definition quoteChar (a : ascii) : string :=
  let n := N_of_ascii a in
  if n =? 34 then String "\" (String dquote "")
  else if n =? 92 then "\\"
  else if n =? 8 then "\b"
  else if n =? 9 then "\t"
  else if n =? 10 then "\n"
  else if n =? 12 then "\f"
  else if n =? 13 then "\r"
  else if n <? 32 then
    "\u00" ++ String (hexdigit false (n / 16)) (String (hexdigit false (n mod 16)) "")
  else String a "".

Fixpoint quoteBody (s : string) : string :=
  match s with
  | EmptyString => EmptyString
  | String a t => quoteChar a ++ quoteBody t
  end.

Definition QuoteJSONString (s : string) : string :=
  String dquote (quoteBody s ++ String dquote EmptyString).

Definition numberJSON (r : string) : string :=
  if (r =? "NaN")%string || (r =? "Infinity")%string || (r =? "-Infinity")%string
  then "null" else r.

(** Serialisation of a property value; [None] when the property is left out
    ([undefined]). *)
Fixpoint SerializeJSONProperty (v : value) : option string :=
  match v with
  | VUndefined => None
  | VNull => Some "null"
  | VBool true => Some "true"
  | VBool false => Some "false"
  | VNum r => Some (numberJSON r)
  | VStr s => Some (QuoteJSONString s)
  | VArr l =>
      Some ("[" ++
        (fix elems (l : list value) : string :=
           match l with
           | [] => ""
           | x :: t =>
               (match SerializeJSONProperty x with Some s => s | None => "null" end)
               ++ match t with [] => "" | _ :: _ => "," ++ elems t end
           end) l
        ++ "]")
  | VObj ps =>
      Some ("{" ++
        (fix members (first : bool) (ps : list (string * value)) : string :=
           match ps with
           | [] => ""
           | (k, x) :: t =>
               match SerializeJSONProperty x with
               | Some s =>
                   (if first then "" else ",") ++ QuoteJSONString k ++ ":" ++ s
                   ++ members false t
               | None => members first t
               end
           end) true ps
        ++ "}")
  end.

(** [JSON.stringify(v)]: [None] is the [undefined] it returns for
    [undefined]. *)
Definition JSON_stringify (v : value) : option string := SerializeJSONProperty v.

(** Decimal text of a non-negative integer, as a template literal prints it. *)
Definition decimal (n : N) : string := NilEmpty.string_of_uint (N.to_uint n).

End Builtins.

Import Builtins.

(* ===================================================================== *)
(** ** Effects: state, observable events, exceptions *)
(* ===================================================================== *)

Module Response.

(** What the program reads of a fetch [Response].  [body] is the value
    [res.json()] resolves with, [None] when it rejects (no body, or a body
    that is not JSON). *)
Record t : Type := mk {
  status : N;
  statusText : string;
  body : option value
}.

(** The [ok] getter of the Fetch standard. *)
Definition ok (r : t) : bool := (200 <=? status r) && (status r <=? 299).

End Response.

Module Options.

(** The [options] argument of [apiRequest], with the properties its callers
    set. *)
Record t : Type := mk {
  method : option string;
  headers : option (list (string * string));
  body : option string
}.

(** [{}], the default. *)
Definition empty : t := mk None None None.

End Options.

Module RequestInit.

(** [fetchOptions], the second argument of [fetch]. *)
Record t : Type := mk {
  method : option string;
  headers : list (string * string);
  body : option string;
  credentials : string
}.

End RequestInit.

Inductive logarg : Type :=
| LogStr (s : string)
| LogErr (e : Error.t).

Inductive event : Type :=
| EvFetch (url : string) (init : RequestInit.t)   (* fetch(url, init) *)
| EvJson                                          (* res.json() *)
| EvNavigate (href : string)                      (* window.location.href = href *)
| EvConsoleLog (args : list logarg)               (* console.log(...) *)
| EvConsoleError (args : list logarg).            (* console.error(...) *)

(** How a promise settles. *)
Inductive settled (A : Type) : Type :=
| Fulfilled (a : A)
| Rejected (e : Error.t).
Arguments Fulfilled {A} a.
Arguments Rejected {A} e.

(** The environment of a call: the build-time API base, the window (its
    [location.pathname]) when there is one, and the network:
    [network url init d] is how [fetch(url, init)] settles within [d]
    milliseconds, [None] if it has not settled by then. *)
Record Env : Type := {
  NEXT_PUBLIC_API_URL : string;
  window : option string;
  network : string -> RequestInit.t -> N -> option (settled Response.t)
}.

(** A computation over component state [S]: it ends with a value or a thrown
    exception, in a new state, having produced events in order. *)
Definition Js (S A : Type) : Type := S -> (Error.t + A) * S * list event.

#[export] Instance Monad_Js (S : Type) : Monad (Js S) := {
  ret := fun _ a s => (inr a, s, []);
  bind := fun _ _ m f s =>
    match m s with
    | (inl e, s1, tr) => (inl e, s1, tr)
    | (inr a, s1, tr) =>
        match f a s1 with
        | (r, s2, tr') => (r, s2, (tr ++ tr')%list)
        end
    end
}.

Definition throw {S A} (e : Error.t) : Js S A := fun s => (inl e, s, []).
Definition emit {S} (ev : event) : Js S unit := fun s => (inr tt, s, [ev]).
Definition state {S} : Js S S := fun s => (inr s, s, []).
Definition modify {S} (f : S -> S) : Js S unit := fun s => (inr tt, f s, []).
Definition of_result {S A} (r : Error.t + A) : Js S A := fun s => (r, s, []).

(** [try { m } catch (e) { h e }] *)
Definition try_catch {S A} (m : Js S A) (h : Error.t -> Js S A) : Js S A :=
  fun s =>
    match m s with
    | (inl e, s1, tr) =>
        match h e s1 with
        | (r, s2, tr') => (r, s2, (tr ++ tr')%list)
        end
    | done => done
    end.

(** [try { m } finally { f }]: [f] runs either way; the outcome is that of
    [m] unless [f] throws. *)
Definition try_finally {S A} (m : Js S A) (f : Js S unit) : Js S A :=
  fun s =>
    match m s with
    | (r, s1, tr) =>
        match f s1 with
        | (inl e, s2, tr') => (inl e, s2, (tr ++ tr')%list)
        | (inr _, s2, tr') => (r, s2, (tr ++ tr')%list)
        end
    end.

(** [a || b], where [b] is evaluated only if [a] is falsy. *)
Definition orM {S} (a b : Js S value) : Js S value :=
  x <- a ;; if truthy x then ret x else b.

(** [v.k] *)
Definition getM {S} (v : value) (k : string) : Js S value := of_result (get v k).

(** [res.json()], once the body has been read.  The rejection is a
    [SyntaxError] in the engine's words; both callers discard it.  (Nothing
    limits the time the read may take: a body that never arrives leaves the
    caller waiting.  A run is that of a call whose reads have settled.) *)
Definition json {S} (res : Response.t) : Js S value :=
  emit EvJson ;;
  match Response.body res with
  | Some v => ret v
  | None => throw (Error.mk "SyntaxError" "Unexpected end of JSON input" None None)
  end.

(** [Promise.race([p, new Promise((_, reject) => setTimeout(() =>
    reject(new Error('Request timeout')), timeout))])], where [p d] is how
    [p] settles within [d] milliseconds: [p] decides if it settles before the
    timer fires, the timer's rejection otherwise. *)
Definition Promise_race {A} (p : N -> option (settled A)) (timeout : N)
  : Error.t + A :=
  match p timeout with
  | Some (Fulfilled a) => inr a
  | Some (Rejected e) => inl e
  | None => inl (new_Error "Request timeout")
  end.

(* ===================================================================== *)
(** ** lib/api.js *)
(* ===================================================================== *)

Module Api.

(** [o[k] = v] on an object used as a string map. *)
Fixpoint assign (o : list (string * string)) (k v : string) : list (string * string) :=
  match o with
  | [] => [(k, v)]
  | (k', v') :: t => if (k =? k')%string then (k, v) :: t else (k', v') :: assign t k v
  end.

(** [{...a, ...b}] *)
Definition spread (a b : list (string * string)) : list (string * string) :=
  fold_left (fun o kv => assign o (fst kv) (snd kv)) b a.

(** The constants [apiRequest] computes before it calls [fetch]. *)
Definition defaultHeaders (options : Options.t) : list (string * string) :=
  match Options.method options with
  | Some m =>
      if negb (m =? "")%string && negb (toUpperCase m =? "GET")%string
      then [("Content-Type", "application/json")]
      else []
  | None => []
  end.

Definition headers (options : Options.t) : list (string * string) :=
  spread (defaultHeaders options)
    (match Options.headers options with Some h => h | None => [] end).

Definition fetchOptions (options : Options.t) : RequestInit.t :=
  RequestInit.mk (Options.method options) (headers options) (Options.body options)
    "include".

Definition url (env : Env) (endpoint : string) : string :=
  NEXT_PUBLIC_API_URL env ++ endpoint.

Definition fetchWithTimeout {S} (env : Env) (url : string)
    (options : RequestInit.t) (timeout : N) : Js S Response.t :=
  emit (EvFetch url options) ;;
  of_result (Promise_race (network env url options) timeout).

Definition apiRequest {S} (env : Env) (endpoint : string) (options : Options.t)
  : Js S value :=
  let fetchOptions := fetchOptions options in
  let url := url env endpoint in
  res <- try_catch (fetchWithTimeout env url fetchOptions 10000)
           (fun networkError =>
              throw (new_Error ("Network error: " ++ Error.message networkError))) ;;
  if Response.status res =? 401 then
    let currentPath := match window env with Some p => p | None => "" end in
    let isOnLoginPage := (currentPath =? "/login")%string in
    let isAuthCheck := (endpoint =? "/me")%string || (endpoint =? "/validate")%string in
    (if negb isOnLoginPage && negb isAuthCheck then
       let redirectUrl :=
         "/login" ++ (if negb (currentPath =? "/")%string
                      then "?redirect=" ++ encodeURIComponent currentPath
                      else "") in
       match window env with
       | Some _ => emit (EvNavigate redirectUrl)
       | None => ret tt
       end
     else ret tt) ;;
    throw (Error.mk "Error" "Session expired. Please login again." (Some 401) None)
  else if negb (Response.ok res) then
    let generic :=
      "HTTP " ++ decimal (Response.status res) ++ ": " ++ Response.statusText res in
    md <- try_catch
            (errorData <- json res ;;
             errorMessage <-
               orM (orM (orM (getM errorData "detail") (getM errorData "message"))
                        (getM errorData "error"))
                   (ret (VStr generic)) ;;
             ret (errorMessage, errorData))
            (fun _ => ret (VStr generic, VNull)) ;;
    error <- of_result (Error_of (fst md)) ;;
    throw (Error.mk (Error.name error) (Error.message error)
             (Some (Response.status res)) (Some (snd md)))
  else
    try_catch (json res)
      (fun jsonError => throw (new_Error "Invalid JSON response from server")).

End Api.

(* ===================================================================== *)
(** ** context/AuthContext.js *)
(* ===================================================================== *)

Module AuthContext.

(** The object [{ customer_id }] kept in [user]. *)
Record User : Type := { customer_id : value }.

(** The two [useState] cells of [AuthProvider]; [user = None] is [null]. *)
Record State : Type := {
  user : option User;
  loading : bool
}.

Definition initial : State := {| user := None; loading := true |}.

Definition setUser (u : option User) : Js State unit :=
  modify (fun s => {| user := u; loading := loading s |}).

Definition setLoading (b : bool) : Js State unit :=
  modify (fun s => {| user := user s; loading := b |}).

(** [!!user] *)
Definition isLoggedIn (s : State) : bool :=
  match user s with Some _ => true | None => false end.

Definition checkAuthStatus (env : Env) : Js State unit :=
  try_finally
    (try_catch
       (response <- Api.apiRequest env "/me" Options.empty ;;
        cid <- getM response "customer_id" ;;
        setUser (Some {| customer_id := cid |}))
       (fun error =>
          emit (EvConsoleLog [LogStr "No valid session:"; LogStr (Error.message error)]) ;;
          setUser None))
    (setLoading false).

Definition login (customer_id : value) : Js State unit :=
  setUser (Some {| customer_id := customer_id |}).

Definition logout (env : Env) : Js State unit :=
  try_finally
    (try_catch
       (_ <- Api.apiRequest env "/logout" (Options.mk (Some "POST") None None) ;;
        ret tt)
       (fun error => emit (EvConsoleError [LogStr "Logout error:"; LogErr error])))
    (setUser None).

End AuthContext.

(* ===================================================================== *)
(** ** pages/agent.js *)
(* ===================================================================== *)

Module Agent.

(** A chat message.  [orderSummary = None] is a message object without that
    property. *)
Record Message : Type := {
  sender : string;
  text : value;
  orderSummary : option value
}.

(** What [sendMessage] reads and writes: the [messages] of the parent (a prop
    with its setter) and the component's own [input] and [loading]. *)
Record State : Type := {
  messages : list Message;
  input : string;
  loading : bool
}.

Definition setInput (i : string) : Js State unit :=
  modify (fun s => {| messages := messages s; input := i; loading := loading s |}).

(** [setMessages(updater)], the functional form. *)
Definition setMessages (f : list Message -> list Message) : Js State unit :=
  modify (fun s => {| messages := f (messages s); input := input s; loading := loading s |}).

Definition setLoading (b : bool) : Js State unit :=
  modify (fun s => {| messages := messages s; input := input s; loading := b |}).

Definition formatMessagesForBackend (messages : list Message) : list value :=
  map (fun msg =>
         VObj [("role", VStr (if (sender msg =? "agent")%string then "assistant" else "user"));
               ("content", text msg)])
      messages.

(** The exception of [const { reply, order_summary } = response] on [null]
    and [undefined] (V8's wording). *)
Definition TypeError_destructure (of_ : value) : Error.t :=
  Error.mk "TypeError"
    ("Cannot destructure property 'reply' of 'response' as it is " ++ nullish_name of_ ++ ".")
    None None.

(** [sendMessage] closes over the [input] and [messages] of the render that
    created it; they are read once, on entry. *)
Definition sendMessage (env : Env) : Js State unit :=
  render <- state ;;
  let trimmedInput := trim (input render) in
  if negb (truthy (VStr trimmedInput)) then ret tt
  else
    setInput "" ;;
    setMessages (fun prev =>
      (prev ++ [{| sender := "user"; text := VStr trimmedInput; orderSummary := None |}])%list) ;;
    setLoading true ;;
    try_finally
      (try_catch
         (response <-
            Api.apiRequest env "/agent/"
              (Options.mk (Some "POST") None
                 (JSON_stringify
                    (VObj [("message", VStr trimmedInput);
                           ("previous_messages",
                            VArr (formatMessagesForBackend (messages render)))]))) ;;
          match response with
          | VUndefined | VNull => throw (TypeError_destructure response)
          | _ => ret tt
          end ;;
          reply <- getM response "reply" ;;
          order_summary <- getM response "order_summary" ;;
          setMessages (fun prev =>
            (prev ++ [{| sender := "agent"; text := reply;
                         orderSummary := Some (or_else order_summary VNull) |}])%list))
         (fun error =>
            emit (EvConsoleError [LogStr "API Error:"; LogErr error]) ;;
            setMessages (fun prev =>
              (prev ++ [{| sender := "agent";
                           text := VStr "Sorry, something went wrong. Please try again later.";
                           orderSummary := None |}])%list)))
      (setLoading false).

End Agent.

(* ===================================================================== *)
(** ** Vocabulary of the properties *)
(* ===================================================================== *)

(** The three components of a finished run. *)
Definition outcome {S A} (r : (Error.t + A) * S * list event) : Error.t + A := fst (fst r).
Definition final {S A} (r : (Error.t + A) * S * list event) : S := snd (fst r).
Definition trace {S A} (r : (Error.t + A) * S * list event) : list event := snd r.

(** The navigations and the fetches of a trace, in order. *)
Definition navigations (tr : list event) : list string :=
  flat_map (fun ev => match ev with EvNavigate h => [h] | _ => [] end) tr.

Definition fetches (tr : list event) : list (string * RequestInit.t) :=
  flat_map (fun ev => match ev with EvFetch u i => [(u, i)] | _ => [] end) tr.

(** What [apiRequest] gets from its awaited [fetchWithTimeout]: the response
    received, or the rejection. *)
Definition awaited (env : Env) (endpoint : string) (options : Options.t)
  : Error.t + Response.t :=
  Promise_race (network env (Api.url env endpoint) (Api.fetchOptions options)) 10000.

(** The byte sequences [strip] consumes whole: white-space patterns one after
    the other.  [fwd = false] describes the same sequences read back to
    front. *)
Inductive Blank (fwd : bool) : list N -> Prop :=
| Blank_nil : Blank fwd []
| Blank_1 a l : ws1 a = true -> Blank fwd l -> Blank fwd (a :: l)
| Blank_2 a b l :
    (if fwd then ws2 a b else ws2 b a) = true -> Blank fwd l -> Blank fwd (a :: b :: l)
| Blank_3 a b c l :
    (if fwd then ws3 a b c else ws3 c b a) = true -> Blank fwd l ->
    Blank fwd (a :: b :: c :: l).

(** The code points ECMAScript counts as white space (WhiteSpace and
    LineTerminator): TAB, LF, VT, FF, CR, SP, U+00A0, U+1680, U+2000 to U+200A,
    U+2028, U+2029, U+202F, U+205F, U+3000 and U+FEFF. *)
Definition white_space : list N :=
  [9; 10; 11; 12; 13; 32; 160; 5760;
   8192; 8193; 8194; 8195; 8196; 8197; 8198; 8199; 8200; 8201; 8202;
   8232; 8233; 8239; 8287; 12288; 65279].

(** UTF-8 of a code point of the basic plane. *)
Definition utf8 (c : N) : list N :=
  if c <? 128 then [c]
  else if c <? 2048 then [192 + c / 64; 128 + c mod 64]
  else [224 + c / 4096; 128 + (c / 64) mod 64; 128 + c mod 64].

(** The input is empty or consists only of white space. *)
Definition WhiteSpaceOnly (s : string) : Prop :=
  exists cs, Forall (fun c => In c white_space) cs /\ bytes s = flat_map utf8 cs.

(** A property as the structured-error rule reads it: [d.k] when [d] is an
    object that has it, [undefined] otherwise. *)
Definition field (d : value) (k : string) : value :=
  match d with
  | VObj props => match lookup k props with Some x => x | None => VUndefined end
  | _ => VUndefined
  end.

(** The first usable (truthy) candidate, in the order given. *)
Definition by_priority (candidates : list value) (fallback : value) : value :=
  match find truthy candidates with
  | Some x => x
  | None => fallback
  end.

Definition generic_message (res : Response.t) : string :=
  "HTTP " ++ decimal (Response.status res) ++ ": " ++ Response.statusText res.

(** The message, before it is made a text, and the details of the error for
    a non-success response, as the structured-error rule gives them. *)
Definition http_error_message (res : Response.t) : value :=
  match Response.body res with
  | Some d =>
      by_priority [field d "detail"; field d "message"; field d "error"]
        (VStr (generic_message res))
  | None => VStr (generic_message res)
  end.

Definition http_error_details (res : Response.t) : value :=
  match Response.body res with
  | Some VUndefined | None => VNull
  | Some d => d
  end.

(** The error thrown on a 401. *)
Definition session_expired : Error.t :=
  Error.mk "Error" "Session expired. Please login again." (Some 401) None.

(** The error the code marks as a connectivity problem: the prefix it puts
    on rejections of the fetch. *)
Definition isNetworkError (e : Error.t) : bool :=
  String.prefix "Network error: " (Error.message e).

(** The fetch a call of [apiRequest] issues. *)
Definition request_sent (env : Env) (endpoint : string) (options : Options.t) : event :=
  EvFetch (Api.url env endpoint) (Api.fetchOptions options).

(** The network call has not settled when the ten seconds are over. *)
Definition timed_out (env : Env) (endpoint : string) (options : Options.t) : Prop :=
  network env (Api.url env endpoint) (Api.fetchOptions options) 10000 = None.

(** The agent call of a turn submitted in state [st], run on its own. *)
Definition turn_options (st : Agent.State) : Options.t :=
  Options.mk (Some "POST") None
    (JSON_stringify
       (VObj [("message", VStr (trim (Agent.input st)));
              ("previous_messages",
               VArr (Agent.formatMessagesForBackend (Agent.messages st)))])).

Definition agent_call (env : Env) (st : Agent.State) : (Error.t + value) * unit * list event :=
  Api.apiRequest env "/agent/" (turn_options st) tt.

(** The user message a turn appends. *)
Definition user_message (st : Agent.State) : Agent.Message :=
  {| Agent.sender := "user"; Agent.text := VStr (trim (Agent.input st));
     Agent.orderSummary := None |}.

(** Concrete environments and responses for the runs below. *)
Module Sample.

(** A network that gives every request the same answer, at once. *)
Definition env (path : option string) (answer : option (settled Response.t)) : Env :=
  {| NEXT_PUBLIC_API_URL := "https://api.example.test";
     window := path;
     network := fun _ _ _ => answer |}.

Definition unauthorized : Response.t :=
  Response.mk 401 "Unauthorized" (Some (VObj [("detail", VStr "Not authenticated")])).

Definition not_found : Response.t :=
  Response.mk 404 "Not Found" (Some (VObj [("detail", VStr "Order not found")])).

Definition bad_gateway : Response.t :=
  Response.mk 502 "Bad Gateway" None.

(** An error body whose [detail] is an object with a property named
    [toString]. *)
Definition odd_detail : Response.t :=
  Response.mk 500 "Internal Server Error"
    (Some (VObj [("detail", VObj [("toString", VNum "1")])])).

Definition agent_reply : Response.t :=
  Response.mk 200 "OK"
    (Some (VObj [("reply", VStr "Your order has shipped.");
                 ("order_summary",
                  VObj [("sales_order_number", VStr "SO-1001");
                        ("display_status", VStr "Shipped")])])).

Definition chat (typed : string) : Agent.State :=
  {| Agent.messages :=
       [{| Agent.sender := "user"; Agent.text := VStr "hello"; Agent.orderSummary := None |};
        {| Agent.sender := "agent"; Agent.text := VStr "Hi, how can I help?";
           Agent.orderSummary := Some VNull |}];
     Agent.input := typed;
     Agent.loading := false |}.

Definition signed_in : AuthContext.State :=
  {| AuthContext.user := Some {| AuthContext.customer_id := VStr "C-42" |};
     AuthContext.loading := false |}.

End Sample.

(* ===================================================================== *)
(** ** lib/api.js, the two helpers *)
(* ===================================================================== *)

Module ApiSession.

(** Returns the object [{ authenticated: true, customer_id }] or
    [{ authenticated: false, error }]. *)
Definition checkAuthStatus {S} (env : Env) : Js S value :=
  try_catch
    (response <- Api.apiRequest env "/validate" Options.empty ;;
     cid <- getM response "customer_id" ;;
     ret (VObj [("authenticated", VBool true); ("customer_id", cid)]))
    (fun error =>
       ret (VObj [("authenticated", VBool false);
                  ("error", VStr (Error.message error))])).

Definition logoutUser {S} (env : Env) : Js S bool :=
  try_catch
    (_ <- Api.apiRequest env "/logout" (Options.mk (Some "POST") None None) ;;
     ret true)
    (fun error =>
       emit (EvConsoleError [LogStr "Logout error:"; LogErr error]) ;;
       ret false).

End ApiSession.

(* ===================================================================== *)
(** ** context/AuthContext.js, the derived values *)
(* ===================================================================== *)

Module AuthValue.

(** [isLoggedIn ? 'cookie-based' : null] *)
Definition token (s : AuthContext.State) : option string :=
  if AuthContext.isLoggedIn s then Some "cookie-based" else None.

(** What [AuthProvider] renders: the loading screen, or its children under
    the context value. *)
Inductive rendered : Type :=
| Loading
| Provider (user : option AuthContext.User) (isLoggedIn : bool) (token : option string)
    (loading : bool).

Definition AuthProvider (s : AuthContext.State) : rendered :=
  if AuthContext.loading s then Loading
  else Provider (AuthContext.user s) (AuthContext.isLoggedIn s) (token s)
         (AuthContext.loading s).

End AuthValue.

(* ===================================================================== *)
(** ** components/Header.js *)
(* ===================================================================== *)

Module Header.

(** The header works on the session store through [useAuth] and on the
    router; [pushed] lists the arguments of [router.push], in order. *)
Record State : Type := {
  auth : AuthContext.State;
  pushed : list string
}.

(** A computation of the session store, run inside the header's state. *)
Definition on_auth {A} (m : Js AuthContext.State A) : Js State A :=
  fun s =>
    match m (auth s) with
    | (r, a, tr) => (r, {| auth := a; pushed := pushed s |}, tr)
    end.

Definition router_push (href : string) : Js State unit :=
  modify (fun s => {| auth := auth s; pushed := (pushed s ++ [href])%list |}).

Definition handleLogout (env : Env) : Js State unit :=
  try_catch
    (on_auth (AuthContext.logout env) ;;
     router_push "/login")
    (fun error =>
       emit (EvConsoleError [LogStr "Logout failed:"; LogErr error]) ;;
       router_push "/login").

End Header.

(* ===================================================================== *)
(** ** pages/agent.js, [renderMessageWithLinks] *)
(* ===================================================================== *)

Module Links.

(** [\s] matches at the head of [s]: a white-space code point starts
    there. *)
Definition space_at (s : string) : bool :=
  match s with
  | EmptyString => false
  | String a t =>
      ws1 (N_of_ascii a)
      || match t with
         | EmptyString => false
         | String b t' =>
             ws2 (N_of_ascii a) (N_of_ascii b)
             || match t' with
                | EmptyString => false
                | String c _ => ws3 (N_of_ascii a) (N_of_ascii b) (N_of_ascii c)
                end
         end
  end.

(** [[^\s]] matches at the head of [s]. *)
Definition nonspace_at (s : string) : bool :=
  match s with
  | EmptyString => false
  | String _ _ => negb (space_at s)
  end.

(** [s] without its prefix [p], when it has it. *)
Fixpoint drop_prefix (p s : string) : option string :=
  match p, s with
  | EmptyString, _ => Some s
  | String a p', String b s' => if Ascii.eqb a b then drop_prefix p' s' else None
  | String _ _, EmptyString => None
  end.

(** [urlRegex], [/(https?:\/\/[^\s]+)/g], matches at the head of [s]. *)
Definition url_at (s : string) : bool :=
  match drop_prefix "http://" s with Some r => nonspace_at r | None => false end
  || match drop_prefix "https://" s with Some r => nonspace_at r | None => false end.

(** [text.split(urlRegex)], read from the left.  The result is the part
    being read, from the position reached, and the parts after it;
    [in_url] tells if the part being read is a match.  A match runs on until
    white space or the end; the pattern has one capturing group, the whole
    match, so the parts are text, match, text, ..., text. *)
Fixpoint split_from (in_url : bool) (s : string) : string * list string :=
  match s with
  | EmptyString => (EmptyString, if in_url then [EmptyString] else [])
  | String a t =>
      if in_url then
        if space_at s then
          let (p, ps) := split_from false t in (EmptyString, String a p :: ps)
        else
          let (u, ps) := split_from true t in (String a u, ps)
      else
        if url_at s then
          let (u, ps) := split_from true t in (EmptyString, String a u :: ps)
        else
          let (p, ps) := split_from false t in (String a p, ps)
  end.

Definition split (text : string) : list string :=
  let (p, ps) := split_from false text in p :: ps.

(** [part.match(urlRegex)] is not [null]: the pattern matches somewhere in
    [part]. *)
Fixpoint has_url (part : string) : bool :=
  url_at part
  || match part with
     | EmptyString => false
     | String _ t => has_url t
     end.

(** What [renderMessageWithLinks] returns for a part: the string itself, or
    an [<a>] element (its class name, from the style sheet, is left out). *)
Inductive node : Type :=
| Text (s : string)
| Anchor (key : nat) (href target rel : string) (child : string).

Fixpoint map_from {A B} (idx : nat) (f : A -> nat -> B) (l : list A) : list B :=
  match l with
  | [] => []
  | x :: t => f x idx :: map_from (S idx) f t
  end.

Definition renderMessageWithLinks (text : string) : list node :=
  map_from 0
    (fun part idx =>
       if has_url part
       then Anchor idx part "_blank" "noopener noreferrer" part
       else Text part)
    (split text).

End Links.

(* ===================================================================== *)
(** ** pages/orders/index.js *)
(* ===================================================================== *)

Module Orders.

(** [String.prototype.toLowerCase], on ASCII letters; the results are only
    compared with lower-case ASCII words without a "k", which no text with a
    character outside ASCII lower-cases to. *)
Definition lower (a : ascii) : ascii :=
  let n := N_of_ascii a in
  if (65 <=? n) && (n <=? 90) then ascii_of_N (n + 32) else a.

Fixpoint toLowerCase (s : string) : string :=
  match s with
  | EmptyString => EmptyString
  | String a t => String (lower a) (toLowerCase t)
  end.

(** [/^\d+$/.test(s)] *)
Definition isDigit (a : ascii) : bool :=
  let n := N_of_ascii a in (48 <=? n) && (n <=? 57).

Fixpoint allDigits (s : string) : bool :=
  match s with
  | EmptyString => true
  | String a t => isDigit a && allDigits t
  end.

Definition onlyDigits (s : string) : bool :=
  match s with
  | EmptyString => false
  | String _ _ => allDigits s
  end.

(** Decimal text of an integer, as a template literal prints it. *)
Definition decimalZ (z : Z) : string :=
  if (z <? 0)%Z then "-" ++ decimal (Z.to_N (- z)) else decimal (Z.to_N z).

(** [err.message || fallback] *)
Definition message_or (err : Error.t) (fallback : string) : string :=
  if (Error.message err =? "")%string then fallback else Error.message err.

(** The [useState] cells of [OrdersPage], and [isLoggedIn] as [useAuth]
    gave it to the render. *)
Record State : Type := {
  isLoggedIn : bool;
  orders : value;
  loading : bool;
  error : string;
  search : string;
  isSearching : bool;
  page : Z
}.

Definition perPage : Z := 10.

Definition setOrders (o : value) : Js State unit :=
  modify (fun s => {| isLoggedIn := isLoggedIn s; orders := o; loading := loading s;
                      error := error s; search := search s;
                      isSearching := isSearching s; page := page s |}).

Definition setLoading (b : bool) : Js State unit :=
  modify (fun s => {| isLoggedIn := isLoggedIn s; orders := orders s; loading := b;
                      error := error s; search := search s;
                      isSearching := isSearching s; page := page s |}).

Definition setError (e : string) : Js State unit :=
  modify (fun s => {| isLoggedIn := isLoggedIn s; orders := orders s; loading := loading s;
                      error := e; search := search s;
                      isSearching := isSearching s; page := page s |}).

Definition setSearch (t : string) : Js State unit :=
  modify (fun s => {| isLoggedIn := isLoggedIn s; orders := orders s; loading := loading s;
                      error := error s; search := t;
                      isSearching := isSearching s; page := page s |}).

Definition setIsSearching (b : bool) : Js State unit :=
  modify (fun s => {| isLoggedIn := isLoggedIn s; orders := orders s; loading := loading s;
                      error := error s; search := search s;
                      isSearching := b; page := page s |}).

Definition setPage (p : Z) : Js State unit :=
  modify (fun s => {| isLoggedIn := isLoggedIn s; orders := orders s; loading := loading s;
                      error := error s; search := search s;
                      isSearching := isSearching s; page := p |}).

Definition fetchOrders (env : Env) (currentPage : Z) : Js State unit :=
  render <- state ;;
  if negb (isLoggedIn render) then ret tt
  else
    setLoading true ;;
    setError "" ;;
    try_finally
      (try_catch
         (data <- Api.apiRequest env
                    ("/orders/?page=" ++ decimalZ currentPage
                     ++ "&per_page=" ++ decimalZ perPage)
                    Options.empty ;;
          o <- getM data "orders" ;;
          setOrders (or_else o (VArr [])) ;;
          setPage currentPage)
         (fun err => setError (message_or err "Failed to fetch orders")))
      (setLoading false ;; setIsSearching false).

(** The number searched for: [soSearch], from the [search] of the render.
    ([toUpperCase] maps ASCII letters only: the request is the program's for
    every search text in ASCII.) *)
Definition soSearch (search : string) : string :=
  let term := toUpperCase (trim search) in
  if negb (String.prefix "SO" term)
  then if onlyDigits term then "SO" ++ term else term
  else term.

(** [handleSearch], after [e.preventDefault()].  With an empty term it
    starts [fetchOrders(1)] and returns; [fetchOrders] never throws, so
    running it to its end here changes nothing. *)
Definition handleSearch (env : Env) : Js State unit :=
  render <- state ;;
  let term := toUpperCase (trim (search render)) in
  if (term =? "")%string then fetchOrders env 1
  else
    setLoading true ;;
    setError "" ;;
    setIsSearching true ;;
    try_finally
      (try_catch
         (data <- Api.apiRequest env
                    ("/orders/?tranid=" ++ encodeURIComponent (soSearch (search render))
                     ++ "&page=1&per_page=" ++ decimalZ perPage)
                    Options.empty ;;
          o <- getM data "orders" ;;
          setOrders (or_else o (VArr [])) ;;
          setPage 1)
         (fun err => setError (message_or err "Failed to search orders")))
      (setLoading false).

Definition clearSearch (env : Env) : Js State unit :=
  setSearch "" ;; fetchOrders env 1.

(** The two pagination buttons: [onClick] and [disabled]. *)
Definition previous (env : Env) : Js State unit :=
  render <- state ;; fetchOrders env (page render - 1).

Definition next (env : Env) : Js State unit :=
  render <- state ;; fetchOrders env (page render + 1).

Definition previous_disabled (s : State) : bool := (page s =? 1)%Z.

(** [status.toLowerCase()] on a value that is not a string (V8's wording). *)
Definition TypeError_toLowerCase : Error.t :=
  Error.mk "TypeError" "status.toLowerCase is not a function" None None.

Definition getStatusClassName (status : value) : Error.t + string :=
  if negb (truthy status) then inr "status-other"
  else
    match status with
    | VStr str =>
        let s := toLowerCase str in
        if (s =? "shipped")%string then inr "status-shipped"
        else if (s =? "pending")%string || (s =? "processing")%string
        then inr "status-pending"
        else if (s =? "completed")%string then inr "status-completed"
        else if (s =? "partially shipped")%string then inr "status-partial"
        else if (s =? "cancelled")%string then inr "status-cancelled"
        else inr "status-other"
    | _ => inl TypeError_toLowerCase
    end.

End Orders.

(* ===================================================================== *)
(** ** pages/orders/[orderId].js *)
(* ===================================================================== *)

Module OrderDetail.

(** [orderId] is [router.query.orderId]: a string, a list of strings or
    [undefined]. *)
Record State : Type := {
  isLoggedIn : bool;
  orderId : value;
  order : value;
  loading : bool;
  error : string
}.

Definition setOrder (o : value) : Js State unit :=
  modify (fun s => {| isLoggedIn := isLoggedIn s; orderId := orderId s; order := o;
                      loading := loading s; error := error s |}).

Definition setLoading (b : bool) : Js State unit :=
  modify (fun s => {| isLoggedIn := isLoggedIn s; orderId := orderId s; order := order s;
                      loading := b; error := error s |}).

Definition setError (e : string) : Js State unit :=
  modify (fun s => {| isLoggedIn := isLoggedIn s; orderId := orderId s; order := order s;
                      loading := loading s; error := e |}).

Definition fetchOrderDetail (env : Env) : Js State unit :=
  render <- state ;;
  if negb (isLoggedIn render) || negb (truthy (orderId render)) then ret tt
  else
    setLoading true ;;
    setError "" ;;
    try_finally
      (try_catch
         (id <- of_result (ToString (orderId render)) ;;
          data <- Api.apiRequest env ("/orders/" ++ id) Options.empty ;;
          setOrder data)
         (fun err => setError (Orders.message_or err "Failed to fetch order details")))
      (setLoading false).

Definition getStatusClassName (status : value) : Error.t + string :=
  if negb (truthy status) then inr "statusOther"
  else
    match status with
    | VStr str =>
        let s := Orders.toLowerCase str in
        if (s =? "shipped")%string then inr "statusShipped"
        else if (s =? "pending")%string || (s =? "processing")%string
        then inr "statusPending"
        else if (s =? "completed")%string then inr "statusCompleted"
        else if (s =? "partially shipped")%string then inr "statusPartial"
        else if (s =? "cancelled")%string then inr "statusCancelled"
        else inr "statusOther"
    | _ => inl Orders.TypeError_toLowerCase
    end.

End OrderDetail.

(* ===================================================================== *)
(** ** pages/login.js *)
(* ===================================================================== *)

Module Login.

(** The serialisation of a [URLSearchParams] value as
    [application/x-www-form-urlencoded]: letters, digits and [*-._] stay, a
    space becomes [+], every other byte of the UTF-8 encoding [%XX]. *)
Definition formUnreserved (a : ascii) : bool :=
  let n := N_of_ascii a in
     ((65 <=? n) && (n <=? 90))
  || ((97 <=? n) && (n <=? 122))
  || ((48 <=? n) && (n <=? 57))
  || existsb (Ascii.eqb a) (list_ascii_of_string "*-._").

Fixpoint formEncode (s : string) : string :=
  match s with
  | EmptyString => EmptyString
  | String a t =>
      (if formUnreserved a then String a ""
       else if Ascii.eqb a " " then "+"
       else let n := N_of_ascii a in
            String "%" (String (hexdigit true (n / 16))
                          (String (hexdigit true (n mod 16)) "")))
      ++ formEncode t
  end.

(** The [useState] cells of [LoginPage]; the session store, reached through
    [useAuth]; and the router: [query_redirect] is [router.query.redirect]
    (a string, a list of strings or [undefined]) and [replaced] lists the
    arguments of [router.replace], in order. *)
Record State : Type := {
  customerId : string;
  loading : bool;
  error : string;
  auth : AuthContext.State;
  query_redirect : value;
  replaced : list value
}.

Definition setLoading (b : bool) : Js State unit :=
  modify (fun s => {| customerId := customerId s; loading := b; error := error s;
                      auth := auth s; query_redirect := query_redirect s;
                      replaced := replaced s |}).

Definition setError (e : string) : Js State unit :=
  modify (fun s => {| customerId := customerId s; loading := loading s; error := e;
                      auth := auth s; query_redirect := query_redirect s;
                      replaced := replaced s |}).

Definition router_replace (target : value) : Js State unit :=
  modify (fun s => {| customerId := customerId s; loading := loading s; error := error s;
                      auth := auth s; query_redirect := query_redirect s;
                      replaced := (replaced s ++ [target])%list |}).

Definition on_auth {A} (m : Js AuthContext.State A) : Js State A :=
  fun s =>
    match m (auth s) with
    | (r, a, tr) =>
        (r, {| customerId := customerId s; loading := loading s; error := error s;
               auth := a; query_redirect := query_redirect s;
               replaced := replaced s |}, tr)
    end.

(** [v !== '/login'] *)
Definition is_not_login (v : value) : bool :=
  match v with
  | VStr s => negb (s =? "/login")%string
  | _ => true
  end.

(** The request of the credential exchange. *)
Definition token_request (trimmedCustomerId : string) : RequestInit.t :=
  RequestInit.mk (Some "POST")
    [("Content-Type", "application/x-www-form-urlencoded")]
    (Some ("username=" ++ formEncode trimmedCustomerId ++ "&password="))
    "include".

(** [handleSubmit], after [e.preventDefault()].  The fetch is made without a
    timer; [exchange] is how it settles.  (A fetch that never settles leaves
    the handler waiting after its first two updates.) *)
Definition handleSubmit (env : Env) (exchange : settled Response.t) : Js State unit :=
  render <- state ;;
  setLoading true ;;
  setError "" ;;
  try_finally
    (try_catch
       (let trimmedCustomerId := trim (customerId render) in
        emit (EvFetch (NEXT_PUBLIC_API_URL env ++ "/token")
                (token_request trimmedCustomerId)) ;;
        res <- match exchange with
               | Fulfilled res => ret res
               | Rejected e => throw e
               end ;;
        (if negb (Response.ok res) then
           errorData <- json res ;;
           detail <- getM errorData "detail" ;;
           error <- of_result (Error_of (or_else detail (VStr "Invalid customer ID"))) ;;
           throw error
         else ret tt) ;;
        data <- json res ;;
        customer_id <- getM data "customer_id" ;;
        on_auth (AuthContext.login customer_id) ;;
        let redirectTo := query_redirect render in
        if truthy redirectTo && is_not_login redirectTo
        then router_replace redirectTo
        else router_replace (VStr "/orders"))
       (fun err => setError (Orders.message_or err "Login failed")))
    (setLoading false).

End Login.

(* ===================================================================== *)
(** ** pages/_app.js and components/AgentChatPopup.js, what is shown *)
(* ===================================================================== *)

Module ChatPopup.

(** [auth?.isLoggedIn || auth?.token || auth?.user], as a truth value, on
    the context value of [AuthProvider]. *)
Definition userLoggedIn (user : option AuthContext.User) (isLoggedIn : bool)
    (token : option string) : bool :=
  isLoggedIn
  || match token with Some t => negb (t =? "")%string | None => false end
  || match user with Some _ => true | None => false end.

(** [AgentChatPopup] renders something (its button, at least). *)
Definition renders (isClient : bool) (user : option AuthContext.User) (isLoggedIn : bool)
    (token : option string) (pathname : string) : bool :=
  if negb isClient then false
  else if negb (userLoggedIn user isLoggedIn token) then false
  else if (pathname =? "/login")%string || (pathname =? "/")%string then false
  else true.

(** [ChatPopupGuard]: [token ? <AgentChatPopup /> : null], inside
    [AuthProvider]. *)
Definition App (s : AuthContext.State) (isClient : bool) (pathname : string) : bool :=
  match AuthValue.AuthProvider s with
  | AuthValue.Loading => false
  | AuthValue.Provider user isLoggedIn token _ =>
      match token with
      | Some t => if negb (t =? "")%string
                  then renders isClient user isLoggedIn token pathname
                  else false
      | None => false
      end
  end.

End ChatPopup.

(* ===================================================================== *)
(** ** More vocabulary *)
(* ===================================================================== *)

(** How often [res.json()] was called, and the console output of a trace. *)
Definition json_reads (tr : list event) : nat :=
  length (filter (fun ev => match ev with EvJson => true | _ => false end) tr).

Definition console (tr : list event) : list event :=
  filter (fun ev => match ev with
                    | EvConsoleLog _ | EvConsoleError _ => true
                    | _ => false
                    end) tr.

(** The value a header object gives for a name.  The headers [apiRequest]
    sends have one binding per name; in a caller's list written with repeats
    the last binding is the one that counts. *)
Fixpoint header (k : string) (h : list (string * string)) : option string :=
  match h with
  | [] => None
  | (k', v) :: t => if (k =? k')%string then Some v else header k t
  end.

Definition last_header (k : string) (h : list (string * string)) : option string :=
  header k (rev h).

(** A character [encodeURIComponent] lets through or produces. *)
Definition uri_safe (a : ascii) : bool := uriUnreserved a || Ascii.eqb a "%".

(** What a node shows of the message. *)
Definition shown (n : Links.node) : string :=
  match n with
  | Links.Text s => s
  | Links.Anchor _ _ _ _ child => child
  end.

(** No white-space code point starts anywhere in [s]. *)
Fixpoint spaceless (s : string) : bool :=
  match s with
  | EmptyString => true
  | String _ t => negb (Links.space_at s) && spaceless t
  end.

(** The parts after a text part: match, text, match, text, ... with every
    match a whole URL and no URL in any text. *)
Fixpoint well_split (parts : list string) : Prop :=
  match parts with
  | [] => True
  | u :: q :: rest =>
      Links.url_at u = true /\ spaceless u = true
      /\ Links.has_url q = false /\ well_split rest
  | _ => False
  end.

(** What a user can do on the orders page: arrive, page back and forth,
    search for a text, clear the search. *)
Inductive orders_action : Type :=
| Arrive
| Previous
| Next
| Search (typed : string)
| Clear.

Definition orders_enabled (s : Orders.State) (a : orders_action) : bool :=
  match a with
  | Previous => negb (Orders.previous_disabled s)
  | _ => true
  end.

Definition orders_act (env : Env) (a : orders_action) : Js Orders.State unit :=
  match a with
  | Arrive => Orders.fetchOrders env 1
  | Previous => Orders.previous env
  | Next => Orders.next env
  | Search typed => Orders.setSearch typed ;; Orders.handleSearch env
  | Clear => Orders.clearSearch env
  end.

(** An orders page showing page 2, an order page and a login form, for the
    runs below. *)
Definition sample_orders (logged_in : bool) (typed : string) : Orders.State :=
  {| Orders.isLoggedIn := logged_in; Orders.orders := VArr [VStr "SO1"];
     Orders.loading := false; Orders.error := ""; Orders.search := typed;
     Orders.isSearching := false; Orders.page := 2 |}.

Definition sample_order (id : value) : OrderDetail.State :=
  {| OrderDetail.isLoggedIn := true; OrderDetail.orderId := id;
     OrderDetail.order := VObj [("tranid", VStr "SO6")];
     OrderDetail.loading := true; OrderDetail.error := "" |}.

Definition sample_login (typed : string) (redirect : value) : Login.State :=
  {| Login.customerId := typed; Login.loading := false; Login.error := "";
     Login.auth := {| AuthContext.user := None; AuthContext.loading := false |};
     Login.query_redirect := redirect; Login.replaced := [] |}.

(** The credential exchange succeeded: a success status, and a body that
    parsed to a value other than [null]. *)
Definition exchange_ok (exchange : settled Response.t) (data : value) : Prop :=
  exists res,
    exchange = Fulfilled res /\ Response.ok res = true
    /\ Response.body res = Some data /\ data <> VNull /\ data <> VUndefined.

(** A character the form serialisation lets through or produces. *)
Definition form_safe (a : ascii) : bool :=
  Login.formUnreserved a || Ascii.eqb a "+" || Ascii.eqb a "%".

(** A byte that is no part of any white-space code point. *)
Definition plain (a : ascii) : bool :=
  (N_of_ascii a <? 128) && negb (ws1 (N_of_ascii a)).

(** The last character of a text. *)
Fixpoint last_char (s : string) : option ascii :=
  match s with
  | EmptyString => None
  | String a EmptyString => Some a
  | String _ t => last_char t
  end.

(** The user types [text] into the chat input (its [onChange]) and submits. *)
Definition type_and_send (env : Env) (typed : string) : Js Agent.State unit :=
  Agent.setInput typed ;; Agent.sendMessage env.

(** A conversation: one submission after the other, each in the environment
    of its time. *)
Fixpoint conversation (turns : list (Env * string)) : Js Agent.State unit :=
  match turns with
  | [] => ret tt
  | (env, typed) :: rest => type_and_send env typed ;; conversation rest
  end.

(** The senders of a history, and the pattern a conversation keeps. *)
Fixpoint alternating (senders : list string) : Prop :=
  match senders with
  | [] => True
  | u :: a :: rest => u = "user" /\ a = "agent" /\ alternating rest
  | _ => False
  end.

(* ===================================================================== *)
(** ** White space and [trim] *)
(* ===================================================================== *)

Section Trim.

Ltac ws_bool :=
  unfold ws1, ws2, ws3 in *;
  repeat match goal with
         | H : context [if ?b then _ else _] |- _ => destruct b
         end;
  repeat rewrite ?andb_true_iff, ?orb_true_iff, ?andb_false_iff, ?orb_false_iff,
    ?N.eqb_eq, ?N.eqb_neq, ?N.leb_le, ?N.leb_gt in *.

Lemma ws2_not_ws1 (fwd : bool) a b :
  (if fwd then ws2 a b else ws2 b a) = true -> ws1 a = false.
Proof. destruct fwd; intros H; ws_bool; lia. Qed.

Lemma ws3_not_ws1 (fwd : bool) a b c :
  (if fwd then ws3 a b c else ws3 c b a) = true -> ws1 a = false.
Proof. destruct fwd; intros H; ws_bool; lia. Qed.

Lemma ws3_not_ws2 (fwd : bool) a b c :
  (if fwd then ws3 a b c else ws3 c b a) = true ->
  (if fwd then ws2 a b else ws2 b a) = false.
Proof. destruct fwd; intros H; ws_bool; lia. Qed.

Lemma strip_Blank fwd l : Blank fwd l -> strip fwd l = [].
Proof.
  induction 1 as [|a l Ha _ IH|a b l Hab _ IH|a b c l Habc _ IH]; simpl.
  - reflexivity.
  - now rewrite Ha.
  - now rewrite (ws2_not_ws1 _ _ _ Hab), Hab.
  - now rewrite (ws3_not_ws1 _ _ _ _ Habc), (ws3_not_ws2 _ _ _ _ Habc), Habc.
Qed.

Lemma Blank_app fwd l1 l2 : Blank fwd l1 -> Blank fwd l2 -> Blank fwd (l1 ++ l2).
Proof.
  induction 1; simpl; intros; auto using Blank.
Qed.

(** [strip] removes a blank prefix and nothing else. *)
Lemma strip_split fwd l : exists pre, Blank fwd pre /\ l = (pre ++ strip fwd l)%list.
Proof.
  remember (length l) as n eqn:Hn.
  revert l Hn. induction n as [n IH] using (well_founded_induction Wf_nat.lt_wf).
  intros l Hn. destruct l as [|a t]; simpl.
  - exists []. split; [constructor | reflexivity].
  - destruct (ws1 a) eqn:Ha.
    + destruct (IH (length t)) with (l := t) as [pre [Hp He]];
        [subst; simpl; apply PeanoNat.Nat.lt_succ_diag_r | reflexivity |].
      exists (a :: pre). split; [now apply Blank_1 | simpl; now rewrite <- He].
    + destruct t as [|b t'].
      * exists []. split; [constructor | reflexivity].
      * destruct (if fwd then ws2 a b else ws2 b a) eqn:Hab.
        -- destruct (IH (length t')) with (l := t') as [pre [Hp He]];
             [subst; simpl; auto using PeanoNat.Nat.lt_succ_diag_r, PeanoNat.Nat.lt_lt_succ_r
             | reflexivity |].
           exists (a :: b :: pre). split; [now apply Blank_2 | simpl; now rewrite <- He].
        -- destruct t' as [|c t''].
           ++ exists []. split; [constructor | reflexivity].
           ++ destruct (if fwd then ws3 a b c else ws3 c b a) eqn:Habc.
              ** destruct (IH (length t'')) with (l := t'') as [pre [Hp He]];
                   [subst; simpl;
                    auto using PeanoNat.Nat.lt_succ_diag_r, PeanoNat.Nat.lt_lt_succ_r
                   | reflexivity |].
                 exists (a :: b :: c :: pre).
                 split; [now apply Blank_3 | simpl; now rewrite <- He].
              ** exists []. split; [constructor | reflexivity].
Qed.

Lemma Blank_strip fwd l : strip fwd l = [] -> Blank fwd l.
Proof.
  intros H. destruct (strip_split fwd l) as [pre [Hp He]].
  rewrite H, app_nil_r in He. now subst.
Qed.

(** Reading a blank sequence from the other end gives a blank sequence. *)
Lemma Blank_rev fwd l : Blank fwd l -> Blank (negb fwd) (rev l).
Proof.
  induction 1 as [|a l Ha _ IH|a b l Hab _ IH|a b c l Habc _ IH]; simpl.
  - constructor.
  - apply Blank_app; [assumption | apply Blank_1; [assumption | constructor]].
  - rewrite <- app_assoc. apply Blank_app; [assumption |].
    apply Blank_2; [destruct fwd; exact Hab | constructor].
  - rewrite <- !app_assoc. apply Blank_app; [assumption |].
    apply Blank_3; [destruct fwd; exact Habc | constructor].
Qed.

Lemma strip_Forall (P : N -> Prop) fwd l : Forall P l -> Forall P (strip fwd l).
Proof.
  intros H. destruct (strip_split fwd l) as [pre [_ He]].
  rewrite He in H. now apply Forall_app in H.
Qed.

Lemma bytes_lt s : Forall (fun n => n < 256) (bytes s).
Proof.
  unfold bytes. induction s as [|a s IH]; simpl; constructor; auto.
  apply N_ascii_bounded.
Qed.

Lemma bytes_of_bytes l : Forall (fun n => n < 256) l -> bytes (of_bytes l) = l.
Proof.
  unfold bytes, of_bytes. rewrite list_ascii_of_string_of_list_ascii.
  induction 1 as [|n l Hn _ IH]; simpl; [reflexivity |].
  now rewrite N_ascii_embedding, IH.
Qed.

Lemma of_bytes_empty l : of_bytes l = "" -> l = [].
Proof. destruct l; [reflexivity | discriminate]. Qed.

Lemma rev_empty {A} (l : list A) : rev l = [] -> l = [].
Proof.
  intros H. apply (f_equal (@rev A)) in H. now rewrite rev_involutive in H.
Qed.

(** The byte patterns [strip] looks for are the UTF-8 encodings of the
    white-space code points, all of them and no others. *)
Lemma ws1_code_point a : ws1 a = true -> In a white_space /\ utf8 a = [a].
Proof.
  intros H. ws_bool.
  assert (E : a = 9 \/ a = 10 \/ a = 11 \/ a = 12 \/ a = 13 \/ a = 32) by lia.
  repeat (destruct E as [E | E]); subst a; (split; [simpl; tauto | reflexivity]).
Qed.

Lemma ws2_code_point a b : ws2 a b = true -> utf8 160 = [a; b].
Proof. intros H. ws_bool. destruct H as [-> ->]. reflexivity. Qed.

Lemma ws3_code_point a b c :
  ws3 a b c = true -> exists p, In p white_space /\ utf8 p = [a; b; c].
Proof.
  intros H. ws_bool.
  repeat match goal with
         | H : _ \/ _ |- _ => destruct H
         | H : _ /\ _ |- _ => destruct H
         end; subst;
    try match goal with
        | L : 128 <= ?c, U : ?c <= 138 |- _ =>
            assert (E : c = 128 \/ c = 129 \/ c = 130 \/ c = 131 \/ c = 132 \/ c = 133
                        \/ c = 134 \/ c = 135 \/ c = 136 \/ c = 137 \/ c = 138) by lia;
            clear L U; repeat (destruct E as [E | E]); subst c
        end;
    match goal with
    | |- exists p, _ /\ utf8 p = [?a; ?b; ?c] =>
        exists ((a - 224) * 4096 + (b - 128) * 64 + (c - 128))
    end; (split; [vm_compute; tauto | reflexivity]).
Qed.

Lemma Blank_code_points l :
  Blank true l <->
  exists cs, Forall (fun c => In c white_space) cs /\ l = flat_map utf8 cs.
Proof.
  split.
  - induction 1 as [|a l Ha _ [cs [Hf He]]|a b l Hab _ [cs [Hf He]]
                   |a b c l Habc _ [cs [Hf He]]].
    + exists []. split; [constructor | reflexivity].
    + destruct (ws1_code_point a Ha) as [Hin Hu].
      exists (a :: cs). split; [now constructor |]. simpl. now rewrite Hu, He.
    + exists (160 :: cs). split; [constructor; [simpl; tauto | exact Hf] |].
      cbn [flat_map]. now rewrite (ws2_code_point a b Hab), He.
    + destruct (ws3_code_point a b c Habc) as [p [Hin Hu]].
      exists (p :: cs). split; [now constructor |]. simpl. now rewrite Hu, He.
  - intros [cs [Hf ->]].
    induction Hf as [|c cs Hc _ IH]; [constructor |].
    cbn [flat_map]. apply Blank_app; [| exact IH].
    simpl in Hc.
    repeat (destruct Hc as [<- | Hc];
            [first [ apply Blank_1; [reflexivity | constructor]
                   | apply Blank_2; [reflexivity | constructor]
                   | apply Blank_3; [reflexivity | constructor] ] |]).
    destruct Hc.
Qed.

(** [trim] leaves nothing exactly of the inputs that are white space only. *)
Lemma trim_empty_iff s : trim s = "" <-> WhiteSpaceOnly s.
Proof.
  unfold WhiteSpaceOnly. rewrite <- Blank_code_points.
  unfold trim, trimEnd, trimStart. split.
  - intros H. apply of_bytes_empty, rev_empty in H.
    rewrite bytes_of_bytes in H by (apply strip_Forall, bytes_lt).
    apply Blank_strip, (Blank_rev false) in H. rewrite rev_involutive in H. simpl in H.
    destruct (strip_split true (bytes s)) as [pre [Hp He]].
    rewrite He. now apply Blank_app.
  - intros H. now rewrite (strip_Blank _ _ H).
Qed.

End Trim.

(* ===================================================================== *)
(** ** Sample evaluations *)
(* ===================================================================== *)

(** An ideographic space in front, a no-break space behind. *)
Example trim_unicode :
  trim (String "227" (String "128" (String "128" " hi there "))
        ++ String "194" (String "160" ""))
  = "hi there".
Proof. reflexivity. Qed.

Example encodeURIComponent_path :
  encodeURIComponent "/orders/12 a_b~(c)" = "%2Forders%2F12%20a_b~(c)".
Proof. reflexivity. Qed.

Example fetchOptions_get :
  Api.fetchOptions (Options.mk (Some "get") None None)
  = RequestInit.mk (Some "get") [] None "include".
Proof. reflexivity. Qed.

Example fetchOptions_post_override :
  Api.fetchOptions
    (Options.mk (Some "POST") (Some [("Content-Type", "text/plain"); ("X-Trace", "1")]) None)
  = RequestInit.mk (Some "POST") [("Content-Type", "text/plain"); ("X-Trace", "1")] None
      "include".
Proof. reflexivity. Qed.

(** A validation error whose [detail] is a list of objects. *)
Example apiRequest_unprocessable :
  outcome
    (Api.apiRequest
       (Sample.env (Some "/orders")
          (Some (Fulfilled
                   (Response.mk 422 "Unprocessable Entity"
                      (Some (VObj [("detail", VArr [VObj [("msg", VStr "field required")]])]))))))
       "/orders/" Options.empty tt)
  = inl (Error.mk "Error" "[object Object]" (Some 422)
           (Some (VObj [("detail", VArr [VObj [("msg", VStr "field required")]])]))).
Proof. reflexivity. Qed.

(** A success status with a body that is not JSON. *)
Example apiRequest_invalid_json :
  outcome
    (Api.apiRequest
       (Sample.env (Some "/orders") (Some (Fulfilled (Response.mk 200 "OK" None))))
       "/orders/" Options.empty tt)
  = inl (new_Error "Invalid JSON response from server").
Proof. reflexivity. Qed.

(** A turn answered with the JSON value [null]: the apology, and the
    [TypeError] on the console. *)
Example sendMessage_null_payload :
  Agent.messages
    (final (Agent.sendMessage
              (Sample.env (Some "/agent") (Some (Fulfilled (Response.mk 200 "OK" (Some VNull)))))
              {| Agent.messages := []; Agent.input := "hi"; Agent.loading := false |}))
  = [{| Agent.sender := "user"; Agent.text := VStr "hi"; Agent.orderSummary := None |};
     {| Agent.sender := "agent";
        Agent.text := VStr "Sorry, something went wrong. Please try again later.";
        Agent.orderSummary := None |}].
Proof. reflexivity. Qed.

Example checkAuthStatus_signed_in :
  final (AuthContext.checkAuthStatus
           (Sample.env (Some "/orders")
              (Some (Fulfilled (Response.mk 200 "OK" (Some (VObj [("customer_id", VStr "C-42")]))))))
           AuthContext.initial)
  = Sample.signed_in.
Proof. reflexivity. Qed.

(* ===================================================================== *)
(** ** [apiRequest], case by case *)
(* ===================================================================== *)

Section ApiRequest.

Context {S : Type}.
Variables (env : Env) (endpoint : string) (options : Options.t) (s : S).


(** The fetch rejected, or the timer fired first. *)
Lemma apiRequest_rejected e :
  awaited env endpoint options = inl e ->
  Api.apiRequest env endpoint options s
  = (inl (new_Error ("Network error: " ++ Error.message e)), s, [request_sent env endpoint options]).
Proof.
  unfold awaited, Api.apiRequest, Api.fetchWithTimeout, try_catch, of_result, emit, throw.
  intros H. cbn. rewrite H. reflexivity.
Qed.

(** A 401 was received. *)
Lemma apiRequest_401 res :
  awaited env endpoint options = inr res ->
  Response.status res = 401 ->
  Api.apiRequest env endpoint options s
  = (inl session_expired, s,
     request_sent env endpoint options :: match window env with
             | Some p =>
                 if (p =? "/login")%string
                    || (endpoint =? "/me")%string || (endpoint =? "/validate")%string
                 then []
                 else [EvNavigate
                         ("/login" ++ (if (p =? "/")%string then ""
                                       else "?redirect=" ++ encodeURIComponent p))]
             | None => []
             end).
Proof.
  unfold awaited, Api.apiRequest, Api.fetchWithTimeout, try_catch, of_result, emit, throw.
  intros H H401. cbn. rewrite H. cbn. rewrite H401. cbn.
  destruct (window env) as [p|]; cbn.
  - destruct (p =? "/login")%string; cbn; [reflexivity |].
    destruct (endpoint =? "/me")%string; cbn; [reflexivity |].
    destruct (endpoint =? "/validate")%string; cbn; [reflexivity |].
    destruct (p =? "/")%string; reflexivity.
  - destruct (endpoint =? "/me")%string; cbn; [reflexivity |].
    destruct (endpoint =? "/validate")%string; reflexivity.
Qed.

(** The value chosen as the message is never [undefined]. *)
Lemma by_priority_defined candidates text :
  by_priority candidates (VStr text) <> VUndefined.
Proof.
  unfold by_priority. destruct (find truthy candidates) as [x|] eqn:E; [| discriminate].
  apply find_some in E. destruct E as [_ E]. intros ->. discriminate E.
Qed.

Lemma Error_of_defined v :
  v <> VUndefined ->
  Error_of v = match ToString v with
               | inl e => inl e
               | inr text => inr (new_Error text)
               end.
Proof. intros H. destruct v; try reflexivity. congruence. Qed.

Arguments Error_of : simpl never.
Arguments ToString : simpl never.

(** The message is made a text, or the conversion throws. *)
Ltac convert_message :=
  solve [ rewrite Error_of_defined
            by (try discriminate;
                let E := fresh in intros E; rewrite E in *; discriminate);
          destruct (ToString _); reflexivity ].

(** A non-success status other than 401 was received. *)
Lemma apiRequest_http_error res :
  awaited env endpoint options = inr res ->
  Response.status res <> 401 ->
  Response.ok res = false ->
  Api.apiRequest env endpoint options s
  = (match ToString (http_error_message res) with
     | inr text =>
         inl (Error.mk "Error" text (Some (Response.status res))
                (Some (http_error_details res)))
     | inl e => inl e
     end,
     s, [request_sent env endpoint options; EvJson]).
Proof.
  unfold awaited, Api.apiRequest, Api.fetchWithTimeout, try_catch, of_result, emit, throw.
  intros H Hn Hok. cbn. rewrite H. cbn.
  apply N.eqb_neq in Hn. rewrite Hn, Hok. cbn.
  unfold http_error_message, http_error_details, generic_message, json, getM, of_result,
    orM, emit, throw, by_priority.
  destruct (Response.body res) as [d|]; cbn; [| convert_message].
  destruct d as [| |b|r|str|l|props]; cbn; try convert_message.
  destruct (lookup "detail" props) as [x|];
    destruct (lookup "message" props) as [y|];
    destruct (lookup "error" props) as [z|];
    repeat (cbn; try convert_message; try congruence;
            match goal with
            | |- context [truthy ?v] => is_var v; destruct (truthy v) eqn:?
            end).
Qed.

(** A success status was received. *)
Lemma apiRequest_ok res :
  awaited env endpoint options = inr res ->
  Response.ok res = true ->
  Api.apiRequest env endpoint options s
  = (match Response.body res with
     | Some payload => inr payload
     | None => inl (new_Error "Invalid JSON response from server")
     end, s, [request_sent env endpoint options; EvJson]).
Proof.
  unfold awaited, Api.apiRequest, Api.fetchWithTimeout, try_catch, of_result, emit, throw.
  intros H Hok. cbn. rewrite H. cbn.
  assert (Hn : (Response.status res =? 401) = false).
  { apply N.eqb_neq. unfold Response.ok in Hok.
    apply andb_true_iff in Hok. rewrite !N.leb_le in Hok. lia. }
  rewrite Hn, Hok. cbn. unfold json, emit, throw. cbn.
  destruct (Response.body res); reflexivity.
Qed.

(** [apiRequest] leaves the component state alone and always starts with its
    one fetch. *)
Lemma apiRequest_shape :
  exists r tr, Api.apiRequest env endpoint options s = (r, s, request_sent env endpoint options :: tr)
               /\ fetches tr = [].
Proof.
  destruct (awaited env endpoint options) as [e|res] eqn:H.
  - rewrite (apiRequest_rejected _ H). eauto.
  - destruct (N.eq_dec (Response.status res) 401) as [H401|Hn].
    + rewrite (apiRequest_401 _ H H401). do 2 eexists. split; [reflexivity |].
      destruct (window env); [| reflexivity].
      destruct (_ || _); reflexivity.
    + destruct (Response.ok res) eqn:Hok.
      * rewrite (apiRequest_ok _ H Hok). eauto.
      * rewrite (apiRequest_http_error _ H Hn Hok). eauto.
Qed.

End ApiRequest.

(** The outcome and the events of [apiRequest] do not depend on the state of
    the component that calls it. *)
Lemma apiRequest_any_state {S} env endpoint options (s : S) :
  Api.apiRequest env endpoint options s
  = (outcome (Api.apiRequest env endpoint options tt), s,
     trace (Api.apiRequest env endpoint options tt)).
Proof.
  destruct (awaited env endpoint options) as [e|res] eqn:H.
  - now rewrite !(apiRequest_rejected _ _ _ _ _ H).
  - destruct (N.eq_dec (Response.status res) 401) as [H401|Hn].
    + now rewrite !(apiRequest_401 _ _ _ _ _ H H401).
    + destruct (Response.ok res) eqn:Hok.
      * now rewrite !(apiRequest_ok _ _ _ _ _ H Hok).
      * now rewrite !(apiRequest_http_error _ _ _ _ _ H Hn Hok).
Qed.

(* ===================================================================== *)
(** ** Properties of the request wrapper *)
(* ===================================================================== *)

(** C1, as the specification words it, fails on the landing page: a 401 for
    a request made from path "/" to an endpoint that is no probe navigates to
    "/login" with no [redirect] parameter, not to "/login?redirect=%2F".
    (Where there is no window, the same request navigates nowhere.) *)
Lemma redirect_from_root_has_no_parameter :
  navigations
    (trace (Api.apiRequest (Sample.env (Some "/") (Some (Fulfilled Sample.unauthorized)))
              "/orders/" Options.empty tt))
  = ["/login"]
  /\ ~ (awaited (Sample.env (Some "/") (Some (Fulfilled Sample.unauthorized)))
          "/orders/" Options.empty = inr Sample.unauthorized ->
        Response.status Sample.unauthorized = 401 ->
        "/orders/" <> "/me" -> "/orders/" <> "/validate" -> "/" <> "/login" ->
        navigations
          (trace (Api.apiRequest
                    (Sample.env (Some "/") (Some (Fulfilled Sample.unauthorized)))
                    "/orders/" Options.empty tt))
        = ["/login?redirect=" ++ encodeURIComponent "/"])
  /\ navigations
       (trace (Api.apiRequest (Sample.env None (Some (Fulfilled Sample.unauthorized)))
                 "/orders/" Options.empty tt))
     = [].
Proof.
  split; [reflexivity | split; [| reflexivity]].
  intros H.
  specialize (H eq_refl eq_refl ltac:(discriminate) ltac:(discriminate) ltac:(discriminate)).
  vm_compute in H. discriminate H.
Qed.

(** C1 (amended): when [apiRequest] receives a 401, then
    - in a window whose path is not "/login", for an endpoint other than
      "/me" and "/validate", exactly one navigation is performed: to "/login"
      when the path is "/", and otherwise to "/login?redirect=" followed by
      the URI-encoded path;
    - no navigation is performed when the path is "/login", when the endpoint
      is "/me" or "/validate", or when there is no window. *)
Theorem session_expiry_redirect {S} env endpoint options (s : S) res :
  awaited env endpoint options = inr res ->
  Response.status res = 401 ->
  (forall p,
      window env = Some p -> p <> "/login" ->
      endpoint <> "/me" -> endpoint <> "/validate" ->
      navigations (trace (Api.apiRequest env endpoint options s))
      = [if (p =? "/")%string then "/login"
         else "/login?redirect=" ++ encodeURIComponent p])
  /\ (window env = Some "/login" \/ window env = None
      \/ endpoint = "/me" \/ endpoint = "/validate" ->
      navigations (trace (Api.apiRequest env endpoint options s)) = []).
Proof.
  intros H H401. rewrite (apiRequest_401 _ _ _ _ _ H H401). unfold trace. simpl.
  split.
  - intros p Hw Hp Hme Hval. rewrite Hw.
    apply String.eqb_neq in Hp, Hme, Hval. rewrite Hp, Hme, Hval. simpl.
    destruct (p =? "/")%string; reflexivity.
  - intros [Hw|[Hw|[He|He]]].
    + rewrite Hw. reflexivity.
    + rewrite Hw. reflexivity.
    + subst endpoint. destruct (window env) as [p|]; [| reflexivity].
      simpl. now rewrite orb_true_r.
    + subst endpoint. destruct (window env) as [p|]; [| reflexivity].
      simpl. now rewrite !orb_true_r.
Qed.

Lemma session_expiry_redirect_witness :
  awaited (Sample.env (Some "/orders/12") (Some (Fulfilled Sample.unauthorized)))
    "/orders/12" Options.empty = inr Sample.unauthorized
  /\ Response.status Sample.unauthorized = 401
  /\ navigations
       (trace (Api.apiRequest
                 (Sample.env (Some "/orders/12") (Some (Fulfilled Sample.unauthorized)))
                 "/orders/12" Options.empty tt))
     = ["/login?redirect=%2Forders%2F12"].
Proof.
  split; [reflexivity | split; [reflexivity |]].
  exact (proj1 (session_expiry_redirect
                  (Sample.env (Some "/orders/12") (Some (Fulfilled Sample.unauthorized)))
                  "/orders/12" Options.empty tt Sample.unauthorized eq_refl eq_refl)
           "/orders/12" eq_refl
           ltac:(discriminate) ltac:(discriminate) ltac:(discriminate)).
Defined.

(** C2, as the specification words it, fails: a request that times out ends
    with the very error a failed connection gives, carrying the prefix of a
    network error; the run is the same as one whose fetch was rejected with
    the message "Request timeout". *)
Lemma timeout_is_a_network_error :
  timed_out (Sample.env (Some "/orders") None) "/orders/" Options.empty
  /\ outcome (Api.apiRequest (Sample.env (Some "/orders") None) "/orders/" Options.empty tt)
     = inl (new_Error "Network error: Request timeout")
  /\ isNetworkError (new_Error "Network error: Request timeout") = true
  /\ Api.apiRequest (Sample.env (Some "/orders") None) "/orders/" Options.empty tt
     = Api.apiRequest
         (Sample.env (Some "/orders") (Some (Rejected (new_Error "Request timeout"))))
         "/orders/" Options.empty tt.
Proof. vm_compute. repeat split. Qed.

(** C2 (amended): if the network call has not settled when the ten seconds
    are over, [apiRequest] ends (it does not stay pending) by throwing a plain
    error whose message is "Network error: Request timeout", with no status
    and no details: the form every rejected fetch is given.  Nothing but the
    fetch has happened. *)
Theorem timeout_rejects {S} env endpoint options (s : S) :
  timed_out env endpoint options ->
  Api.apiRequest env endpoint options s
  = (inl (Error.mk "Error" "Network error: Request timeout" None None), s,
     [request_sent env endpoint options]).
Proof.
  intros H. apply apiRequest_rejected with (e := new_Error "Request timeout").
  unfold awaited, Promise_race. unfold timed_out in H. now rewrite H.
Qed.

Lemma timeout_rejects_witness :
  timed_out (Sample.env (Some "/orders") None) "/orders/" Options.empty
  /\ Api.apiRequest (Sample.env (Some "/orders") None) "/orders/" Options.empty tt
     = (inl (Error.mk "Error" "Network error: Request timeout" None None), tt,
        [request_sent (Sample.env (Some "/orders") None) "/orders/" Options.empty]).
Proof.
  split; [reflexivity |].
  apply (timeout_rejects (Sample.env (Some "/orders") None) "/orders/" Options.empty tt).
  reflexivity.
Defined.

(** C6 does not hold of the code for every response.  A 500 whose body is
    the JSON text [{"detail": {"toString": 1}}] is a non-success status other
    than 401 with a body that parses, and its [detail] is the message chosen;
    but [new Error(errorMessage)] stands outside the [try] that guards the
    reading of the body, and converting that [detail] to a text throws.  What
    the caller gets is the [TypeError] of the conversion: it carries neither
    the status 500 nor the parsed body. *)
Theorem http_error_loses_status :
  awaited (Sample.env (Some "/orders") (Some (Fulfilled Sample.odd_detail)))
    "/orders/" Options.empty = inr Sample.odd_detail
  /\ Response.status Sample.odd_detail = 500
  /\ Response.ok Sample.odd_detail = false
  /\ Response.body Sample.odd_detail
     = Some (VObj [("detail", VObj [("toString", VNum "1")])])
  /\ by_priority [field (VObj [("detail", VObj [("toString", VNum "1")])]) "detail";
                  field (VObj [("detail", VObj [("toString", VNum "1")])]) "message";
                  field (VObj [("detail", VObj [("toString", VNum "1")])]) "error"]
       (VStr "HTTP 500: Internal Server Error")
     = VObj [("toString", VNum "1")]
  /\ Api.apiRequest (Sample.env (Some "/orders") (Some (Fulfilled Sample.odd_detail)))
       "/orders/" Options.empty tt
     = (inl (Error.mk "TypeError" "Cannot convert object to primitive value" None None),
        tt,
        [request_sent (Sample.env (Some "/orders") (Some (Fulfilled Sample.odd_detail)))
           "/orders/" Options.empty;
         EvJson])
  /\ (forall err,
        outcome (Api.apiRequest
                   (Sample.env (Some "/orders") (Some (Fulfilled Sample.odd_detail)))
                   "/orders/" Options.empty tt) = inl err ->
        Error.status err <> Some 500 /\ Error.details err = None).
Proof.
  repeat (split; [reflexivity |]).
  intros err [= <-]. split; [discriminate | reflexivity].
Qed.

(** C10: when [apiRequest] receives a 401, the error it throws has the
    message "Session expired. Please login again." and the status 401, and
    nothing else; the body of the response is never read, and a 401 with any
    other body, status text or arrival gives the same run. *)
Theorem session_expired_error {S} env endpoint options (s : S) res :
  awaited env endpoint options = inr res ->
  Response.status res = 401 ->
  outcome (Api.apiRequest env endpoint options s)
  = inl (Error.mk "Error" "Session expired. Please login again." (Some 401) None)
  /\ ~ In EvJson (trace (Api.apiRequest env endpoint options s))
  /\ (forall answer res',
        answer (Api.url env endpoint) (Api.fetchOptions options) 10000
        = Some (Fulfilled res') ->
        Response.status res' = 401 ->
        Api.apiRequest
          {| NEXT_PUBLIC_API_URL := NEXT_PUBLIC_API_URL env;
             window := window env;
             network := answer |} endpoint options s
        = Api.apiRequest env endpoint options s).
Proof.
  intros H H401. rewrite (apiRequest_401 _ _ _ _ _ H H401).
  split; [reflexivity | split].
  - unfold trace. simpl. intros [Hin|Hin]; [discriminate |].
    destruct (window env) as [p|]; [| exact Hin].
    destruct (_ || _); [exact Hin |].
    destruct Hin as [Hin|[]]. discriminate.
  - intros answer res' Ha H401'.
    rewrite (apiRequest_401 _ _ _ _ res'); [reflexivity | | exact H401'].
    unfold awaited, Promise_race, Api.url in *. simpl. now rewrite Ha.
Qed.

Lemma session_expired_error_witness :
  awaited (Sample.env (Some "/orders") (Some (Fulfilled Sample.unauthorized)))
    "/orders/" Options.empty = inr Sample.unauthorized
  /\ Response.status Sample.unauthorized = 401
  /\ outcome (Api.apiRequest
                (Sample.env (Some "/orders") (Some (Fulfilled Sample.unauthorized)))
                "/orders/" Options.empty tt)
     = inl (Error.mk "Error" "Session expired. Please login again." (Some 401) None).
Proof.
  split; [reflexivity | split; [reflexivity |]].
  exact (proj1 (session_expired_error
                  (Sample.env (Some "/orders") (Some (Fulfilled Sample.unauthorized)))
                  "/orders/" Options.empty tt Sample.unauthorized eq_refl eq_refl)).
Defined.

(* ===================================================================== *)
(** ** Properties of the session store *)
(* ===================================================================== *)

Arguments Api.apiRequest : simpl never.
Arguments JSON_stringify : simpl never.
Arguments trim : simpl never.
Arguments Agent.formatMessagesForBackend : simpl never.

(** Split a run of [apiRequest] into its outcome, the untouched state and
    its events. *)
Ltac split_api_run :=
  match goal with
  | |- context [Api.apiRequest ?env ?ep ?opts ?s] =>
      lazymatch s with
      | tt => fail
      | _ => rewrite (apiRequest_any_state env ep opts s)
      end
  end.

(** No call on an authentication probe navigates. *)
Lemma probe_never_navigates {S} env options (s : S) :
  navigations (trace (Api.apiRequest env "/me" options s)) = [].
Proof.
  destruct (awaited env "/me" options) as [e|res] eqn:H.
  - now rewrite (apiRequest_rejected _ _ _ _ _ H).
  - destruct (N.eq_dec (Response.status res) 401) as [H401|Hn].
    + rewrite (apiRequest_401 _ _ _ _ _ H H401). unfold trace. simpl.
      destruct (window env); [| reflexivity]. simpl. now rewrite orb_true_r.
    + destruct (Response.ok res) eqn:Hok.
      * now rewrite (apiRequest_ok _ _ _ _ _ H Hok).
      * now rewrite (apiRequest_http_error _ _ _ _ _ H Hn Hok).
Qed.

(** C7: when the identity check "/me" fails, whatever the failure,
    [checkAuthStatus] returns normally (it does not throw), leaves [user] null
    and [loading] false, and does nothing with the failure but log its
    message: no navigation takes place. *)
Theorem checkAuthStatus_failure env st e :
  outcome (Api.apiRequest env "/me" Options.empty st) = inl e ->
  AuthContext.checkAuthStatus env st
  = (inr tt,
     {| AuthContext.user := None; AuthContext.loading := false |},
     (trace (Api.apiRequest env "/me" Options.empty st)
      ++ [EvConsoleLog [LogStr "No valid session:"; LogStr (Error.message e)]])%list)
  /\ navigations (trace (AuthContext.checkAuthStatus env st)) = [].
Proof.
  intros H.
  assert (Hrun : AuthContext.checkAuthStatus env st
    = (inr tt,
       {| AuthContext.user := None; AuthContext.loading := false |},
       (trace (Api.apiRequest env "/me" Options.empty st)
        ++ [EvConsoleLog [LogStr "No valid session:"; LogStr (Error.message e)]])%list)).
  { revert H. unfold AuthContext.checkAuthStatus, try_finally, try_catch.
    cbn. split_api_run. unfold outcome, trace. cbn. intros ->. cbn.
    now rewrite ?app_nil_r. }
  split; [exact Hrun |].
  rewrite Hrun. unfold trace at 1. cbn [snd].
  unfold navigations. rewrite flat_map_app.
  change (flat_map _ (trace (Api.apiRequest env "/me" Options.empty st)))
    with (navigations (trace (Api.apiRequest env "/me" Options.empty st))).
  now rewrite probe_never_navigates.
Qed.

Lemma checkAuthStatus_failure_witness :
  outcome (Api.apiRequest (Sample.env (Some "/orders") (Some (Fulfilled Sample.unauthorized)))
             "/me" Options.empty AuthContext.initial)
  = inl session_expired
  /\ outcome (AuthContext.checkAuthStatus
                (Sample.env (Some "/orders") (Some (Fulfilled Sample.unauthorized)))
                AuthContext.initial) = inr tt
  /\ final (AuthContext.checkAuthStatus
              (Sample.env (Some "/orders") (Some (Fulfilled Sample.unauthorized)))
              AuthContext.initial)
     = {| AuthContext.user := None; AuthContext.loading := false |}.
Proof.
  split; [reflexivity |].
  rewrite (proj1 (checkAuthStatus_failure
                    (Sample.env (Some "/orders") (Some (Fulfilled Sample.unauthorized)))
                    AuthContext.initial session_expired eq_refl)).
  split; reflexivity.
Defined.

(** C8: [logout] returns normally and leaves [user] null whether the
    "/logout" call succeeds or fails; a failure is written to the console and
    goes no further. *)
Theorem logout_clears_session env st :
  outcome (AuthContext.logout env st) = inr tt
  /\ final (AuthContext.logout env st)
     = {| AuthContext.user := None; AuthContext.loading := AuthContext.loading st |}
  /\ (forall e,
        outcome (Api.apiRequest env "/logout" (Options.mk (Some "POST") None None) st)
        = inl e ->
        trace (AuthContext.logout env st)
        = (trace (Api.apiRequest env "/logout" (Options.mk (Some "POST") None None) st)
           ++ [EvConsoleError [LogStr "Logout error:"; LogErr e]])%list).
Proof.
  unfold AuthContext.logout, try_finally, try_catch. cbn.
  split_api_run. unfold outcome, final, trace. cbn.
  destruct (fst (fst (Api.apiRequest env "/logout" _ tt))) as [e0|v]; cbn.
  - repeat split. intros e [= <-]. now rewrite app_nil_r.
  - repeat split. intros e [=].
Qed.

Lemma logout_clears_session_witness :
  outcome (Api.apiRequest (Sample.env (Some "/orders") (Some (Fulfilled Sample.bad_gateway)))
             "/logout" (Options.mk (Some "POST") None None) Sample.signed_in)
  = inl (Error.mk "Error" "HTTP 502: Bad Gateway" (Some 502) (Some VNull))
  /\ final (AuthContext.logout
              (Sample.env (Some "/orders") (Some (Fulfilled Sample.bad_gateway)))
              Sample.signed_in)
     = {| AuthContext.user := None; AuthContext.loading := false |}
  /\ trace (AuthContext.logout
              (Sample.env (Some "/orders") (Some (Fulfilled Sample.bad_gateway)))
              Sample.signed_in)
     = (trace (Api.apiRequest
                 (Sample.env (Some "/orders") (Some (Fulfilled Sample.bad_gateway)))
                 "/logout" (Options.mk (Some "POST") None None) Sample.signed_in)
        ++ [EvConsoleError
              [LogStr "Logout error:";
               LogErr (Error.mk "Error" "HTTP 502: Bad Gateway" (Some 502) (Some VNull))]])%list.
Proof.
  split; [reflexivity |].
  destruct (logout_clears_session
              (Sample.env (Some "/orders") (Some (Fulfilled Sample.bad_gateway)))
              Sample.signed_in) as [_ [Hf Ht]].
  split; [exact Hf | exact (Ht _ eq_refl)].
Defined.

(* ===================================================================== *)
(** ** Properties of the chat turn *)
(* ===================================================================== *)

Lemma not_blank_trim s : ~ WhiteSpaceOnly s -> (trim s =? "")%string = false.
Proof.
  intros H. apply String.eqb_neq. intros E. now apply H, trim_empty_iff.
Qed.

(** Unfold a turn submitted with text in it up to the agent call. *)
Ltac enter_turn env st Hin :=
  unfold Agent.sendMessage, try_finally, try_catch; cbn;
  rewrite (not_blank_trim _ Hin); cbn;
  split_api_run;
  change (Api.apiRequest env "/agent/" _ tt) with (agent_call env st);
  unfold outcome, final, trace; cbn.

(** A turn whose agent call fails. *)
Lemma sendMessage_failed env st e :
  ~ WhiteSpaceOnly (Agent.input st) ->
  outcome (agent_call env st) = inl e ->
  Agent.sendMessage env st
  = (inr tt,
     {| Agent.messages :=
          (Agent.messages st
           ++ [user_message st;
               {| Agent.sender := "agent";
                  Agent.text := VStr "Sorry, something went wrong. Please try again later.";
                  Agent.orderSummary := None |}])%list;
        Agent.input := "";
        Agent.loading := false |},
     (trace (agent_call env st)
      ++ [EvConsoleError [LogStr "API Error:"; LogErr e]])%list).
Proof.
  intros Hin H. revert H. enter_turn env st Hin.
  intros ->. cbn. unfold user_message. now rewrite <- !app_assoc, ?app_nil_r.
Qed.

(** A turn whose agent call returns an object. *)
Lemma sendMessage_answered env st props :
  ~ WhiteSpaceOnly (Agent.input st) ->
  outcome (agent_call env st) = inr (VObj props) ->
  Agent.sendMessage env st
  = (inr tt,
     {| Agent.messages :=
          (Agent.messages st
           ++ [user_message st;
               {| Agent.sender := "agent";
                  Agent.text := field (VObj props) "reply";
                  Agent.orderSummary :=
                    Some (or_else (field (VObj props) "order_summary") VNull) |}])%list;
        Agent.input := "";
        Agent.loading := false |},
     trace (agent_call env st)).
Proof.
  intros Hin H. revert H. enter_turn env st Hin.
  intros ->. cbn. unfold user_message. now rewrite <- !app_assoc, ?app_nil_r.
Qed.

(** Any turn submitted with text in it: two messages are appended, the
    second from the agent, and the only fetch is the agent call. *)
Lemma sendMessage_turn env st :
  ~ WhiteSpaceOnly (Agent.input st) ->
  exists reply log,
    Agent.sendMessage env st
    = (inr tt,
       {| Agent.messages := (Agent.messages st ++ [user_message st; reply])%list;
          Agent.input := "";
          Agent.loading := false |},
       (trace (agent_call env st) ++ log)%list)
    /\ Agent.sender reply = "agent"
    /\ fetches log = [].
Proof.
  intros Hin. enter_turn env st Hin.
  destruct (fst (fst (agent_call env st))) as [e|response]; cbn.
  - do 2 eexists. repeat rewrite <- app_assoc. cbn.
    split; [reflexivity | split; reflexivity].
  - destruct response; cbn;
      do 2 eexists; repeat rewrite <- app_assoc; cbn;
      (split; [reflexivity | split; reflexivity]).
Qed.

(** C4: a turn submitted with an input that is empty or white space only
    does nothing: it returns at once, the state (and with it the message
    history and its length) is unchanged, and no event, in particular no
    fetch, takes place. *)
Theorem sendMessage_blank_noop env st :
  WhiteSpaceOnly (Agent.input st) ->
  Agent.sendMessage env st = (inr tt, st, [])
  /\ length (Agent.messages (final (Agent.sendMessage env st))) = length (Agent.messages st)
  /\ fetches (trace (Agent.sendMessage env st)) = [].
Proof.
  intros H. apply trim_empty_iff in H.
  assert (Hrun : Agent.sendMessage env st = (inr tt, st, [])).
  { unfold Agent.sendMessage. cbn. rewrite H. reflexivity. }
  rewrite Hrun. repeat split.
Qed.

Lemma sendMessage_blank_noop_witness :
  WhiteSpaceOnly (Agent.input (Sample.chat "   "))
  /\ Agent.sendMessage (Sample.env (Some "/agent") (Some (Fulfilled Sample.agent_reply)))
       (Sample.chat "   ")
     = (inr tt, Sample.chat "   ", []).
Proof.
  assert (H : WhiteSpaceOnly (Agent.input (Sample.chat "   "))).
  { apply trim_empty_iff. reflexivity. }
  split; [exact H |].
  exact (proj1 (sendMessage_blank_noop
                  (Sample.env (Some "/agent") (Some (Fulfilled Sample.agent_reply)))
                  (Sample.chat "   ") H)).
Defined.

(** C3: a turn submitted with text in its input returns normally once the
    agent call has settled, and has then appended to the history exactly two
    messages: the user's, with the trimmed input, and after it one from the
    agent, whatever the outcome of the call.  When the call returns an object,
    the agent message carries its [reply] and its [order_summary], [null]
    when that is absent or [null]. *)
Theorem sendMessage_appends_turn env st :
  ~ WhiteSpaceOnly (Agent.input st) ->
  exists reply,
    outcome (Agent.sendMessage env st) = inr tt
    /\ Agent.messages (final (Agent.sendMessage env st))
       = (Agent.messages st
          ++ [{| Agent.sender := "user"; Agent.text := VStr (trim (Agent.input st));
                 Agent.orderSummary := None |};
              reply])%list
    /\ Agent.sender reply = "agent"
    /\ (forall props,
          outcome (agent_call env st) = inr (VObj props) ->
          Agent.text reply = field (VObj props) "reply"
          /\ (lookup "order_summary" props = None
              \/ lookup "order_summary" props = Some VNull ->
              Agent.orderSummary reply = Some VNull)
          /\ (forall summary,
                lookup "order_summary" props = Some (VObj summary) ->
                Agent.orderSummary reply = Some (VObj summary))).
Proof.
  intros Hin.
  destruct (sendMessage_turn env st Hin) as [reply [log [Hrun [Hs _]]]].
  exists reply. rewrite Hrun. unfold outcome, final. cbn [fst snd Agent.messages].
  repeat split; try assumption.
  all: rewrite (sendMessage_answered env st props Hin H) in Hrun;
    injection Hrun as Hm _; apply app_inv_head in Hm; injection Hm as <-; cbn.
  - reflexivity.
  - intros [-> | ->]; reflexivity.
  - intros summary ->. reflexivity.
Qed.

Lemma sendMessage_appends_turn_witness :
  ~ WhiteSpaceOnly (Agent.input (Sample.chat " where is my order? "))
  /\ exists reply,
       Agent.messages
         (final (Agent.sendMessage
                   (Sample.env (Some "/agent") (Some (Fulfilled Sample.agent_reply)))
                   (Sample.chat " where is my order? ")))
       = (Agent.messages (Sample.chat " where is my order? ")
          ++ [{| Agent.sender := "user"; Agent.text := VStr "where is my order?";
                 Agent.orderSummary := None |};
              reply])%list
       /\ Agent.sender reply = "agent"
       /\ Agent.text reply = VStr "Your order has shipped.".
Proof.
  assert (H : ~ WhiteSpaceOnly (Agent.input (Sample.chat " where is my order? "))).
  { intros B. apply trim_empty_iff in B. discriminate B. }
  split; [exact H |].
  destruct (sendMessage_appends_turn
              (Sample.env (Some "/agent") (Some (Fulfilled Sample.agent_reply)))
              (Sample.chat " where is my order? ") H) as [reply [_ [Hm [Hs Hr]]]].
  exists reply. split; [exact Hm | split; [exact Hs |]].
  exact (proj1 (Hr _ eq_refl)).
Defined.

(** C5: when the agent call of a turn fails, whatever the failure, the agent
    message appended is "Sorry, something went wrong. Please try again
    later.", the same text for every error, with no order summary; the error
    itself goes to the console and nowhere else. *)
Theorem sendMessage_failure_apology env st e :
  ~ WhiteSpaceOnly (Agent.input st) ->
  outcome (agent_call env st) = inl e ->
  outcome (Agent.sendMessage env st) = inr tt
  /\ Agent.messages (final (Agent.sendMessage env st))
     = (Agent.messages st
        ++ [{| Agent.sender := "user"; Agent.text := VStr (trim (Agent.input st));
               Agent.orderSummary := None |};
            {| Agent.sender := "agent";
               Agent.text := VStr "Sorry, something went wrong. Please try again later.";
               Agent.orderSummary := None |}])%list
  /\ trace (Agent.sendMessage env st)
     = (trace (agent_call env st)
        ++ [EvConsoleError [LogStr "API Error:"; LogErr e]])%list.
Proof.
  intros Hin H. rewrite (sendMessage_failed env st e Hin H). repeat split.
Qed.

Lemma sendMessage_failure_apology_witness :
  ~ WhiteSpaceOnly (Agent.input (Sample.chat "hello"))
  /\ outcome (agent_call (Sample.env (Some "/agent") (Some (Rejected (new_Error "Failed to fetch"))))
                (Sample.chat "hello"))
     = inl (new_Error "Network error: Failed to fetch")
  /\ Agent.messages
       (final (Agent.sendMessage
                 (Sample.env (Some "/agent") (Some (Rejected (new_Error "Failed to fetch"))))
                 (Sample.chat "hello")))
     = (Agent.messages (Sample.chat "hello")
        ++ [{| Agent.sender := "user"; Agent.text := VStr "hello";
               Agent.orderSummary := None |};
            {| Agent.sender := "agent";
               Agent.text := VStr "Sorry, something went wrong. Please try again later.";
               Agent.orderSummary := None |}])%list.
Proof.
  assert (H : ~ WhiteSpaceOnly (Agent.input (Sample.chat "hello"))).
  { intros B. apply trim_empty_iff in B. discriminate B. }
  split; [exact H | split; [reflexivity |]].
  exact (proj1 (proj2 (sendMessage_failure_apology
                         (Sample.env (Some "/agent")
                            (Some (Rejected (new_Error "Failed to fetch"))))
                         (Sample.chat "hello") (new_Error "Network error: Failed to fetch")
                         H eq_refl))).
Defined.

Lemma fetches_app tr1 tr2 : fetches (tr1 ++ tr2) = (fetches tr1 ++ fetches tr2)%list.
Proof. apply flat_map_app. Qed.

(** C9: every message of the history is serialised as an object with the
    role "assistant" when its sender is "agent" and "user" when its sender is
    "user", and with its text as content; and a turn submitted with text in
    its input issues one fetch, a POST to "/agent/" whose body is the JSON
    text of the new message under [message] and of the serialised history
    under [previous_messages]. *)
Theorem agent_turn_payload env st :
  Forall2
    (fun msg o =>
       exists role,
         o = VObj [("role", VStr role); ("content", Agent.text msg)]
         /\ (Agent.sender msg = "agent" -> role = "assistant")
         /\ (Agent.sender msg = "user" -> role = "user"))
    (Agent.messages st) (Agent.formatMessagesForBackend (Agent.messages st))
  /\ (~ WhiteSpaceOnly (Agent.input st) ->
      fetches (trace (Agent.sendMessage env st))
      = [(NEXT_PUBLIC_API_URL env ++ "/agent/",
          RequestInit.mk (Some "POST") [("Content-Type", "application/json")]
            (JSON_stringify
               (VObj [("message", VStr (trim (Agent.input st)));
                      ("previous_messages",
                       VArr (Agent.formatMessagesForBackend (Agent.messages st)))]))
            "include")]).
Proof.
  split.
  - unfold Agent.formatMessagesForBackend.
    induction (Agent.messages st) as [|msg l IH]; simpl; constructor; [| exact IH].
    eexists. split; [reflexivity |]. split; intros ->; reflexivity.
  - intros Hin.
    destruct (sendMessage_turn env st Hin) as [reply [log [Hrun [_ Hlog]]]].
    rewrite Hrun. unfold trace at 1. cbn [snd]. rewrite fetches_app, Hlog, app_nil_r.
    unfold agent_call.
    destruct (apiRequest_shape env "/agent/" (turn_options st) tt) as [r [tr [Hr Htr]]].
    rewrite Hr. unfold trace. cbn [snd].
    change (request_sent env "/agent/" (turn_options st) :: tr)
      with ([request_sent env "/agent/" (turn_options st)] ++ tr)%list.
    rewrite fetches_app, Htr. reflexivity.
Qed.

Lemma agent_turn_payload_witness :
  ~ WhiteSpaceOnly (Agent.input (Sample.chat "and the total?"))
  /\ Agent.formatMessagesForBackend (Agent.messages (Sample.chat "and the total?"))
     = [VObj [("role", VStr "user"); ("content", VStr "hello")];
        VObj [("role", VStr "assistant"); ("content", VStr "Hi, how can I help?")]]
  /\ fetches (trace (Agent.sendMessage
                       (Sample.env (Some "/agent") (Some (Fulfilled Sample.agent_reply)))
                       (Sample.chat "and the total?")))
     = [("https://api.example.test/agent/",
         RequestInit.mk (Some "POST") [("Content-Type", "application/json")]
           (JSON_stringify
              (VObj [("message", VStr "and the total?");
                     ("previous_messages",
                      VArr [VObj [("role", VStr "user"); ("content", VStr "hello")];
                            VObj [("role", VStr "assistant");
                                  ("content", VStr "Hi, how can I help?")]])]))
           "include")].
Proof.
  assert (H : ~ WhiteSpaceOnly (Agent.input (Sample.chat "and the total?"))).
  { intros B. apply trim_empty_iff in B. discriminate B. }
  split; [exact H | split; [reflexivity |]].
  exact (proj2 (agent_turn_payload
                  (Sample.env (Some "/agent") (Some (Fulfilled Sample.agent_reply)))
                  (Sample.chat "and the total?")) H).
Defined.

(* ===================================================================== *)
(** ** More on the request wrapper *)
(* ===================================================================== *)

Lemma hexdigit_unreserved k : k < 16 -> uriUnreserved (hexdigit true k) = true.
Proof.
  intros H.
  destruct k as [|p]; [reflexivity |].
  do 4 (destruct p as [p|p|]; try reflexivity); lia.
Qed.

Lemma encodeURIComponent_safe s :
  Forall (fun a => uri_safe a = true) (list_ascii_of_string (encodeURIComponent s)).
Proof.
  induction s as [|a s IH]; simpl; [constructor |].
  destruct (uriUnreserved a) eqn:Ha; simpl.
  - constructor; [unfold uri_safe; now rewrite Ha | exact IH].
  - pose proof (N_ascii_bounded a) as Hb.
    repeat constructor; try exact IH; unfold uri_safe.
    + rewrite hexdigit_unreserved; [reflexivity |].
      apply N.Div0.div_lt_upper_bound. lia.
    + rewrite hexdigit_unreserved; [reflexivity |].
      apply N.mod_lt. lia.
Qed.

(** The one fetch of a call, and its silence on the console. *)
Lemma apiRequest_fetches {S} env endpoint options (s : S) :
  fetches (trace (Api.apiRequest env endpoint options s))
  = [(NEXT_PUBLIC_API_URL env ++ endpoint, Api.fetchOptions options)].
Proof.
  destruct (apiRequest_shape env endpoint options s) as [r [tr [Hr Htr]]].
  rewrite Hr. unfold trace. cbn [snd].
  change (request_sent env endpoint options :: tr)
    with ([request_sent env endpoint options] ++ tr)%list.
  rewrite fetches_app, Htr. reflexivity.
Qed.

Lemma apiRequest_console {S} env endpoint options (s : S) :
  console (trace (Api.apiRequest env endpoint options s)) = [].
Proof.
  destruct (awaited env endpoint options) as [e|res] eqn:H.
  - now rewrite (apiRequest_rejected _ _ _ _ _ H).
  - destruct (N.eq_dec (Response.status res) 401) as [H401|Hn].
    + rewrite (apiRequest_401 _ _ _ _ _ H H401). unfold trace. cbn.
      destruct (window env) as [p|]; [| reflexivity].
      destruct (_ || _); reflexivity.
    + destruct (Response.ok res) eqn:Hok.
      * now rewrite (apiRequest_ok _ _ _ _ _ H Hok).
      * now rewrite (apiRequest_http_error _ _ _ _ _ H Hn Hok).
Qed.

(** X1: every call of [apiRequest] issues exactly one fetch, to the API base
    followed by the endpoint, with the caller's method and body and with
    credentials "include"; it navigates at most once, reads the body at most
    once, writes nothing to the console and leaves the caller's state
    alone. *)
Theorem apiRequest_effects {S} env endpoint options (s : S) :
  final (Api.apiRequest env endpoint options s) = s
  /\ fetches (trace (Api.apiRequest env endpoint options s))
     = [(NEXT_PUBLIC_API_URL env ++ endpoint,
         RequestInit.mk (Options.method options) (Api.headers options)
           (Options.body options) "include")]
  /\ (length (navigations (trace (Api.apiRequest env endpoint options s))) <= 1)%nat
  /\ (json_reads (trace (Api.apiRequest env endpoint options s)) <= 1)%nat
  /\ console (trace (Api.apiRequest env endpoint options s)) = [].
Proof.
  destruct (awaited env endpoint options) as [e|res] eqn:H.
  - rewrite (apiRequest_rejected _ _ _ _ _ H). cbn. repeat split; auto.
  - destruct (N.eq_dec (Response.status res) 401) as [H401|Hn].
    + rewrite (apiRequest_401 _ _ _ _ _ H H401). unfold final, trace. cbn.
      destruct (window env) as [p|]; [| cbn; repeat split; auto].
      destruct (_ || _); cbn; repeat split; auto.
    + destruct (Response.ok res) eqn:Hok.
      * rewrite (apiRequest_ok _ _ _ _ _ H Hok). cbn. repeat split; auto.
      * rewrite (apiRequest_http_error _ _ _ _ _ H Hn Hok). cbn. repeat split; auto.
Qed.

(** X2: [apiRequest] returns a value exactly when a response with a success
    status was received and its body parsed as JSON, and the value is that
    parsed body; nothing else is ever turned into a success. *)
Theorem apiRequest_value_iff {S} env endpoint options (s : S) v :
  outcome (Api.apiRequest env endpoint options s) = inr v
  <-> exists res,
        awaited env endpoint options = inr res
        /\ Response.ok res = true
        /\ Response.body res = Some v.
Proof.
  destruct (awaited env endpoint options) as [e|res] eqn:H.
  - rewrite (apiRequest_rejected _ _ _ _ _ H). cbn. split; [discriminate |].
    intros [res' [Hr _]]. discriminate.
  - destruct (N.eq_dec (Response.status res) 401) as [H401|Hn].
    + rewrite (apiRequest_401 _ _ _ _ _ H H401). cbn. split; [discriminate |].
      intros [res' [[= <-] [Hok _]]]. unfold Response.ok in Hok.
      rewrite H401 in Hok. discriminate.
    + destruct (Response.ok res) eqn:Hok.
      * rewrite (apiRequest_ok _ _ _ _ _ H Hok). cbn. split.
        -- destruct (Response.body res) as [b|] eqn:Hb; [| discriminate].
           intros [= <-]. exists res. auto.
        -- intros [res' [[= <-] [_ ->]]]. reflexivity.
      * rewrite (apiRequest_http_error _ _ _ _ _ H Hn Hok). unfold outcome. cbn [fst].
        destruct (ToString (http_error_message res));
          (split; [discriminate | intros [res' [[= <-] [Hok' _]]]; congruence]).
Qed.

(** The one way a conversion to text fails. *)
Lemma ToString_error : forall v e, ToString v = inl e -> e = TypeError_primitive.
Proof.
  fix IH 1. intros v e. destruct v as [| |b|r|str|l|props]; try discriminate.
  - destruct b; discriminate.
  - unfold ToString; fold ToString. revert e.
    induction l as [|x t IHt]; intros e; [discriminate |].
    assert (Hx : forall e', match x with
                            | VUndefined | VNull => inr ""
                            | _ => ToString x
                            end = inl e' -> e' = TypeError_primitive).
    { intros e' He'. apply (IH x). destruct x; try discriminate He'; exact He'. }
    destruct (match x with VUndefined | VNull => inr "" | _ => ToString x end)
      as [e'|first]; [intros [= <-]; now apply Hx |].
    destruct t as [|y t]; [discriminate |].
    match goal with
    | |- context [match ?j with inl _ => _ | inr _ => _ end] =>
        destruct j as [e'|rest] eqn:Hj
    end; [| discriminate].
    intros [= <-]. now apply IHt.
  - unfold ToString. destruct (lookup "toString" props); [| discriminate].
    now intros [= <-].
Qed.

(** A text, a number, a boolean and an object without a [toString] of its
    own are converted. *)
Lemma ToString_plain v :
  (exists str, v = VStr str) \/ (exists r, v = VNum r) \/ (exists b, v = VBool b)
  \/ (exists props, v = VObj props /\ lookup "toString" props = None) ->
  exists text, ToString v = inr text.
Proof.
  intros [[str ->] | [[r ->] | [[b ->] | [props [-> Hp]]]]].
  - now exists str.
  - now exists r.
  - destruct b; eexists; reflexivity.
  - unfold ToString. rewrite Hp. eexists; reflexivity.
Qed.

(** X3: an error thrown by [apiRequest] has a [status] only when a response
    with a non-success status was received, and then it is the status of that
    response.  After a 401 the error always has it; after another
    non-success status it has it exactly when the value chosen as message
    could be made a text.  The errors for a failed fetch, a timeout, an
    unparsable success body and a message that cannot be converted have
    none. *)
Theorem apiRequest_error_status {S} env endpoint options (s : S) e :
  outcome (Api.apiRequest env endpoint options s) = inl e ->
  forall n,
    Error.status e = Some n
    <-> exists res,
          awaited env endpoint options = inr res
          /\ Response.status res = n
          /\ Response.ok res = false
          /\ (n = 401 \/ exists text, ToString (http_error_message res) = inr text).
Proof.
  destruct (awaited env endpoint options) as [e0|res] eqn:H.
  - rewrite (apiRequest_rejected _ _ _ _ _ H). cbn. intros [= <-] n. cbn.
    split; [discriminate | intros [res' [Hr _]]; discriminate].
  - destruct (N.eq_dec (Response.status res) 401) as [H401|Hn].
    + rewrite (apiRequest_401 _ _ _ _ _ H H401). cbn. intros [= <-] n. cbn. split.
      * intros [= <-]. exists res. unfold Response.ok. rewrite H401. auto.
      * intros [res' [[= <-] [<- _]]]. now rewrite H401.
    + destruct (Response.ok res) eqn:Hok.
      * rewrite (apiRequest_ok _ _ _ _ _ H Hok). cbn.
        destruct (Response.body res); [discriminate |]. intros [= <-] n. cbn.
        split; [discriminate | intros [res' [[= <-] [_ [Hok' _]]]]; congruence].
      * rewrite (apiRequest_http_error _ _ _ _ _ H Hn Hok). unfold outcome. cbn [fst].
        destruct (ToString (http_error_message res)) as [e'|text] eqn:Ht.
        -- intros [= <-] n. rewrite (ToString_error _ _ Ht). cbn. split; [discriminate |].
           intros [res' [[= <-] [<- [_ [H401 | [text Ht']]]]]]; [contradiction | congruence].
        -- intros [= <-] n. cbn. split.
           ++ intros [= <-]. exists res. eauto 6.
           ++ intros [res' [[= <-] [<- _]]]. reflexivity.
Qed.

Lemma apiRequest_error_status_witness :
  outcome (Api.apiRequest (Sample.env (Some "/orders") (Some (Fulfilled Sample.bad_gateway)))
             "/orders/" Options.empty tt)
  = inl (Error.mk "Error" "HTTP 502: Bad Gateway" (Some 502) (Some VNull))
  /\ exists res,
       awaited (Sample.env (Some "/orders") (Some (Fulfilled Sample.bad_gateway)))
         "/orders/" Options.empty = inr res
       /\ Response.status res = 502
       /\ Response.ok res = false
       /\ (502 = 401 \/ exists text, ToString (http_error_message res) = inr text).
Proof.
  split; [reflexivity |].
  exact (proj1 (apiRequest_error_status
                  (Sample.env (Some "/orders") (Some (Fulfilled Sample.bad_gateway)))
                  "/orders/" Options.empty tt _ eq_refl 502) eq_refl).
Defined.

(** X27: when [apiRequest] receives a non-success status other than 401, the
    value chosen as message is the first usable one of the [detail],
    [message] and [error] properties of the parsed body, in that order, and
    the text "HTTP <status>: <statusText>" when there is none or when the body
    is absent or not JSON.  When that value can be made a text (a text, a
    number, a boolean and an object without a property named [toString]
    always can), the error thrown has that text as message, the status of the
    response, and as details the parsed body, [null] when there is none.
    When it cannot, the error thrown is the [TypeError] of the conversion. *)
Theorem http_error_fields {S} env endpoint options (s : S) res :
  awaited env endpoint options = inr res ->
  Response.status res <> 401 ->
  Response.ok res = false ->
  exists chosen,
    (forall d, Response.body res = Some d ->
       chosen = by_priority [field d "detail"; field d "message"; field d "error"]
                  (VStr ("HTTP " ++ decimal (Response.status res) ++ ": "
                         ++ Response.statusText res)))
    /\ (Response.body res = None ->
        chosen = VStr ("HTTP " ++ decimal (Response.status res) ++ ": "
                       ++ Response.statusText res))
    /\ (forall text,
          ToString chosen = inr text ->
          exists err,
            outcome (Api.apiRequest env endpoint options s) = inl err
            /\ Error.name err = "Error"
            /\ Error.message err = text
            /\ Error.status err = Some (Response.status res)
            /\ (forall d, Response.body res = Some d -> d <> VUndefined ->
                  Error.details err = Some d)
            /\ (Response.body res = None -> Error.details err = Some VNull))
    /\ (forall e,
          ToString chosen = inl e ->
          outcome (Api.apiRequest env endpoint options s)
          = inl (Error.mk "TypeError" "Cannot convert object to primitive value"
                   None None))
    /\ ((exists str, chosen = VStr str) \/ (exists r, chosen = VNum r)
        \/ (exists b, chosen = VBool b)
        \/ (exists props, chosen = VObj props /\ lookup "toString" props = None) ->
        exists text, ToString chosen = inr text).
Proof.
  intros H Hn Hok. rewrite (apiRequest_http_error _ _ _ _ _ H Hn Hok).
  exists (http_error_message res).
  unfold http_error_message, http_error_details, generic_message, outcome. cbn [fst].
  split; [intros d ->; reflexivity |].
  split; [intros ->; reflexivity |].
  split; [| split].
  - intros text ->. eexists. split; [reflexivity |].
    cbn. repeat split.
    + intros d -> Hd. destruct d; congruence.
    + intros ->. reflexivity.
  - intros e He. rewrite He. f_equal. exact (ToString_error _ _ He).
  - apply ToString_plain.
Qed.

Lemma http_error_fields_witness :
  awaited (Sample.env (Some "/orders/7") (Some (Fulfilled Sample.not_found)))
    "/orders/7" Options.empty = inr Sample.not_found
  /\ Response.status Sample.not_found <> 401
  /\ Response.ok Sample.not_found = false
  /\ exists err,
       outcome (Api.apiRequest
                  (Sample.env (Some "/orders/7") (Some (Fulfilled Sample.not_found)))
                  "/orders/7" Options.empty tt) = inl err
       /\ Error.status err = Some 404
       /\ Error.message err = "Order not found".
Proof.
  split; [reflexivity | split; [discriminate | split; [reflexivity |]]].
  destruct (http_error_fields
              (Sample.env (Some "/orders/7") (Some (Fulfilled Sample.not_found)))
              "/orders/7" Options.empty tt Sample.not_found eq_refl
              ltac:(discriminate) eq_refl) as [chosen [Hc [_ [Hok _]]]].
  rewrite (Hc _ eq_refl) in Hok.
  destruct (Hok "Order not found" eq_refl) as [err [Ho [_ [Hm [Hs _]]]]].
  exists err. split; [exact Ho | split; [exact Hs | exact Hm]].
Defined.

(** X4: [apiRequest] navigates only after a 401, only in a window, and only
    to "/login" or to "/login?redirect=" followed by a parameter made of
    unreserved characters and percent escapes, so that nothing in the path it
    came from can add a parameter or a fragment to the login URL. *)
Theorem apiRequest_navigation_target {S} env endpoint options (s : S) href :
  In href (navigations (trace (Api.apiRequest env endpoint options s))) ->
  (exists res, awaited env endpoint options = inr res /\ Response.status res = 401)
  /\ window env <> None
  /\ (href = "/login"
      \/ exists q,
           href = "/login?redirect=" ++ q
           /\ Forall (fun a => uri_safe a = true) (list_ascii_of_string q)).
Proof.
  destruct (awaited env endpoint options) as [e|res] eqn:H.
  - rewrite (apiRequest_rejected _ _ _ _ _ H). cbn. tauto.
  - destruct (N.eq_dec (Response.status res) 401) as [H401|Hn].
    + rewrite (apiRequest_401 _ _ _ _ _ H H401). unfold trace. cbn.
      destruct (window env) as [p|]; [| cbn; tauto].
      destruct (_ || _); cbn; [tauto |].
      intros [<- | []]. split; [eauto | split; [discriminate |]].
      destruct (p =? "/")%string; [left; reflexivity | right].
      eexists. split; [reflexivity | apply encodeURIComponent_safe].
    + destruct (Response.ok res) eqn:Hok.
      * rewrite (apiRequest_ok _ _ _ _ _ H Hok). cbn. tauto.
      * rewrite (apiRequest_http_error _ _ _ _ _ H Hn Hok). cbn. tauto.
Qed.

Lemma apiRequest_navigation_target_witness :
  In "/login?redirect=%2Forders%3Fq%3D1%26x"
    (navigations
       (trace (Api.apiRequest
                 (Sample.env (Some "/orders?q=1&x") (Some (Fulfilled Sample.unauthorized)))
                 "/orders/" Options.empty tt)))
  /\ (exists res,
        awaited (Sample.env (Some "/orders?q=1&x") (Some (Fulfilled Sample.unauthorized)))
          "/orders/" Options.empty = inr res
        /\ Response.status res = 401).
Proof.
  assert (H : In "/login?redirect=%2Forders%3Fq%3D1%26x"
                (navigations
                   (trace (Api.apiRequest
                             (Sample.env (Some "/orders?q=1&x")
                                (Some (Fulfilled Sample.unauthorized)))
                             "/orders/" Options.empty tt)))).
  { left. reflexivity. }
  split; [exact H |].
  exact (proj1 (apiRequest_navigation_target _ _ _ tt _ H)).
Defined.

(** X5: when the fetch is rejected in time, [apiRequest] throws a plain
    error whose message is "Network error: " followed by the message of the
    rejection; the name of the rejection, and whatever else it carried, is
    dropped.  The body is not read and nothing navigates. *)
Theorem apiRequest_wraps_rejection {S} env endpoint options (s : S) e0 :
  network env (Api.url env endpoint) (Api.fetchOptions options) 10000
  = Some (Rejected e0) ->
  Api.apiRequest env endpoint options s
  = (inl (Error.mk "Error" ("Network error: " ++ Error.message e0) None None), s,
     [request_sent env endpoint options]).
Proof.
  intros H. apply apiRequest_rejected. unfold awaited, Promise_race. now rewrite H.
Qed.

Lemma apiRequest_wraps_rejection_witness :
  outcome
    (Api.apiRequest
       (Sample.env (Some "/orders")
          (Some (Rejected (Error.mk "TypeError" "Failed to fetch" None None))))
       "/orders/" Options.empty tt)
  = inl (Error.mk "Error" "Network error: Failed to fetch" None None).
Proof.
  rewrite (apiRequest_wraps_rejection
             (Sample.env (Some "/orders")
                (Some (Rejected (Error.mk "TypeError" "Failed to fetch" None None))))
             "/orders/" Options.empty tt
             (Error.mk "TypeError" "Failed to fetch" None None) eq_refl).
  reflexivity.
Defined.

Lemma upper_letter (a : ascii) (n : N) :
  65 <= n <= 90 -> upper a = ascii_of_N n -> a = ascii_of_N n \/ a = ascii_of_N (n + 32).
Proof.
  intros Hn H. unfold upper in H.
  destruct ((97 <=? N_of_ascii a) && (N_of_ascii a <=? 122)) eqn:Hl.
  - right. apply andb_true_iff in Hl. rewrite N.leb_le, N.leb_le in Hl.
    apply (f_equal N_of_ascii) in H.
    rewrite !N_ascii_embedding in H by lia.
    rewrite <- (ascii_N_embedding a). f_equal. lia.
  - left. exact H.
Qed.

Lemma toUpperCase_GET m :
  toUpperCase m = "GET"
  <-> In m ["GET"; "GEt"; "GeT"; "Get"; "gET"; "gEt"; "geT"; "get"].
Proof.
  split.
  - destruct m as [|a [|b [|c [|d m]]]]; simpl; try discriminate.
    intros [= Ha Hb Hc].
    apply (upper_letter a 71) in Ha; [| lia].
    apply (upper_letter b 69) in Hb; [| lia].
    apply (upper_letter c 84) in Hc; [| lia].
    destruct Ha as [-> | ->], Hb as [-> | ->], Hc as [-> | ->]; simpl; tauto.
  - simpl. intros H.
    repeat (destruct H as [<- | H]; [reflexivity |]). destruct H.
Qed.

(** X6: when the caller passes no headers, a request whose method is absent,
    empty or GET in any letter case is sent without headers, and a request
    with any other method is sent with [Content-Type: application/json] and
    nothing else. *)
Theorem default_content_type options :
  Options.headers options = None ->
  (In (Options.method options)
      [None; Some ""; Some "GET"; Some "GEt"; Some "GeT"; Some "Get";
       Some "gET"; Some "gEt"; Some "geT"; Some "get"] ->
   Api.headers options = [])
  /\ (~ In (Options.method options)
          [None; Some ""; Some "GET"; Some "GEt"; Some "GeT"; Some "Get";
           Some "gET"; Some "gEt"; Some "geT"; Some "get"] ->
      Api.headers options = [("Content-Type", "application/json")]).
Proof.
  intros Hh. unfold Api.headers, Api.defaultHeaders. rewrite Hh.
  destruct (Options.method options) as [m|]; cbn [Api.spread fold_left].
  - destruct (String.eqb_spec m "") as [-> | Hne]; cbn [negb andb].
    + split; [reflexivity |]. intros Hn. exfalso. apply Hn. simpl. tauto.
    + destruct (String.eqb_spec (toUpperCase m) "GET") as [Hg | Hg]; cbn [negb].
      * split; [reflexivity |]. intros Hn. exfalso. apply Hn.
        apply toUpperCase_GET in Hg. simpl in Hg |- *.
        repeat (destruct Hg as [<- | Hg]; [tauto |]). destruct Hg.
      * split; [| reflexivity]. intros Hin. exfalso.
        simpl in Hin. destruct Hin as [Hin | Hin]; [discriminate |].
        destruct Hin as [Hin | Hin]; [injection Hin as <-; now apply Hne |].
        apply Hg, toUpperCase_GET. simpl.
        repeat (destruct Hin as [[= <-] | Hin]; [tauto |]). destruct Hin.
  - split; [reflexivity |]. intros Hn. exfalso. apply Hn. simpl. tauto.
Qed.

Lemma default_content_type_witness :
  Options.headers (Options.mk (Some "DELETE") None None) = None
  /\ Api.headers (Options.mk (Some "DELETE") None None)
     = [("Content-Type", "application/json")]
  /\ Api.headers (Options.mk (Some "Get") None None) = [].
Proof.
  split; [reflexivity |]. split.
  - apply (proj2 (default_content_type (Options.mk (Some "DELETE") None None) eq_refl)).
    simpl. intros H.
    repeat (destruct H as [H | H]; [discriminate H |]). destruct H.
  - apply (proj1 (default_content_type (Options.mk (Some "Get") None None) eq_refl)).
    simpl. tauto.
Defined.

Lemma header_assign k o k' v :
  header k (Api.assign o k' v) = if (k =? k')%string then Some v else header k o.
Proof.
  induction o as [|[k0 v0] o IH]; simpl.
  - reflexivity.
  - destruct (String.eqb_spec k' k0) as [-> | Hne]; simpl.
    + destruct (k =? k0)%string; reflexivity.
    + destruct (String.eqb_spec k k0) as [-> | Hne'].
      * apply not_eq_sym, String.eqb_neq in Hne. now rewrite Hne.
      * exact IH.
Qed.

Lemma header_app k h1 h2 :
  header k (h1 ++ h2)
  = match header k h1 with Some v => Some v | None => header k h2 end.
Proof.
  induction h1 as [|[k0 v0] h1 IH]; simpl; [reflexivity |].
  destruct (k =? k0)%string; [reflexivity | exact IH].
Qed.

Lemma header_spread k a b :
  header k (Api.spread a b)
  = match last_header k b with Some v => Some v | None => header k a end.
Proof.
  unfold Api.spread, last_header. revert a.
  induction b as [|[k0 v0] b IH]; intros a; simpl; [reflexivity |].
  rewrite IH, header_app, header_assign. simpl.
  destruct (header k (rev b)); [reflexivity |].
  destruct (k =? k0)%string; reflexivity.
Qed.

(** X7: for every header name, the request carries the value the caller
    gave for it (the last one, should the caller give several), and the
    default only for a name the caller did not set: a caller's Content-Type
    replaces [application/json]. *)
Theorem caller_headers_win options h k :
  Options.headers options = Some h ->
  header k (RequestInit.headers (Api.fetchOptions options))
  = match last_header k h with
    | Some v => Some v
    | None => header k (Api.defaultHeaders options)
    end.
Proof.
  intros Hh. unfold Api.fetchOptions, Api.headers. cbn [RequestInit.headers].
  rewrite Hh. apply header_spread.
Qed.

Lemma caller_headers_win_witness :
  header "Content-Type"
    (RequestInit.headers
       (Api.fetchOptions
          (Options.mk (Some "POST")
             (Some [("Content-Type", "text/plain"); ("X-Trace", "1")]) None)))
  = Some "text/plain".
Proof.
  rewrite (caller_headers_win
             (Options.mk (Some "POST")
                (Some [("Content-Type", "text/plain"); ("X-Trace", "1")]) None)
             [("Content-Type", "text/plain"); ("X-Trace", "1")] "Content-Type" eq_refl).
  reflexivity.
Defined.

Lemma apiRequest_value_iff_witness :
  outcome (Api.apiRequest (Sample.env (Some "/agent") (Some (Fulfilled Sample.agent_reply)))
             "/agent/" Options.empty tt)
  = inr (VObj [("reply", VStr "Your order has shipped.");
               ("order_summary",
                VObj [("sales_order_number", VStr "SO-1001");
                      ("display_status", VStr "Shipped")])]).
Proof.
  apply (proj2 (apiRequest_value_iff
                  (Sample.env (Some "/agent") (Some (Fulfilled Sample.agent_reply)))
                  "/agent/" Options.empty tt _)).
  exists Sample.agent_reply. repeat split.
Defined.

(* ===================================================================== *)
(** ** The helpers of lib/api.js *)
(* ===================================================================== *)

Lemma get_field v k : v <> VNull -> v <> VUndefined -> get v k = inr (field v k).
Proof. destruct v; simpl; congruence. Qed.

Lemma get_nullish v k :
  v = VNull \/ v = VUndefined -> exists e, get v k = inl e /\ Error.message e <> "".
Proof.
  intros [-> | ->]; eexists; (split; [reflexivity | discriminate]).
Qed.

Lemma nullish_dec v : (v = VNull \/ v = VUndefined) \/ (v <> VNull /\ v <> VUndefined).
Proof. destruct v; auto; right; split; discriminate. Qed.

(** A 401 on one of the two probe endpoints navigates nowhere, nor does any
    other answer. *)
Lemma auth_check_never_navigates {S} env endpoint options (s : S) :
  endpoint = "/me" \/ endpoint = "/validate" ->
  navigations (trace (Api.apiRequest env endpoint options s)) = [].
Proof.
  intros He.
  destruct (awaited env endpoint options) as [e|res] eqn:H.
  - now rewrite (apiRequest_rejected _ _ _ _ _ H).
  - destruct (N.eq_dec (Response.status res) 401) as [H401|Hn].
    + rewrite (apiRequest_401 _ _ _ _ _ H H401). unfold trace. simpl.
      destruct (window env); [| reflexivity]. simpl.
      destruct He as [-> | ->]; simpl; now rewrite ?orb_true_r.
    + destruct (Response.ok res) eqn:Hok.
      * now rewrite (apiRequest_ok _ _ _ _ _ H Hok).
      * now rewrite (apiRequest_http_error _ _ _ _ _ H Hn Hok).
Qed.

(** X8: the [checkAuthStatus] helper of lib/api.js never throws, never
    navigates and never writes to the console, whatever the network does: its
    events are those of its one request to "/validate".  It answers
    [{ authenticated: true, customer_id }] when the request returns a value
    other than [null] ([customer_id] being [undefined] when the value has
    none), and [{ authenticated: false, error }] with the message of the error
    when the request fails. *)
Theorem validate_never_throws {S} env (s : S) :
  exists answer,
    ApiSession.checkAuthStatus env s
    = (inr answer, s, trace (Api.apiRequest env "/validate" Options.empty s))
    /\ navigations (trace (ApiSession.checkAuthStatus env s)) = []
    /\ console (trace (ApiSession.checkAuthStatus env s)) = []
    /\ (forall payload,
          outcome (Api.apiRequest env "/validate" Options.empty s) = inr payload ->
          payload <> VNull -> payload <> VUndefined ->
          answer = VObj [("authenticated", VBool true);
                         ("customer_id", field payload "customer_id")])
    /\ (forall e,
          outcome (Api.apiRequest env "/validate" Options.empty s) = inl e ->
          answer = VObj [("authenticated", VBool false);
                         ("error", VStr (Error.message e))]).
Proof.
  assert (Hrun : exists answer,
    ApiSession.checkAuthStatus env s
    = (inr answer, s, trace (Api.apiRequest env "/validate" Options.empty s))
    /\ (forall payload,
          outcome (Api.apiRequest env "/validate" Options.empty s) = inr payload ->
          payload <> VNull -> payload <> VUndefined ->
          answer = VObj [("authenticated", VBool true);
                         ("customer_id", field payload "customer_id")])
    /\ (forall e,
          outcome (Api.apiRequest env "/validate" Options.empty s) = inl e ->
          answer = VObj [("authenticated", VBool false);
                         ("error", VStr (Error.message e))])).
  { unfold ApiSession.checkAuthStatus, try_catch, getM, of_result. cbn.
    split_api_run. unfold outcome, trace. cbn.
    destruct (fst (fst (Api.apiRequest env "/validate" Options.empty tt))) as [e|payload];
      cbn.
    - eexists. rewrite app_nil_r. split; [reflexivity |].
      split; [discriminate | intros e' [= <-]; reflexivity].
    - destruct (get payload "customer_id") as [e|cid] eqn:Hg; cbn.
      + eexists. rewrite !app_nil_r. split; [reflexivity |].
        split; [| discriminate].
        intros p [= <-] Hn Hu. rewrite (get_field _ _ Hn Hu) in Hg. discriminate.
      + eexists. rewrite !app_nil_r. split; [reflexivity |].
        split; [| discriminate].
        intros p [= <-] Hn Hu. rewrite (get_field _ _ Hn Hu) in Hg.
        now injection Hg as <-. }
  destruct Hrun as [answer [Hrun [Hok Herr]]].
  exists answer. rewrite Hrun. unfold trace at 1 3. cbn [snd].
  split; [reflexivity |]. split; [apply auth_check_never_navigates; auto |].
  split; [apply apiRequest_console | split; assumption].
Qed.

Lemma validate_never_throws_witness :
  outcome (ApiSession.checkAuthStatus
             (Sample.env (Some "/orders") (Some (Fulfilled Sample.unauthorized))) tt)
  = inr (VObj [("authenticated", VBool false);
               ("error", VStr "Session expired. Please login again.")]).
Proof.
  destruct (validate_never_throws
              (Sample.env (Some "/orders") (Some (Fulfilled Sample.unauthorized))) tt)
    as [answer [Hrun [_ [_ [_ Herr]]]]].
  rewrite Hrun. unfold outcome. cbn [fst]. f_equal.
  exact (Herr session_expired eq_refl).
Defined.

(** X9: [logoutUser] never throws: it returns [true] exactly when the
    "/logout" request returned a value, and otherwise returns [false] after
    writing the error to the console. *)
Theorem logoutUser_reports {S} env (s : S) :
  exists done,
    outcome (ApiSession.logoutUser env s) = inr done
    /\ final (ApiSession.logoutUser env s) = s
    /\ (done = true
        <-> exists v,
              outcome (Api.apiRequest env "/logout" (Options.mk (Some "POST") None None) s)
              = inr v)
    /\ (done = true ->
        trace (ApiSession.logoutUser env s)
        = trace (Api.apiRequest env "/logout" (Options.mk (Some "POST") None None) s))
    /\ (forall e,
          outcome (Api.apiRequest env "/logout" (Options.mk (Some "POST") None None) s)
          = inl e ->
          trace (ApiSession.logoutUser env s)
          = (trace (Api.apiRequest env "/logout" (Options.mk (Some "POST") None None) s)
             ++ [EvConsoleError [LogStr "Logout error:"; LogErr e]])%list).
Proof.
  unfold ApiSession.logoutUser, try_catch. cbn.
  split_api_run. unfold outcome, final, trace. cbn.
  destruct (fst (fst (Api.apiRequest env "/logout" _ tt))) as [e|v]; cbn.
  - exists false. repeat split; try discriminate.
    + intros [v Hv]. discriminate.
    + intros e' [= <-]. reflexivity.
  - exists true. rewrite app_nil_r. repeat split; try discriminate; eauto.
Qed.

Lemma logoutUser_reports_witness :
  outcome (ApiSession.logoutUser
             (Sample.env (Some "/orders") (Some (Fulfilled Sample.bad_gateway))) tt)
  = inr false.
Proof.
  destruct (logoutUser_reports
              (Sample.env (Some "/orders") (Some (Fulfilled Sample.bad_gateway))) tt)
    as [done [Ho [_ [Hiff _]]]].
  rewrite Ho. f_equal. destruct done; [| reflexivity].
  destruct (proj1 Hiff eq_refl) as [v Hv]. discriminate Hv.
Defined.

(* ===================================================================== *)
(** ** More on the session store and the header *)
(* ===================================================================== *)

(** Every run of [checkAuthStatus] of the session store, in full. *)
Lemma checkAuthStatus_run env st :
  AuthContext.checkAuthStatus env st
  = match outcome (Api.apiRequest env "/me" Options.empty st) with
    | inr payload =>
        match get payload "customer_id" with
        | inr cid =>
            (inr tt,
             {| AuthContext.user := Some {| AuthContext.customer_id := cid |};
                AuthContext.loading := false |},
             trace (Api.apiRequest env "/me" Options.empty st))
        | inl e =>
            (inr tt,
             {| AuthContext.user := None; AuthContext.loading := false |},
             (trace (Api.apiRequest env "/me" Options.empty st)
              ++ [EvConsoleLog [LogStr "No valid session:"; LogStr (Error.message e)]])%list)
        end
    | inl e =>
        (inr tt,
         {| AuthContext.user := None; AuthContext.loading := false |},
         (trace (Api.apiRequest env "/me" Options.empty st)
          ++ [EvConsoleLog [LogStr "No valid session:"; LogStr (Error.message e)]])%list)
    end.
Proof.
  unfold AuthContext.checkAuthStatus, try_finally, try_catch, getM, of_result. cbn.
  split_api_run. unfold outcome, trace. cbn.
  destruct (fst (fst (Api.apiRequest env "/me" Options.empty tt))) as [e|payload]; cbn.
  - now rewrite ?app_nil_r.
  - destruct (get payload "customer_id") as [e|cid]; cbn; now rewrite ?app_nil_r.
Qed.

(** X10: once the "/me" request has returned a value, [checkAuthStatus] of
    the session store has returned normally, with [loading] false and without
    navigating or writing more than the request did.  It is then logged in
    exactly when the value is neither [null] nor [undefined], and
    [user.customer_id] is the [customer_id] of that value, [undefined] when
    the value has none; on [null] it logs the failed read and stays logged
    out. *)
Theorem checkAuthStatus_result env st payload :
  outcome (Api.apiRequest env "/me" Options.empty st) = inr payload ->
  outcome (AuthContext.checkAuthStatus env st) = inr tt
  /\ AuthContext.loading (final (AuthContext.checkAuthStatus env st)) = false
  /\ navigations (trace (AuthContext.checkAuthStatus env st)) = []
  /\ (AuthContext.isLoggedIn (final (AuthContext.checkAuthStatus env st)) = true
      <-> payload <> VNull /\ payload <> VUndefined)
  /\ (payload <> VNull -> payload <> VUndefined ->
      AuthContext.user (final (AuthContext.checkAuthStatus env st))
      = Some {| AuthContext.customer_id := field payload "customer_id" |}
      /\ trace (AuthContext.checkAuthStatus env st)
         = trace (Api.apiRequest env "/me" Options.empty st))
  /\ (payload = VNull \/ payload = VUndefined ->
      AuthContext.user (final (AuthContext.checkAuthStatus env st)) = None
      /\ exists text,
           trace (AuthContext.checkAuthStatus env st)
           = (trace (Api.apiRequest env "/me" Options.empty st)
              ++ [EvConsoleLog [LogStr "No valid session:"; LogStr text]])%list).
Proof.
  intros Hp. rewrite checkAuthStatus_run, Hp.
  pose proof (auth_check_never_navigates env "/me" Options.empty st (or_introl eq_refl))
    as Hnav.
  assert (Happ : forall l,
             navigations (trace (Api.apiRequest env "/me" Options.empty st)
                          ++ [EvConsoleLog l]) = []).
  { intros l. unfold navigations in *. now rewrite flat_map_app, Hnav. }
  destruct (nullish_dec payload) as [[-> | ->] | [Hn Hu]].
  - cbn. split; [reflexivity |]. split; [reflexivity |]. split; [apply Happ |].
    split; [split; [discriminate | intros [A _]; congruence] |].
    split; [intros A; congruence |].
    intros _. split; [reflexivity | eexists; reflexivity].
  - cbn. split; [reflexivity |]. split; [reflexivity |]. split; [apply Happ |].
    split; [split; [discriminate | intros [_ A]; congruence] |].
    split; [intros _ A; congruence |].
    intros _. split; [reflexivity | eexists; reflexivity].
  - rewrite (get_field _ _ Hn Hu). cbn.
    split; [reflexivity |]. split; [reflexivity |]. split; [exact Hnav |].
    split; [split; auto |].
    split; [intros _ _; split; reflexivity |].
    intros [A | A]; congruence.
Qed.

Lemma checkAuthStatus_result_witness :
  outcome (Api.apiRequest
             (Sample.env (Some "/orders")
                (Some (Fulfilled (Response.mk 200 "OK" (Some (VObj []))))))
             "/me" Options.empty AuthContext.initial) = inr (VObj [])
  /\ final (AuthContext.checkAuthStatus
              (Sample.env (Some "/orders")
                 (Some (Fulfilled (Response.mk 200 "OK" (Some (VObj []))))))
              AuthContext.initial)
     = {| AuthContext.user := Some {| AuthContext.customer_id := VUndefined |};
          AuthContext.loading := false |}.
Proof.
  split; [reflexivity |].
  destruct (checkAuthStatus_result
              (Sample.env (Some "/orders")
                 (Some (Fulfilled (Response.mk 200 "OK" (Some (VObj []))))))
              AuthContext.initial (VObj []) eq_refl) as [_ [Hl [_ [_ [Hu _]]]]].
  destruct (Hu ltac:(discriminate) ltac:(discriminate)) as [Hu' _].
  destruct (final _) as [u l]. cbn in *. now subst.
Defined.

(** X11: once [checkAuthStatus] has run, [AuthProvider] never shows the
    loading screen again: it renders its children, with a [token] that is
    "cookie-based" when there is a user and [null] when there is none, and
    with no other value ever. *)
Theorem provider_leaves_loading env st :
  exists user,
    AuthValue.AuthProvider (final (AuthContext.checkAuthStatus env st))
    = AuthValue.Provider user
        (match user with Some _ => true | None => false end)
        (match user with Some _ => Some "cookie-based" | None => None end)
        false.
Proof.
  rewrite checkAuthStatus_run.
  destruct (outcome (Api.apiRequest env "/me" Options.empty st)) as [e|payload].
  - exists None. reflexivity.
  - destruct (get payload "customer_id") as [e|cid].
    + exists None. reflexivity.
    + exists (Some {| AuthContext.customer_id := cid |}). reflexivity.
Qed.


Lemma logout_run env st :
  AuthContext.logout env st
  = (inr tt,
     {| AuthContext.user := None; AuthContext.loading := AuthContext.loading st |},
     (trace (Api.apiRequest env "/logout" (Options.mk (Some "POST") None None) st)
      ++ match outcome (Api.apiRequest env "/logout" (Options.mk (Some "POST") None None) st)
         with
         | inl e => [EvConsoleError [LogStr "Logout error:"; LogErr e]]
         | inr _ => []
         end)%list).
Proof.
  unfold AuthContext.logout, try_finally, try_catch. cbn.
  split_api_run. unfold outcome, trace. cbn.
  destruct (fst (fst (Api.apiRequest env "/logout"
                        (Options.mk (Some "POST") None None) tt))); cbn;
    now rewrite ?app_nil_r.
Qed.

Lemma handleLogout_run env st :
  Header.handleLogout env st
  = (inr tt,
     {| Header.auth :=
          {| AuthContext.user := None;
             AuthContext.loading := AuthContext.loading (Header.auth st) |};
        Header.pushed := (Header.pushed st ++ ["/login"])%list |},
     (trace (Api.apiRequest env "/logout" (Options.mk (Some "POST") None None)
               (Header.auth st))
      ++ match outcome (Api.apiRequest env "/logout" (Options.mk (Some "POST") None None)
                          (Header.auth st))
         with
         | inl e => [EvConsoleError [LogStr "Logout error:"; LogErr e]]
         | inr _ => []
         end)%list).
Proof.
  unfold Header.handleLogout, try_catch, Header.on_auth, Header.router_push. cbn.
  rewrite logout_run. cbn. now rewrite !app_nil_r.
Qed.

(** X13: once the "/logout" request has returned or thrown, [handleLogout]
    of the header has ended normally, with the store logged out and with
    exactly one more [router.push], to "/login".  A request that returned
    leaves nothing on the console; one that threw is reported by [logout]
    itself, once, as "Logout error:".  The catch branch of [handleLogout] is
    not taken: "Logout failed:" is never written. *)
Theorem handleLogout_leaves env st :
  (forall v,
      outcome (Api.apiRequest env "/logout" (Options.mk (Some "POST") None None)
                 (Header.auth st)) = inr v ->
      Header.handleLogout env st
      = (inr tt,
         {| Header.auth :=
              {| AuthContext.user := None;
                 AuthContext.loading := AuthContext.loading (Header.auth st) |};
            Header.pushed := (Header.pushed st ++ ["/login"])%list |},
         trace (Api.apiRequest env "/logout" (Options.mk (Some "POST") None None)
                  (Header.auth st)))
      /\ console (trace (Header.handleLogout env st)) = [])
  /\ (forall e,
        outcome (Api.apiRequest env "/logout" (Options.mk (Some "POST") None None)
                   (Header.auth st)) = inl e ->
        Header.handleLogout env st
        = (inr tt,
           {| Header.auth :=
                {| AuthContext.user := None;
                   AuthContext.loading := AuthContext.loading (Header.auth st) |};
              Header.pushed := (Header.pushed st ++ ["/login"])%list |},
           (trace (Api.apiRequest env "/logout" (Options.mk (Some "POST") None None)
                     (Header.auth st))
            ++ [EvConsoleError [LogStr "Logout error:"; LogErr e]])%list)
        /\ console (trace (Header.handleLogout env st))
           = [EvConsoleError [LogStr "Logout error:"; LogErr e]])
  /\ (forall e,
        ~ In (EvConsoleError [LogStr "Logout failed:"; LogErr e])
            (trace (Header.handleLogout env st))).
Proof.
  pose proof (apiRequest_console env "/logout" (Options.mk (Some "POST") None None)
                (Header.auth st)) as Hc.
  rewrite handleLogout_run.
  split; [| split].
  - intros v ->. rewrite app_nil_r. split; [reflexivity | exact Hc].
  - intros e ->. split; [reflexivity |].
    unfold trace at 1. cbn [snd]. unfold console in *. now rewrite filter_app, Hc.
  - intros e Hin. unfold trace at 1 in Hin. cbn [snd] in Hin.
    apply in_app_or in Hin. destruct Hin as [Hin | Hin].
    + assert (Hin' : In (EvConsoleError [LogStr "Logout failed:"; LogErr e])
                       (console (trace (Api.apiRequest env "/logout"
                                          (Options.mk (Some "POST") None None)
                                          (Header.auth st))))).
      { unfold console. apply filter_In. split; [exact Hin | reflexivity]. }
      rewrite Hc in Hin'. destruct Hin'.
    + destruct (outcome _); [destruct Hin as [[=] | []] | destruct Hin].
Qed.

Lemma handleLogout_leaves_witness :
  outcome (Api.apiRequest (Sample.env (Some "/orders") (Some (Fulfilled Sample.bad_gateway)))
             "/logout" (Options.mk (Some "POST") None None) Sample.signed_in)
  = inl (Error.mk "Error" "HTTP 502: Bad Gateway" (Some 502) (Some VNull))
  /\ final (Header.handleLogout
              (Sample.env (Some "/orders") (Some (Fulfilled Sample.bad_gateway)))
              {| Header.auth := Sample.signed_in; Header.pushed := ["/orders"] |})
     = {| Header.auth := {| AuthContext.user := None; AuthContext.loading := false |};
          Header.pushed := ["/orders"; "/login"] |}
  /\ console (trace (Header.handleLogout
                       (Sample.env (Some "/orders") (Some (Fulfilled Sample.bad_gateway)))
                       {| Header.auth := Sample.signed_in; Header.pushed := ["/orders"] |}))
     = [EvConsoleError
          [LogStr "Logout error:";
           LogErr (Error.mk "Error" "HTTP 502: Bad Gateway" (Some 502) (Some VNull))]].
Proof.
  split; [reflexivity |].
  destruct (proj1 (proj2 (handleLogout_leaves
                            (Sample.env (Some "/orders") (Some (Fulfilled Sample.bad_gateway)))
                            {| Header.auth := Sample.signed_in; Header.pushed := ["/orders"] |}))
              _ eq_refl) as [Hrun Hc].
  split; [now rewrite Hrun | exact Hc].
Defined.

(* ===================================================================== *)
(** ** More on the chat turn *)
(* ===================================================================== *)

Lemma sendMessage_blank env st :
  trim (Agent.input st) = "" -> Agent.sendMessage env st = (inr tt, st, []).
Proof. intros H. unfold Agent.sendMessage. cbn. now rewrite H. Qed.

Arguments Agent.sendMessage : simpl never.

Lemma conversation_cons env typed rest st :
  conversation ((env, typed) :: rest) st
  = match Agent.sendMessage env
            {| Agent.messages := Agent.messages st; Agent.input := typed;
               Agent.loading := Agent.loading st |} with
    | (inl e, s1, tr) => (inl e, s1, tr)
    | (inr _, s1, tr) =>
        match conversation rest s1 with
        | (r, s2, tr') => (r, s2, (tr ++ tr')%list)
        end
    end.
Proof.
  unfold conversation at 1. fold conversation. unfold type_and_send, Agent.setInput, modify.
  cbn.
  destruct (Agent.sendMessage env _) as [[[e|[]] s1] tr]; reflexivity.
Qed.

(** X14: a conversation, however its turns end, returns normally and only
    appends to the history: the messages that were there stay, in place; two
    messages are added for each submission that has text in it and none for
    the others; and the added messages go user, agent, user, agent. *)
Theorem conversation_history turns st :
  exists added,
    outcome (conversation turns st) = inr tt
    /\ Agent.messages (final (conversation turns st))
       = (Agent.messages st ++ added)%list
    /\ alternating (map Agent.sender added)
    /\ length added
       = (2 * length (filter (fun t => negb (trim (snd t) =? "")%string) turns))%nat.
Proof.
  revert st. induction turns as [|[env typed] rest IH]; intros st.
  - exists []. cbn. rewrite app_nil_r. repeat split.
  - rewrite conversation_cons.
    set (st1 := {| Agent.messages := Agent.messages st; Agent.input := typed;
                   Agent.loading := Agent.loading st |}).
    cbn [filter snd].
    destruct (String.eqb_spec (trim typed) "") as [Hb | Hb]; cbn [negb].
    + rewrite (sendMessage_blank env st1 Hb).
      destruct (IH st1) as [added [Ho [Hm [Ha Hl]]]].
      exists added. destruct (conversation rest st1) as [[r s2] tr'].
      unfold outcome, final in *. cbn in *. auto.
    + assert (Hin : ~ WhiteSpaceOnly (Agent.input st1)).
      { intros B. apply trim_empty_iff in B. exact (Hb B). }
      destruct (sendMessage_turn env st1 Hin) as [reply [log [Hrun [Hs _]]]].
      rewrite Hrun.
      match goal with
      | |- context [conversation rest ?s] => destruct (IH s) as [added [Ho [Hm [Ha Hl]]]];
                                              destruct (conversation rest s) as [[r s2] tr']
      end.
      exists (user_message st1 :: reply :: added).
      unfold outcome, final in *. cbn in *.
      split; [exact Ho |]. split; [rewrite Hm, <- app_assoc; reflexivity |].
      split; [auto |]. rewrite Hl. lia.
Qed.

(** X15: when the session has expired during a chat (the agent call gets a
    401) on a page other than "/login", the user's message and the apology
    are appended and the browser is sent once to the login page, with the
    chat page as the [redirect] parameter unless that page is "/". *)
Theorem expired_session_in_chat env st res p :
  ~ WhiteSpaceOnly (Agent.input st) ->
  awaited env "/agent/" (turn_options st) = inr res ->
  Response.status res = 401 ->
  window env = Some p -> p <> "/login" ->
  Agent.messages (final (Agent.sendMessage env st))
  = (Agent.messages st
     ++ [{| Agent.sender := "user"; Agent.text := VStr (trim (Agent.input st));
            Agent.orderSummary := None |};
         {| Agent.sender := "agent";
            Agent.text := VStr "Sorry, something went wrong. Please try again later.";
            Agent.orderSummary := None |}])%list
  /\ navigations (trace (Agent.sendMessage env st))
     = [if (p =? "/")%string then "/login"
        else "/login?redirect=" ++ encodeURIComponent p].
Proof.
  intros Hin Ha H401 Hw Hp.
  assert (Hcall : agent_call env st
                  = (inl session_expired, tt,
                     [request_sent env "/agent/" (turn_options st);
                      EvNavigate ("/login" ++ (if (p =? "/")%string then ""
                                               else "?redirect=" ++ encodeURIComponent p))])).
  { unfold agent_call. rewrite (apiRequest_401 _ _ _ _ _ Ha H401), Hw.
    apply String.eqb_neq in Hp. rewrite Hp. reflexivity. }
  rewrite (sendMessage_failed env st session_expired Hin)
    by (now rewrite Hcall).
  rewrite Hcall. unfold final, trace. cbn.
  split; [reflexivity |]. destruct (p =? "/")%string; reflexivity.
Qed.

Lemma expired_session_in_chat_witness :
  navigations
    (trace (Agent.sendMessage
              (Sample.env (Some "/agent") (Some (Fulfilled Sample.unauthorized)))
              (Sample.chat "hello")))
  = ["/login?redirect=%2Fagent"].
Proof.
  assert (H : ~ WhiteSpaceOnly (Agent.input (Sample.chat "hello"))).
  { intros B. apply trim_empty_iff in B. discriminate B. }
  exact (proj2 (expired_session_in_chat
                  (Sample.env (Some "/agent") (Some (Fulfilled Sample.unauthorized)))
                  (Sample.chat "hello") Sample.unauthorized "/agent"
                  H eq_refl eq_refl eq_refl ltac:(discriminate))).
Defined.

(* ===================================================================== *)
(** ** Links in user messages *)
(* ===================================================================== *)

Lemma drop_prefix_spec p s r : Links.drop_prefix p s = Some r <-> s = p ++ r.
Proof.
  revert s. induction p as [|a p IH]; intros s; simpl.
  - split; [intros [= ->]; reflexivity | intros ->; reflexivity].
  - destruct s as [|b s]; [split; discriminate |].
    destruct (Ascii.eqb_spec a b) as [-> | Hne].
    + rewrite IH. split; [intros ->; reflexivity | intros [= ->]; reflexivity].
    + split; [discriminate | intros [= -> _]; now elim Hne].
Qed.

Lemma url_at_spec s :
  Links.url_at s = true
  <-> exists r, (s = "http://" ++ r \/ s = "https://" ++ r) /\ Links.nonspace_at r = true.
Proof.
  unfold Links.url_at. rewrite orb_true_iff. split.
  - intros [H | H].
    + destruct (Links.drop_prefix "http://" s) as [r|] eqn:E; [| discriminate].
      apply drop_prefix_spec in E. eauto.
    + destruct (Links.drop_prefix "https://" s) as [r|] eqn:E; [| discriminate].
      apply drop_prefix_spec in E. eauto.
  - intros [r [[E | E] Hr]]; apply drop_prefix_spec in E; rewrite E; auto.
Qed.

Lemma url_at_head a t : Links.url_at (String a t) = true -> a = "h"%char.
Proof.
  intros H. apply url_at_spec in H. destruct H as [r [[E | E] _]]; now injection E.
Qed.

(** White space starts with one of a few bytes. *)
Lemma space_at_lead a t :
  Links.space_at (String a t) = true ->
  ws1 (N_of_ascii a) = true
  \/ In (N_of_ascii a) [194; 225; 226; 227; 239].
Proof.
  simpl. unfold ws2, ws3.
  destruct (ws1 (N_of_ascii a)); [auto |]. intros H. right. simpl.
  destruct (N.eqb_spec (N_of_ascii a) 194); [auto |].
  destruct (N.eqb_spec (N_of_ascii a) 225); [auto |].
  destruct (N.eqb_spec (N_of_ascii a) 226); [auto 6 |].
  destruct (N.eqb_spec (N_of_ascii a) 227); [auto 6 |].
  destruct (N.eqb_spec (N_of_ascii a) 239); [auto 6 |].
  exfalso. destruct t as [|b [|c t]]; simpl in H; discriminate.
Qed.

(** What follows a white-space code point does not matter. *)
Lemma space_at_app x y : Links.space_at x = true -> Links.space_at (x ++ y) = true.
Proof.
  destruct x as [|a [|b [|c x]]]; simpl; try discriminate.
  - rewrite orb_false_r. now intros ->.
  - rewrite orb_false_r. intros H. apply orb_true_iff in H. destruct H as [-> | ->].
    + reflexivity.
    + simpl. apply orb_true_r.
  - auto.
Qed.

(** Nor does an "h" after text that is not white space make it so. *)
Lemma space_at_app_h x z :
  x <> "" -> Links.space_at x = false -> Links.space_at (x ++ String "h" z) = false.
Proof.
  intros Hx. destruct x as [|a [|b [|c x]]]; [congruence | | |]; simpl.
  - rewrite orb_false_r. intros ->. unfold ws2, ws3. cbn.
    rewrite ?andb_false_r. cbn. destruct z; reflexivity.
  - rewrite orb_false_r. intros H. apply orb_false_iff in H. destruct H as [-> ->].
    unfold ws3. cbn. now rewrite ?andb_false_r.
  - auto.
Qed.

Lemma concat_cons x l : String.concat "" (x :: l) = x ++ String.concat "" l.
Proof.
  destruct l as [|y l]; simpl; [| reflexivity].
  induction x as [|a x IH]; simpl; [reflexivity | now rewrite <- IH].
Qed.

Lemma append_empty s : s ++ "" = s.
Proof. induction s as [|a s IH]; simpl; [reflexivity | now rewrite IH]. Qed.

Lemma append_assoc' (x y z : string) : (x ++ y) ++ z = x ++ (y ++ z).
Proof. induction x as [|a x IH]; simpl; [reflexivity | now rewrite IH]. Qed.

(** The parts, put together again, are the text. *)
Lemma split_from_concat in_url s :
  s = fst (Links.split_from in_url s) ++ String.concat "" (snd (Links.split_from in_url s)).
Proof.
  revert in_url. induction s as [|a t IH]; intros in_url.
  - destruct in_url; reflexivity.
  - cbn [Links.split_from]. destruct in_url.
    + destruct (Links.space_at (String a t)).
      * specialize (IH false). destruct (Links.split_from false t) as [p ps].
        cbn [fst snd] in *. rewrite concat_cons. cbn [append]. now rewrite <- IH.
      * specialize (IH true). destruct (Links.split_from true t) as [u ps].
        cbn [fst snd] in *. cbn [append]. now rewrite <- IH.
    + destruct (Links.url_at (String a t)).
      * specialize (IH true). destruct (Links.split_from true t) as [u ps].
        cbn [fst snd] in *. rewrite concat_cons. cbn [append]. now rewrite <- IH.
      * specialize (IH false). destruct (Links.split_from false t) as [p ps].
        cbn [fst snd] in *. cbn [append]. now rewrite <- IH.
Qed.

(** After a text part comes the end or a match, which starts with "h". *)
Lemma text_rest s :
  String.concat "" (snd (Links.split_from false s)) = ""
  \/ exists z, String.concat "" (snd (Links.split_from false s)) = String "h" z.
Proof.
  induction s as [|a t IH]; cbn [Links.split_from]; [simpl; auto |].
  destruct (Links.url_at (String a t)) eqn:Hu.
  - apply url_at_head in Hu. subst a.
    destruct (Links.split_from true t) as [u ps]. cbn [snd].
    rewrite concat_cons. cbn [append]. eauto.
  - destruct (Links.split_from false t) as [p ps]. exact IH.
Qed.

(** After a match comes the end or white space. *)
Lemma url_rest s :
  String.concat "" (snd (Links.split_from true s)) = ""
  \/ Links.space_at (String.concat "" (snd (Links.split_from true s))) = true.
Proof.
  induction s as [|a t IH]; cbn [Links.split_from]; [simpl; auto |].
  destruct (Links.space_at (String a t)) eqn:Hs.
  - right. pose proof (split_from_concat false t) as Hc.
    destruct (Links.split_from false t) as [p ps]. cbn [fst snd] in *.
    rewrite concat_cons. cbn [append]. now rewrite <- Hc.
  - destruct (Links.split_from true t) as [u ps]. exact IH.
Qed.

Lemma url_at_extend x y :
  Links.url_at x = true -> y = "" \/ (exists z, y = String "h" z) ->
  Links.url_at (x ++ y) = true.
Proof.
  intros Hx [-> | [z ->]]; [now rewrite append_empty |].
  apply url_at_spec in Hx. destruct Hx as [r [E Hr]].
  apply url_at_spec. exists (r ++ String "h" z). split.
  - destruct E as [-> | ->]; [left | right]; reflexivity.
  - destruct r as [|c r]; [discriminate |].
    unfold Links.nonspace_at in *. simpl append.
    apply negb_true_iff in Hr. apply negb_true_iff.
    change (String c (r ++ String "h" z)) with (String c r ++ String "h" z).
    apply space_at_app_h; [discriminate | exact Hr].
Qed.

Lemma plain_not_space a t :
  ws1 (N_of_ascii a) = false -> ~ In (N_of_ascii a) [194; 225; 226; 227; 239] ->
  Links.space_at (String a t) = false.
Proof.
  intros H1 H2. destruct (Links.space_at (String a t)) eqn:E; [| reflexivity].
  apply space_at_lead in E. destruct E as [E | E]; [congruence | contradiction].
Qed.

Ltac plain_char :=
  apply plain_not_space;
  [ reflexivity
  | simpl; intros H; repeat (destruct H as [H | H]; [discriminate H |]); destruct H ].

Ltac cut_short :=
  first
    [ congruence
    | match goal with
      | H : Links.space_at ?t = true |- _ =>
          assert (Links.space_at t = false) by plain_char; congruence
      end ].

(** A match cut off at the end, or just before white space, is a match. *)
Lemma url_at_cut x y :
  Links.url_at (x ++ y) = true -> y = "" \/ Links.space_at y = true ->
  Links.url_at x = true.
Proof.
  intros H [-> | Hy]; [now rewrite append_empty in H |].
  apply url_at_spec in H. destruct H as [r [E Hr]].
  destruct r as [|c r]; [discriminate |].
  unfold Links.nonspace_at in Hr. apply negb_true_iff in Hr.
  assert (Hcut : forall v, String c r = v ++ y -> v <> "").
  { intros v Ev ->. simpl in Ev. rewrite <- Ev in Hy. congruence. }
  assert (Hgood : forall v, String c r = v ++ y -> Links.nonspace_at v = true).
  { intros v Ev. pose proof (Hcut v Ev) as Hv.
    destruct v as [|d v]; [congruence |]. unfold Links.nonspace_at.
    apply negb_true_iff.
    destruct (Links.space_at (String d v)) eqn:Es; [| reflexivity].
    apply (space_at_app _ y) in Es. rewrite <- Ev in Es. congruence. }
  apply url_at_spec.
  destruct E as [E | E].
  - do 7 (destruct x as [|? x];
          [ exfalso; simpl in E; subst y; cut_short
          | simpl in E; injection E as -> E ]).
    exists x. split; [left; reflexivity | auto].
  - do 8 (destruct x as [|? x];
          [ exfalso; simpl in E; subst y; cut_short
          | simpl in E; injection E as -> E ]).
    exists x. split; [right; reflexivity | auto].
Qed.

Lemma h_not_space t : Links.space_at (String "h" t) = false.
Proof. plain_char. Qed.

(** What [split] returns: a text without URL, then matches and texts in
    turn, every match a whole URL and no URL in any text. *)
Lemma split_from_ok s :
  (Links.has_url (fst (Links.split_from false s)) = false
   /\ well_split (snd (Links.split_from false s)))
  /\ (spaceless (fst (Links.split_from true s)) = true
      /\ exists q rest,
           snd (Links.split_from true s) = q :: rest
           /\ Links.has_url q = false /\ well_split rest).
Proof.
  induction s as [|a t [[IHp IHps] [IHu [q [rest [IHq [IHhq IHrest]]]]]]].
  - split; [split; [reflexivity | exact I] |].
    split; [reflexivity |]. exists "", []. repeat split.
  - pose proof (split_from_concat false t) as Ctext.
    pose proof (split_from_concat true t) as Curl.
    pose proof (text_rest t) as Rtext.
    pose proof (url_rest t) as Rurl.
    cbn [Links.split_from]. split.
    + destruct (Links.url_at (String a t)) eqn:Hu.
      * destruct (Links.split_from true t) as [u ps]. cbn [fst snd] in *.
        subst ps. split; [reflexivity |].
        cbn [well_split]. repeat split; auto.
        -- apply (url_at_cut (String a u) (String.concat "" (q :: rest))); [| exact Rurl].
           change (Links.url_at (String a (u ++ String.concat "" (q :: rest))) = true).
           now rewrite <- Curl.
        -- cbn [spaceless]. rewrite IHu, andb_true_r.
           apply url_at_head in Hu. subst a. now rewrite h_not_space.
      * destruct (Links.split_from false t) as [p ps]. cbn [fst snd] in *.
        split; [| exact IHps].
        cbn [Links.has_url]. rewrite IHp.
        destruct (Links.url_at (String a p)) eqn:Hp; [| reflexivity].
        apply (url_at_extend _ (String.concat "" ps)) in Hp; [| exact Rtext].
        change (Links.url_at (String a (p ++ String.concat "" ps)) = true) in Hp.
        rewrite <- Ctext in Hp. congruence.
    + destruct (Links.space_at (String a t)) eqn:Hs.
      * destruct (Links.split_from false t) as [p ps]. cbn [fst snd] in *.
        split; [reflexivity |]. exists (String a p), ps.
        split; [reflexivity |]. split; [| exact IHps].
        cbn [Links.has_url]. rewrite IHp.
        destruct (Links.url_at (String a p)) eqn:Hp; [| reflexivity].
        apply url_at_head in Hp. subst a. rewrite h_not_space in Hs. discriminate.
      * destruct (Links.split_from true t) as [u ps]. cbn [fst snd] in *.
        split; [| eauto].
        cbn [spaceless]. rewrite IHu, andb_true_r.
        destruct (Links.space_at (String a u)) eqn:Hsu; [| reflexivity].
        apply (space_at_app _ (String.concat "" ps)) in Hsu.
        change (Links.space_at (String a (u ++ String.concat "" ps)) = true) in Hsu.
        rewrite <- Curl in Hsu. congruence.
Qed.

Lemma map_from_shown i l :
  map shown
    (Links.map_from i
       (fun part idx =>
          if Links.has_url part
          then Links.Anchor idx part "_blank" "noopener noreferrer" part
          else Links.Text part) l)
  = l.
Proof.
  revert i. induction l as [|x l IH]; intros i; simpl; [reflexivity |].
  rewrite IH. destruct (Links.has_url x); reflexivity.
Qed.

Lemma In_map_from {A B} (f : A -> nat -> B) i l y :
  In y (Links.map_from i f l) ->
  exists k x, nth_error l k = Some x /\ y = f x (i + k)%nat.
Proof.
  revert i. induction l as [|x l IH]; intros i; simpl; [intros [] |].
  intros [<- | H].
  - exists 0%nat, x. split; [reflexivity |]. now rewrite PeanoNat.Nat.add_0_r.
  - destruct (IH _ H) as [k [x' [Hk ->]]].
    exists (S k), x'. split; [exact Hk |]. f_equal. lia.
Qed.

Lemma well_split_url parts k x :
  well_split parts -> nth_error parts k = Some x -> Links.has_url x = true ->
  Links.url_at x = true /\ spaceless x = true /\ Nat.even k = true.
Proof.
  revert parts. induction k as [k IH] using (well_founded_induction Wf_nat.lt_wf).
  intros parts Hw Hk Hx.
  destruct parts as [|u [|q rest]]; cbn [well_split] in Hw; try contradiction.
  - destruct k; discriminate.
  - destruct Hw as [Hu [Hsu [Hq Hrest]]].
    destruct k as [|[|k]]; cbn [nth_error] in Hk.
    + injection Hk as <-. auto.
    + injection Hk as <-. congruence.
    + destruct (IH k ltac:(lia) rest Hrest Hk Hx) as [H1 [H2 H3]]. auto.
Qed.

(** X16: [renderMessageWithLinks] loses nothing and adds nothing: the
    strings of the nodes it returns, put together in order, are the text. *)
Theorem links_keep_the_text text :
  String.concat "" (map shown (Links.renderMessageWithLinks text)) = text.
Proof.
  unfold Links.renderMessageWithLinks. rewrite map_from_shown.
  unfold Links.split. pose proof (split_from_concat false text) as H.
  destruct (Links.split_from false text) as [p ps]. cbn [fst snd] in H.
  now rewrite concat_cons.
Qed.

(** X17: every link [renderMessageWithLinks] makes is a whole URL of the
    text and nothing more: its address is the part it shows, it starts with
    "http://" or "https://" followed by at least one more character, it has no
    white space in it, it opens in a new context without opener, and it
    stands at an odd position, its key, between two text parts. *)
Theorem links_are_urls text key href target rel child :
  In (Links.Anchor key href target rel child) (Links.renderMessageWithLinks text) ->
  child = href /\ target = "_blank" /\ rel = "noopener noreferrer"
  /\ (exists r, r <> "" /\ (href = "http://" ++ r \/ href = "https://" ++ r))
  /\ spaceless href = true
  /\ nth_error (Links.split text) key = Some href
  /\ Nat.odd key = true.
Proof.
  unfold Links.renderMessageWithLinks. intros H.
  apply In_map_from in H. destruct H as [k [x [Hk Hy]]]. simpl in Hy.
  destruct (Links.has_url x) eqn:Hx; [| discriminate].
  injection Hy as -> -> -> -> ->.
  split; [reflexivity |]. split; [reflexivity |]. split; [reflexivity |].
  unfold Links.split in *.
  pose proof (split_from_ok text) as [[Hp Hw] _].
  destruct (Links.split_from false text) as [p ps]. cbn [fst snd] in *.
  destruct k as [|k]; cbn [nth_error] in Hk; [injection Hk as <-; congruence |].
  destruct (well_split_url ps k x Hw Hk Hx) as [Hu [Hs He]].
  apply url_at_spec in Hu. destruct Hu as [r [E Hr]].
  split; [exists r; split; [intros ->; discriminate | exact E] |].
  split; [exact Hs |]. split; [exact Hk |].
  rewrite PeanoNat.Nat.odd_succ. exact He.
Qed.

Lemma links_are_urls_witness :
  In (Links.Anchor 1 "https://example.test/o/7" "_blank" "noopener noreferrer"
        "https://example.test/o/7")
    (Links.renderMessageWithLinks "see https://example.test/o/7 please")
  /\ spaceless "https://example.test/o/7" = true.
Proof.
  assert (H : In (Links.Anchor 1 "https://example.test/o/7" "_blank" "noopener noreferrer"
                    "https://example.test/o/7")
                (Links.renderMessageWithLinks "see https://example.test/o/7 please")).
  { right. left. reflexivity. }
  split; [exact H |].
  exact (proj1 (proj2 (proj2 (proj2 (proj2 (links_are_urls _ _ _ _ _ _ H)))))).
Defined.

Lemma split_plain in_url s :
  in_url = false -> Links.has_url s = false -> Links.split_from in_url s = (s, []).
Proof.
  intros ->. induction s as [|a t IH]; [reflexivity |].
  cbn [Links.has_url Links.split_from]. intros H.
  apply orb_false_iff in H. destruct H as [Hu Ht].
  rewrite Hu, (IH Ht). reflexivity.
Qed.

(** X18: a message in which no URL occurs is rendered as one text node, the
    message itself, whatever markup it holds; and a message in which one
    occurs gets at least one link. *)
Theorem links_only_for_urls text :
  (Links.has_url text = false ->
   Links.renderMessageWithLinks text = [Links.Text text])
  /\ (Links.has_url text = true ->
      exists key href,
        In (Links.Anchor key href "_blank" "noopener noreferrer" href)
          (Links.renderMessageWithLinks text)).
Proof.
  split.
  - intros H. unfold Links.renderMessageWithLinks, Links.split.
    rewrite (split_plain false text eq_refl H). simpl. now rewrite H.
  - intros H. unfold Links.renderMessageWithLinks, Links.split.
    pose proof (split_from_ok text) as [[Hp Hw] _].
    pose proof (split_from_concat false text) as Hc.
    destruct (Links.split_from false text) as [p ps]. cbn [fst snd] in *.
    destruct ps as [|u [|q rest]]; cbn [well_split] in Hw; try contradiction.
    + simpl in Hc. rewrite append_empty in Hc. congruence.
    + destruct Hw as [Hu _].
      assert (Hhu : Links.has_url u = true).
      { destruct u as [|c u]; [cbn in Hu; discriminate Hu |].
        cbn [Links.has_url]. now rewrite Hu. }
      exists 1%nat, u. simpl. rewrite Hhu. right. left. reflexivity.
Qed.

Lemma links_only_for_urls_witness :
  Links.renderMessageWithLinks "**bold** <b>x</b> [a](b)"
  = [Links.Text "**bold** <b>x</b> [a](b)"].
Proof.
  exact (proj1 (links_only_for_urls "**bold** <b>x</b> [a](b)") eq_refl).
Defined.

(* ===================================================================== *)
(** ** The orders pages *)
(* ===================================================================== *)

Lemma message_or_nonempty err fallback :
  fallback <> "" -> Orders.message_or err fallback <> "".
Proof.
  intros H. unfold Orders.message_or.
  destruct (String.eqb_spec (Error.message err) ""); assumption.
Qed.

(** Every run of [fetchOrders] of a logged-in render, in full. *)
Lemma fetchOrders_run env st p :
  Orders.isLoggedIn st = true ->
  Orders.fetchOrders env p st
  = (inr tt,
     match outcome (Api.apiRequest env
                      ("/orders/?page=" ++ Orders.decimalZ p ++ "&per_page=10")
                      Options.empty st) with
     | inr data =>
         match get data "orders" with
         | inr o =>
             {| Orders.isLoggedIn := true; Orders.orders := or_else o (VArr []);
                Orders.loading := false; Orders.error := "";
                Orders.search := Orders.search st; Orders.isSearching := false;
                Orders.page := p |}
         | inl e =>
             {| Orders.isLoggedIn := true; Orders.orders := Orders.orders st;
                Orders.loading := false;
                Orders.error := Orders.message_or e "Failed to fetch orders";
                Orders.search := Orders.search st; Orders.isSearching := false;
                Orders.page := Orders.page st |}
         end
     | inl e =>
         {| Orders.isLoggedIn := true; Orders.orders := Orders.orders st;
            Orders.loading := false;
            Orders.error := Orders.message_or e "Failed to fetch orders";
            Orders.search := Orders.search st; Orders.isSearching := false;
            Orders.page := Orders.page st |}
     end,
     trace (Api.apiRequest env
              ("/orders/?page=" ++ Orders.decimalZ p ++ "&per_page=10")
              Options.empty st)).
Proof.
  intros Hl. unfold Orders.fetchOrders, try_finally, try_catch, getM, of_result. cbn.
  rewrite Hl. cbn. split_api_run.
  rewrite (apiRequest_any_state env _ Options.empty st).
  change (Orders.decimalZ Orders.perPage) with "10".
  unfold outcome, trace. cbn.
  destruct (fst (fst (Api.apiRequest env _ Options.empty tt))) as [e|data]; cbn.
  - now rewrite Hl, !app_nil_r.
  - destruct (get data "orders") as [e|o]; cbn; now rewrite Hl, !app_nil_r.
Qed.

(** X19: logged out, [fetchOrders] does nothing at all.  Logged in, it
    sends one request, for the page asked for, ten to a page, and does not
    throw.  Once that request has returned a value other than [null], the
    error is cleared, the page is the one asked for and the list is the
    [orders] of the value, the empty list when that is missing or falsy.
    Once it has thrown, or returned [null], list and page are what they were
    and the error shown is the message of the failure, or "Failed to fetch
    orders" when that is empty: never the empty text.  In both cases
    [loading] and [isSearching] are false and the search text is
    untouched. *)
Theorem fetchOrders_keeps_in_step env st p :
  (Orders.isLoggedIn st = false -> Orders.fetchOrders env p st = (inr tt, st, []))
  /\ (Orders.isLoggedIn st = true ->
      (forall e, outcome (Orders.fetchOrders env p st) <> inl e)
      /\ fetches (trace (Orders.fetchOrders env p st))
         = [(NEXT_PUBLIC_API_URL env ++ "/orders/?page=" ++ Orders.decimalZ p
             ++ "&per_page=10",
             RequestInit.mk None [] None "include")]
      /\ (forall data,
            outcome (Api.apiRequest env
                       ("/orders/?page=" ++ Orders.decimalZ p ++ "&per_page=10")
                       Options.empty st) = inr data ->
            data <> VNull -> data <> VUndefined ->
            final (Orders.fetchOrders env p st)
            = {| Orders.isLoggedIn := true;
                 Orders.orders := if truthy (field data "orders")
                                  then field data "orders" else VArr [];
                 Orders.loading := false; Orders.error := "";
                 Orders.search := Orders.search st; Orders.isSearching := false;
                 Orders.page := p |})
      /\ (forall e,
            outcome (Api.apiRequest env
                       ("/orders/?page=" ++ Orders.decimalZ p ++ "&per_page=10")
                       Options.empty st) = inl e
            \/ (exists data,
                  outcome (Api.apiRequest env
                             ("/orders/?page=" ++ Orders.decimalZ p ++ "&per_page=10")
                             Options.empty st) = inr data
                  /\ get data "orders" = inl e) ->
            final (Orders.fetchOrders env p st)
            = {| Orders.isLoggedIn := true; Orders.orders := Orders.orders st;
                 Orders.loading := false;
                 Orders.error := if (Error.message e =? "")%string
                                 then "Failed to fetch orders" else Error.message e;
                 Orders.search := Orders.search st; Orders.isSearching := false;
                 Orders.page := Orders.page st |}
            /\ Orders.error (final (Orders.fetchOrders env p st)) <> "")
      /\ (forall data,
            data = VNull \/ data = VUndefined -> exists e, get data "orders" = inl e)).
Proof.
  split.
  - intros Hl. unfold Orders.fetchOrders. cbn. now rewrite Hl.
  - intros Hl. rewrite (fetchOrders_run env st p Hl).
    unfold outcome at 1, final, trace at 1. cbn [fst snd].
    split; [discriminate |].
    split; [apply apiRequest_fetches |].
    split; [| split].
    + intros data -> Hn Hu. now rewrite (get_field _ _ Hn Hu).
    + intros e [-> | [data [-> ->]]];
        (split; [reflexivity | now apply message_or_nonempty]).
    + intros data Hd. destruct (get_nullish data "orders" Hd) as [e [He _]]. eauto.
Qed.

Lemma fetchOrders_keeps_in_step_witness :
  Orders.isLoggedIn (sample_orders true "") = true
  /\ outcome (Api.apiRequest
                (Sample.env (Some "/orders")
                   (Some (Fulfilled
                            (Response.mk 200 "OK"
                               (Some (VObj [("orders", VArr [VStr "SO7"; VStr "SO8"])]))))))
                "/orders/?page=3&per_page=10" Options.empty (sample_orders true ""))
     = inr (VObj [("orders", VArr [VStr "SO7"; VStr "SO8"])])
  /\ final (Orders.fetchOrders
              (Sample.env (Some "/orders")
                 (Some (Fulfilled
                          (Response.mk 200 "OK"
                             (Some (VObj [("orders", VArr [VStr "SO7"; VStr "SO8"])]))))))
              3 (sample_orders true ""))
     = {| Orders.isLoggedIn := true; Orders.orders := VArr [VStr "SO7"; VStr "SO8"];
          Orders.loading := false; Orders.error := ""; Orders.search := "";
          Orders.isSearching := false; Orders.page := 3 |}.
Proof.
  split; [reflexivity | split; [reflexivity |]].
  exact (proj1 (proj2 (proj2 (proj2 (fetchOrders_keeps_in_step
           (Sample.env (Some "/orders")
              (Some (Fulfilled
                       (Response.mk 200 "OK"
                          (Some (VObj [("orders", VArr [VStr "SO7"; VStr "SO8"])]))))))
           (sample_orders true "") 3) eq_refl)))
           (VObj [("orders", VArr [VStr "SO7"; VStr "SO8"])]) eq_refl
           ltac:(discriminate) ltac:(discriminate)).
Defined.

Lemma fetches_api_run env endpoint options :
  fetches (trace (Api.apiRequest env endpoint options tt))
  = [(NEXT_PUBLIC_API_URL env ++ endpoint, Api.fetchOptions options)].
Proof. apply apiRequest_fetches. Qed.

(** What the page invariant needs of [fetchOrders]. *)
Lemma fetchOrders_summary env st p :
  outcome (Orders.fetchOrders env p st) = inr tt
  /\ (Orders.page (final (Orders.fetchOrders env p st)) = p
      \/ Orders.page (final (Orders.fetchOrders env p st)) = Orders.page st)
  /\ fetches (trace (Orders.fetchOrders env p st))
     = if Orders.isLoggedIn st
       then [(NEXT_PUBLIC_API_URL env
              ++ "/orders/?page=" ++ Orders.decimalZ p ++ "&per_page=10",
              RequestInit.mk None [] None "include")]
       else [].
Proof.
  unfold Orders.fetchOrders, try_finally, try_catch, getM, of_result. cbn.
  destruct (Orders.isLoggedIn st) eqn:Hl; cbn; [| auto].
  split_api_run. change (Orders.decimalZ Orders.perPage) with "10".
  pose proof (fetches_api_run env
                ("/orders/?page=" ++ Orders.decimalZ p ++ "&per_page=10") Options.empty)
    as Hf.
  unfold outcome, final, trace in *. cbn.
  destruct (fst (fst (Api.apiRequest env _ Options.empty tt))) as [e|data]; cbn.
  - rewrite !app_nil_r. auto.
  - destruct (get data "orders") as [e|o]; cbn; rewrite !app_nil_r; auto.
Qed.

Arguments Orders.fetchOrders : simpl never.

Lemma run_eta {A B C} (r : A * B * C) :
  (let (p, tr) := r in let (a, b) := p in (a, b, tr)) = r.
Proof. destruct r as [[a b] c]. reflexivity. Qed.

Lemma handleSearch_summary env st :
  outcome (Orders.handleSearch env st) = inr tt
  /\ (Orders.page (final (Orders.handleSearch env st)) = 1%Z
      \/ Orders.page (final (Orders.handleSearch env st)) = Orders.page st)
  /\ forall url init,
       In (url, init) (fetches (trace (Orders.handleSearch env st))) ->
       init = RequestInit.mk None [] None "include"
       /\ (url = NEXT_PUBLIC_API_URL env ++ "/orders/?page=1&per_page=10"
           \/ url = NEXT_PUBLIC_API_URL env
                    ++ "/orders/?tranid="
                    ++ encodeURIComponent (Orders.soSearch (Orders.search st))
                    ++ "&page=1&per_page=10").
Proof.
  unfold Orders.handleSearch. cbn.
  destruct (toUpperCase (trim (Orders.search st)) =? "")%string.
  - rewrite run_eta. destruct (fetchOrders_summary env st 1) as [Ho [Hp Hf]].
    split; [exact Ho |]. split; [exact Hp |].
    intros url init Hin. rewrite Hf in Hin.
    destruct (Orders.isLoggedIn st); [| destruct Hin].
    destruct Hin as [[= <- <-] | []]. auto.
  - unfold try_finally, try_catch, getM, of_result. cbn.
    split_api_run. change (Orders.decimalZ Orders.perPage) with "10".
    pose proof (fetches_api_run env
                  ("/orders/?tranid="
                   ++ encodeURIComponent (Orders.soSearch (Orders.search st))
                   ++ "&page=1&per_page=10") Options.empty) as Hf.
    unfold outcome, final, trace in *. cbn -[fetches] in Hf. cbn -[fetches].
    assert (Hin : forall url init,
              In (url, init)
                [(NEXT_PUBLIC_API_URL env
                  ++ "/orders/?tranid="
                  ++ encodeURIComponent (Orders.soSearch (Orders.search st))
                  ++ "&page=1&per_page=10", Api.fetchOptions Options.empty)] ->
              init = RequestInit.mk None [] None "include"
              /\ (url = NEXT_PUBLIC_API_URL env ++ "/orders/?page=1&per_page=10"
                  \/ url = NEXT_PUBLIC_API_URL env
                           ++ "/orders/?tranid="
                           ++ encodeURIComponent (Orders.soSearch (Orders.search st))
                           ++ "&page=1&per_page=10")).
    { intros url init [[= <- <-] | []]. auto. }
    destruct (fst (fst (Api.apiRequest env _ Options.empty tt))) as [e|data];
      cbn -[fetches].
    + rewrite !app_nil_r, Hf. auto.
    + destruct (get data "orders") as [e|o]; cbn -[fetches];
        rewrite !app_nil_r, Hf; auto.
Qed.

Arguments Orders.handleSearch : simpl never.

(** X20: on the orders page the page number never drops below 1, and no
    page below 1 is ever asked for: from a state with a page of 1 or more,
    any of the user's actions (Previous only where its button is enabled)
    returns normally with a page of 1 or more, and every request it sends is
    for a page of 1 or more of the list, or for page 1 of a search whose term
    is URI-encoded. *)
Theorem orders_page_stays_positive env st a :
  (1 <= Orders.page st)%Z ->
  orders_enabled st a = true ->
  outcome (orders_act env a st) = inr tt
  /\ (1 <= Orders.page (final (orders_act env a st)))%Z
  /\ forall url init,
       In (url, init) (fetches (trace (orders_act env a st))) ->
       init = RequestInit.mk None [] None "include"
       /\ ((exists n, (1 <= n)%Z
                      /\ url = NEXT_PUBLIC_API_URL env
                               ++ "/orders/?page=" ++ Orders.decimalZ n ++ "&per_page=10")
           \/ (exists q, url = NEXT_PUBLIC_API_URL env
                               ++ "/orders/?tranid=" ++ q ++ "&page=1&per_page=10"
                         /\ Forall (fun c => uri_safe c = true) (list_ascii_of_string q))).
Proof.
  intros Hp He.
  assert (Hlist : forall s n, (1 <= n)%Z -> (1 <= Orders.page s)%Z ->
            outcome (Orders.fetchOrders env n s) = inr tt
            /\ (1 <= Orders.page (final (Orders.fetchOrders env n s)))%Z
            /\ forall url init,
                 In (url, init) (fetches (trace (Orders.fetchOrders env n s))) ->
                 init = RequestInit.mk None [] None "include"
                 /\ ((exists n, (1 <= n)%Z
                        /\ url = NEXT_PUBLIC_API_URL env
                                 ++ "/orders/?page=" ++ Orders.decimalZ n ++ "&per_page=10")
                     \/ (exists q, url = NEXT_PUBLIC_API_URL env
                                         ++ "/orders/?tranid=" ++ q ++ "&page=1&per_page=10"
                           /\ Forall (fun c => uri_safe c = true)
                                (list_ascii_of_string q)))).
  { intros s n Hn Hs. destruct (fetchOrders_summary env s n) as [Ho [Hpg Hf]].
    split; [exact Ho |]. split; [destruct Hpg as [-> | ->]; assumption |].
    intros url init Hin. rewrite Hf in Hin.
    destruct (Orders.isLoggedIn s); [| destruct Hin].
    destruct Hin as [[= <- <-] | []]. split; [reflexivity |]. left. eauto. }
  assert (Hsearch : forall s, (1 <= Orders.page s)%Z ->
            outcome (Orders.handleSearch env s) = inr tt
            /\ (1 <= Orders.page (final (Orders.handleSearch env s)))%Z
            /\ forall url init,
                 In (url, init) (fetches (trace (Orders.handleSearch env s))) ->
                 init = RequestInit.mk None [] None "include"
                 /\ ((exists n, (1 <= n)%Z
                        /\ url = NEXT_PUBLIC_API_URL env
                                 ++ "/orders/?page=" ++ Orders.decimalZ n ++ "&per_page=10")
                     \/ (exists q, url = NEXT_PUBLIC_API_URL env
                                         ++ "/orders/?tranid=" ++ q ++ "&page=1&per_page=10"
                           /\ Forall (fun c => uri_safe c = true)
                                (list_ascii_of_string q)))).
  { intros s Hs. destruct (handleSearch_summary env s) as [Ho [Hpg Hf]].
    split; [exact Ho |]. split; [destruct Hpg as [-> | ->]; [lia | assumption] |].
    intros url init Hin. destruct (Hf url init Hin) as [Hi [-> | ->]].
    - split; [exact Hi |]. left. exists 1%Z. split; [lia | reflexivity].
    - split; [exact Hi |]. right. eexists. split; [reflexivity |].
      apply encodeURIComponent_safe. }
  destruct a; cbn [orders_act].
  - apply Hlist; [lia | exact Hp].
  - unfold Orders.previous. cbn.
    unfold orders_enabled, Orders.previous_disabled in He.
    apply negb_true_iff, Z.eqb_neq in He.
    specialize (Hlist st (Orders.page st - 1)%Z ltac:(lia) Hp).
    destruct (Orders.fetchOrders env (Orders.page st - 1) st) as [[[e|[]] s1] tr];
      unfold outcome, final, trace in *; cbn in *; exact Hlist.
  - unfold Orders.next. cbn.
    specialize (Hlist st (Orders.page st + 1)%Z ltac:(lia) Hp).
    destruct (Orders.fetchOrders env (Orders.page st + 1) st) as [[[e|[]] s1] tr];
      unfold outcome, final, trace in *; cbn in *; exact Hlist.
  - unfold Orders.setSearch, modify. cbn.
    match goal with
    | |- context [Orders.handleSearch env ?s] =>
        specialize (Hsearch s Hp);
        destruct (Orders.handleSearch env s) as [[[e|[]] s1] tr]
    end; unfold outcome, final, trace in *; cbn in *; exact Hsearch.
  - unfold Orders.clearSearch, Orders.setSearch, modify. cbn.
    match goal with
    | |- context [Orders.fetchOrders env 1 ?s] =>
        specialize (Hlist s 1%Z ltac:(lia) Hp);
        destruct (Orders.fetchOrders env 1 s) as [[[e|[]] s1] tr]
    end; unfold outcome, final, trace in *; cbn in *; exact Hlist.
Qed.

Lemma orders_page_stays_positive_witness :
  (1 <= Orders.page (sample_orders true ""))%Z
  /\ orders_enabled (sample_orders true "") Previous = true
  /\ (1 <= Orders.page
             (final (orders_act
                       (Sample.env (Some "/orders") (Some (Fulfilled Sample.bad_gateway)))
                       Previous (sample_orders true ""))))%Z.
Proof.
  assert (H : (1 <= Orders.page (sample_orders true ""))%Z) by (simpl; lia).
  split; [exact H | split; [reflexivity |]].
  exact (proj1 (proj2 (orders_page_stays_positive
                         (Sample.env (Some "/orders") (Some (Fulfilled Sample.bad_gateway)))
                         (sample_orders true "") Previous H eq_refl))).
Defined.

Lemma of_bytes_bytes s : of_bytes (bytes s) = s.
Proof.
  unfold of_bytes, bytes. rewrite map_map.
  rewrite (map_ext _ (fun a => a)) by (intros a; apply ascii_N_embedding).
  rewrite map_id. apply string_of_list_ascii_of_string.
Qed.

Lemma bytes_app x y : bytes (x ++ y) = (bytes x ++ bytes y)%list.
Proof.
  unfold bytes. induction x as [|a x IH]; simpl; [reflexivity |]. now rewrite IH.
Qed.

Lemma strip_plain_head fwd a l :
  a < 128 -> ws1 a = false -> strip fwd (a :: l) = a :: l.
Proof.
  intros Ha H1. cbn [strip]. rewrite H1.
  destruct l as [|b [|c l]]; [reflexivity | |].
  - assert (H2 : (if fwd then ws2 a b else ws2 b a) = false).
    { destruct fwd; unfold ws2; apply andb_false_iff; rewrite !N.eqb_neq; lia. }
    now rewrite H2.
  - assert (H2 : (if fwd then ws2 a b else ws2 b a) = false).
    { destruct fwd; unfold ws2; apply andb_false_iff; rewrite !N.eqb_neq; lia. }
    assert (H3 : (if fwd then ws3 a b c else ws3 c b a) = false).
    { destruct (if fwd then ws3 a b c else ws3 c b a) eqn:E; [exfalso | reflexivity].
      destruct fwd; unfold ws3 in E;
        repeat rewrite ?andb_true_iff, ?orb_true_iff, ?N.eqb_eq, ?N.leb_le in E; lia. }
    now rewrite H2, H3.
Qed.

Lemma plain_byte a : plain a = true -> N_of_ascii a < 128 /\ ws1 (N_of_ascii a) = false.
Proof.
  unfold plain. intros H. apply andb_true_iff in H. destruct H as [H1 H2].
  apply N.ltb_lt in H1. apply negb_true_iff in H2. auto.
Qed.

Lemma trimStart_plain a t : plain a = true -> trimStart (String a t) = String a t.
Proof.
  intros H. apply plain_byte in H. destruct H as [H1 H2].
  unfold trimStart. change (bytes (String a t)) with (N_of_ascii a :: bytes t).
  rewrite strip_plain_head by assumption.
  change (N_of_ascii a :: bytes t) with (bytes (String a t)). apply of_bytes_bytes.
Qed.

Lemma rev_bytes_last s z :
  last_char s = Some z -> exists l, rev (bytes s) = N_of_ascii z :: l.
Proof.
  induction s as [|a [|b t] IH]; [discriminate | |].
  - intros [= ->]. exists []. reflexivity.
  - intros H. destruct (IH H) as [l Hl].
    change (bytes (String a (String b t))) with (N_of_ascii a :: bytes (String b t)).
    cbn [rev]. rewrite Hl. eexists. reflexivity.
Qed.

Lemma trimEnd_plain s z : last_char s = Some z -> plain z = true -> trimEnd s = s.
Proof.
  intros Hl Hz. apply plain_byte in Hz. destruct Hz as [H1 H2].
  destruct (rev_bytes_last s z Hl) as [l E].
  unfold trimEnd. rewrite E, strip_plain_head by assumption.
  rewrite <- E, rev_involutive. apply of_bytes_bytes.
Qed.

Lemma trimStart_space s : trimStart (String " " s) = trimStart s.
Proof. reflexivity. Qed.

Lemma trimEnd_space s : trimEnd (s ++ " ") = trimEnd s.
Proof.
  unfold trimEnd. rewrite bytes_app, rev_app_distr. reflexivity.
Qed.

Lemma digit_plain a : Orders.isDigit a = true -> plain a = true.
Proof.
  unfold Orders.isDigit, plain, ws1. intros H.
  apply andb_true_iff in H. rewrite !N.leb_le in H.
  apply andb_true_iff. split; [apply N.ltb_lt; lia |].
  apply negb_true_iff, orb_false_iff. split.
  - apply andb_false_iff. right. apply N.leb_gt. lia.
  - apply N.eqb_neq. lia.
Qed.

Lemma digits_last d :
  Orders.allDigits d = true -> d <> "" ->
  exists z, last_char d = Some z /\ Orders.isDigit z = true.
Proof.
  induction d as [|a [|b t] IH]; [congruence | |]; intros H _.
  - simpl in H. rewrite andb_true_r in H. exists a. split; [reflexivity | exact H].
  - cbn [Orders.allDigits] in H. apply andb_true_iff in H. destruct H as [_ H].
    destruct (IH H ltac:(discriminate)) as [z [Hz Hd]]. exists z. split; [exact Hz | exact Hd].
Qed.

Lemma toUpperCase_digits d : Orders.allDigits d = true -> toUpperCase d = d.
Proof.
  induction d as [|a d IH]; [reflexivity |]. cbn [Orders.allDigits toUpperCase].
  intros H. apply andb_true_iff in H. destruct H as [Ha Hd]. rewrite (IH Hd). f_equal.
  unfold upper, Orders.isDigit in *. apply andb_true_iff in Ha. rewrite !N.leb_le in Ha.
  destruct (N.leb_spec 97 (N_of_ascii a)); [lia | reflexivity].
Qed.

Lemma encodeURIComponent_digits d :
  Orders.allDigits d = true -> encodeURIComponent d = d.
Proof.
  induction d as [|a d IH]; [reflexivity |]. cbn [Orders.allDigits encodeURIComponent].
  intros H. apply andb_true_iff in H. destruct H as [Ha Hd]. rewrite (IH Hd).
  assert (Hu : uriUnreserved a = true).
  { unfold uriUnreserved. unfold Orders.isDigit in Ha. rewrite Ha.
    now rewrite orb_true_r. }
  now rewrite Hu.
Qed.

Lemma digits_not_SO d :
  Orders.allDigits d = true -> d <> "" -> String.prefix "SO" d = false.
Proof.
  destruct d as [|a d]; [congruence |]. cbn [Orders.allDigits]. intros H _.
  apply andb_true_iff in H. destruct H as [Ha _]. cbn [String.prefix].
  destruct (ascii_dec "S" a) as [<- | _]; [discriminate Ha | reflexivity].
Qed.

(** A blank prefix is stripped whatever follows it. *)
Lemma strip_Blank_app fwd pre l : Blank fwd pre -> strip fwd (pre ++ l) = strip fwd l.
Proof.
  induction 1 as [|a pre Ha _ IH|a b pre Hab _ IH|a b c pre Habc _ IH]; cbn [app strip].
  - reflexivity.
  - now rewrite Ha.
  - now rewrite (ws2_not_ws1 _ _ _ Hab), Hab.
  - now rewrite (ws3_not_ws1 _ _ _ _ Habc), (ws3_not_ws2 _ _ _ _ Habc), Habc.
Qed.

Lemma WhiteSpaceOnly_Blank s : WhiteSpaceOnly s -> Blank true (bytes s).
Proof. intros H. now apply Blank_code_points. Qed.

(** [trim] gives back a text that starts and ends with a character that is
    no white space, whatever white space stands around it. *)
Lemma trim_between before after a t z :
  WhiteSpaceOnly before -> WhiteSpaceOnly after ->
  plain a = true -> last_char (String a t) = Some z -> plain z = true ->
  trim (before ++ String a t ++ after) = String a t.
Proof.
  intros Hb Ha Hp Hl Hz.
  apply WhiteSpaceOnly_Blank in Hb. apply WhiteSpaceOnly_Blank in Ha.
  apply plain_byte in Hp. destruct Hp as [Hp1 Hp2].
  apply plain_byte in Hz. destruct Hz as [Hz1 Hz2].
  destruct (rev_bytes_last _ z Hl) as [l E].
  unfold trim, trimStart, trimEnd.
  rewrite bytes_app, (strip_Blank_app true _ _ Hb).
  change (bytes (String a t ++ after)) with (N_of_ascii a :: bytes (t ++ after)).
  rewrite strip_plain_head by assumption.
  change (N_of_ascii a :: bytes (t ++ after)) with (bytes (String a t ++ after)).
  rewrite of_bytes_bytes, bytes_app, rev_app_distr.
  rewrite (strip_Blank_app false _ _ (Blank_rev true _ Ha)).
  rewrite E, strip_plain_head by assumption.
  rewrite <- E, rev_involutive. apply of_bytes_bytes.
Qed.

Lemma last_char_app x y z : last_char y = Some z -> last_char (x ++ y) = Some z.
Proof.
  intros H. induction x as [|a x IH]; [exact H |].
  cbn [append last_char]. rewrite IH.
  destruct (x ++ y) eqn:E; [| reflexivity].
  destruct x; [cbn in E; subst y; discriminate H | discriminate E].
Qed.

(** The term the search sends for a number, typed with or without the
    letters in front, in either case, and with any white space around it. *)
Lemma soSearch_number d typed before after letters :
  Orders.allDigits d = true -> d <> "" ->
  WhiteSpaceOnly before -> WhiteSpaceOnly after ->
  In letters [""; "SO"; "So"; "sO"; "so"] ->
  typed = before ++ (letters ++ d) ++ after ->
  toUpperCase (trim typed) <> "" /\ Orders.soSearch typed = "SO" ++ d.
Proof.
  intros Hd Hne Hb Ha Hin ->.
  destruct (digits_last d Hd Hne) as [z [Hz Hzd]].
  pose proof (digit_plain z Hzd) as Hzp.
  assert (Hfirst : exists a t, d = String a t /\ plain a = true).
  { destruct d as [|a t]; [congruence |]. exists a, t. split; [reflexivity |].
    cbn [Orders.allDigits] in Hd. apply andb_true_iff in Hd. now apply digit_plain. }
  destruct Hfirst as [a [t [Ed Hp]]].
  assert (Htrim : trim (before ++ (letters ++ d) ++ after) = letters ++ d).
  { simpl in Hin. destruct Hin as [<- | [<- | [<- | [<- | [<- | []]]]]].
    - cbn [append]. rewrite Ed. apply (trim_between _ _ a t z); auto.
      now rewrite <- Ed.
    - apply (trim_between _ _ "S" _ z); auto.
      apply (last_char_app "SO"). exact Hz.
    - apply (trim_between _ _ "S" _ z); auto.
      apply (last_char_app "So"). exact Hz.
    - apply (trim_between _ _ "s" _ z); auto.
      apply (last_char_app "sO"). exact Hz.
    - apply (trim_between _ _ "s" _ z); auto.
      apply (last_char_app "so"). exact Hz. }
  unfold Orders.soSearch. rewrite Htrim.
  simpl in Hin. destruct Hin as [<- | [<- | [<- | [<- | [<- | []]]]]];
    cbn [append toUpperCase]; rewrite (toUpperCase_digits d Hd).
  - split; [exact Hne |].
    rewrite (digits_not_SO d Hd Hne). cbn [negb].
    rewrite Ed. cbn [Orders.onlyDigits]. rewrite <- Ed. now rewrite Hd.
  - split; [discriminate |].
    assert (Hpre : String.prefix "SO" (String (upper "S") (String (upper "O") d)) = true)
      by (rewrite Ed; reflexivity).
    rewrite Hpre. reflexivity.
  - split; [discriminate |].
    assert (Hpre : String.prefix "SO" (String (upper "S") (String (upper "o") d)) = true)
      by (rewrite Ed; reflexivity).
    rewrite Hpre. reflexivity.
  - split; [discriminate |].
    assert (Hpre : String.prefix "SO" (String (upper "s") (String (upper "O") d)) = true)
      by (rewrite Ed; reflexivity).
    rewrite Hpre. reflexivity.
  - split; [discriminate |].
    assert (Hpre : String.prefix "SO" (String (upper "s") (String (upper "o") d)) = true)
      by (rewrite Ed; reflexivity).
    rewrite Hpre. reflexivity.
Qed.

Lemma handleSearch_request env st :
  toUpperCase (trim (Orders.search st)) <> "" ->
  fetches (trace (Orders.handleSearch env st))
  = [(NEXT_PUBLIC_API_URL env
      ++ "/orders/?tranid=" ++ encodeURIComponent (Orders.soSearch (Orders.search st))
      ++ "&page=1&per_page=10",
      RequestInit.mk None [] None "include")].
Proof.
  intros H. apply String.eqb_neq in H.
  unfold Orders.handleSearch. cbn. rewrite H.
  unfold try_finally, try_catch, getM, of_result. cbn.
  split_api_run. change (Orders.decimalZ Orders.perPage) with "10".
  pose proof (fetches_api_run env
                ("/orders/?tranid="
                 ++ encodeURIComponent (Orders.soSearch (Orders.search st))
                 ++ "&page=1&per_page=10") Options.empty) as Hf.
  unfold outcome, final, trace in *. cbn -[fetches] in Hf. cbn -[fetches].
  destruct (fst (fst (Api.apiRequest env _ Options.empty tt))) as [e|data];
    cbn -[fetches].
  - rewrite !app_nil_r, Hf. reflexivity.
  - destruct (get data "orders") as [e|o]; cbn -[fetches];
      rewrite !app_nil_r, Hf; reflexivity.
Qed.

(** X21: a sales-order number can be searched for as its digits alone or
    with the letters "SO" in front, in capitals or not, and with any white
    space before and after it (spaces, tabs, line ends, no-break and other
    Unicode spaces): each of these sends the same one request, for
    [tranid=SO<digits>] on page 1. *)
Theorem search_number_forms env st d before after letters :
  Orders.allDigits d = true -> d <> "" ->
  WhiteSpaceOnly before -> WhiteSpaceOnly after ->
  In letters [""; "SO"; "So"; "sO"; "so"] ->
  Orders.search st = before ++ (letters ++ d) ++ after ->
  fetches (trace (Orders.handleSearch env st))
  = [(NEXT_PUBLIC_API_URL env ++ "/orders/?tranid=SO" ++ d ++ "&page=1&per_page=10",
      RequestInit.mk None [] None "include")].
Proof.
  intros Hd Hne Hb Ha Hin Hs.
  destruct (soSearch_number d (Orders.search st) before after letters Hd Hne Hb Ha Hin Hs)
    as [Ht Hso].
  rewrite (handleSearch_request env st Ht), Hso.
  change (encodeURIComponent ("SO" ++ d)) with ("SO" ++ encodeURIComponent d).
  now rewrite (encodeURIComponent_digits d Hd).
Qed.

(** A tab and a no-break space in front, an ideographic space and a line end
    behind. *)
Lemma search_number_forms_witness :
  WhiteSpaceOnly (String "009" (String "194" (String "160" "")))
  /\ WhiteSpaceOnly (String "227" (String "128" (String "128" (String "010" ""))))
  /\ fetches (trace (Orders.handleSearch
                       (Sample.env (Some "/orders") (Some (Fulfilled Sample.not_found)))
                       (sample_orders true
                          (String "009" (String "194" (String "160" ""))
                           ++ ("so" ++ "12345")
                           ++ String "227" (String "128" (String "128" (String "010" "")))))))
     = [("https://api.example.test/orders/?tranid=SO12345&page=1&per_page=10",
         RequestInit.mk None [] None "include")].
Proof.
  assert (Hb : WhiteSpaceOnly (String "009" (String "194" (String "160" ""))))
    by (apply trim_empty_iff; reflexivity).
  assert (Ha : WhiteSpaceOnly (String "227" (String "128" (String "128" (String "010" "")))))
    by (apply trim_empty_iff; reflexivity).
  split; [exact Hb | split; [exact Ha |]].
  apply (search_number_forms
           (Sample.env (Some "/orders") (Some (Fulfilled Sample.not_found)))
           _ "12345" _ _ "so" eq_refl ltac:(discriminate) Hb Ha).
  - simpl. tauto.
  - reflexivity.
Defined.

(** X22: the list page and the detail page sort every status the same way:
    for a string or a falsy value both return a class, and the two classes
    name the same one of six kinds; for any other value both throw the same
    error. *)
Theorem status_classes_agree status :
  (exists a b,
      Orders.getStatusClassName status = inr a
      /\ OrderDetail.getStatusClassName status = inr b
      /\ In (a, b)
           [("status-shipped", "statusShipped"); ("status-pending", "statusPending");
            ("status-completed", "statusCompleted"); ("status-partial", "statusPartial");
            ("status-cancelled", "statusCancelled"); ("status-other", "statusOther")]
      /\ (truthy status = false \/ exists s, status = VStr s))
  \/ (Orders.getStatusClassName status = inl Orders.TypeError_toLowerCase
      /\ OrderDetail.getStatusClassName status = inl Orders.TypeError_toLowerCase
      /\ truthy status = true /\ forall s, status <> VStr s).
Proof.
  unfold Orders.getStatusClassName, OrderDetail.getStatusClassName.
  destruct (truthy status) eqn:Ht; cbn [negb].
  - destruct status as [| |b|r|s|l|props]; try discriminate Ht;
      try (right; split; [reflexivity |]; split; [reflexivity |];
           split; [reflexivity | intros s0; discriminate]).
    left.
    destruct (Orders.toLowerCase s =? "shipped")%string;
      [do 2 eexists; repeat split; [simpl; tauto | eauto] |].
    destruct ((Orders.toLowerCase s =? "pending")%string
              || (Orders.toLowerCase s =? "processing")%string);
      [do 2 eexists; repeat split; [simpl; tauto | eauto] |].
    destruct (Orders.toLowerCase s =? "completed")%string;
      [do 2 eexists; repeat split; [simpl; tauto | eauto] |].
    destruct (Orders.toLowerCase s =? "partially shipped")%string;
      [do 2 eexists; repeat split; [simpl; tauto | eauto] |].
    destruct (Orders.toLowerCase s =? "cancelled")%string;
      do 2 eexists; repeat split; [simpl; tauto | eauto | simpl; tauto | eauto].
  - left. do 2 eexists. repeat split; [simpl; tauto | auto].
Qed.

Lemma status_classes_agree_witness :
  Orders.getStatusClassName (VStr "Partially Shipped") = inr "status-partial"
  /\ OrderDetail.getStatusClassName (VStr "Partially Shipped") = inr "statusPartial".
Proof.
  destruct (status_classes_agree (VStr "Partially Shipped"))
    as [[a [b [Ha [Hb _]]]] | [Ha _]].
  - split; reflexivity.
  - discriminate Ha.
Defined.

(** Every run of [fetchOrderDetail] that gets as far as its request. *)
Lemma fetchOrderDetail_run env st id :
  OrderDetail.isLoggedIn st = true ->
  truthy (OrderDetail.orderId st) = true ->
  ToString (OrderDetail.orderId st) = inr id ->
  OrderDetail.fetchOrderDetail env st
  = (inr tt,
     match outcome (Api.apiRequest env ("/orders/" ++ id) Options.empty st) with
     | inr data =>
         {| OrderDetail.isLoggedIn := true; OrderDetail.orderId := OrderDetail.orderId st;
            OrderDetail.order := data; OrderDetail.loading := false;
            OrderDetail.error := "" |}
     | inl e =>
         {| OrderDetail.isLoggedIn := true; OrderDetail.orderId := OrderDetail.orderId st;
            OrderDetail.order := OrderDetail.order st; OrderDetail.loading := false;
            OrderDetail.error := Orders.message_or e "Failed to fetch order details" |}
     end,
     trace (Api.apiRequest env ("/orders/" ++ id) Options.empty st)).
Proof.
  intros Hl Ht Hid.
  unfold OrderDetail.fetchOrderDetail, try_finally, try_catch, of_result. cbn -[append].
  rewrite Hl, Ht, Hid. cbn -[append].
  split_api_run. rewrite (apiRequest_any_state env _ Options.empty st).
  unfold outcome, trace. cbn -[append].
  destruct (fst (fst (Api.apiRequest env _ Options.empty tt))) as [e|data];
    cbn -[append]; now rewrite Hl, !app_nil_r.
Qed.

(** X23: logged out, or without an order id, [fetchOrderDetail] does
    nothing at all.  Otherwise, the id being a text or a list of texts, it
    sends one request, to "/orders/" followed by the id as it stands (the
    items of a list joined by commas), and does not throw.  Once that request
    has returned, the order is the value returned and no error is shown; once
    it has thrown, the order is the one there was and the error shown is the
    message of the failure, or "Failed to fetch order details" when that is
    empty.  In both cases [loading] is false. *)
Theorem fetchOrderDetail_outcomes env st :
  (OrderDetail.isLoggedIn st = false \/ truthy (OrderDetail.orderId st) = false ->
   OrderDetail.fetchOrderDetail env st = (inr tt, st, []))
  /\ (forall id,
        OrderDetail.isLoggedIn st = true ->
        truthy (OrderDetail.orderId st) = true ->
        ToString (OrderDetail.orderId st) = inr id ->
        (forall e, outcome (OrderDetail.fetchOrderDetail env st) <> inl e)
        /\ fetches (trace (OrderDetail.fetchOrderDetail env st))
           = [(NEXT_PUBLIC_API_URL env ++ "/orders/" ++ id,
               RequestInit.mk None [] None "include")]
        /\ (forall data,
              outcome (Api.apiRequest env ("/orders/" ++ id) Options.empty st) = inr data ->
              final (OrderDetail.fetchOrderDetail env st)
              = {| OrderDetail.isLoggedIn := true;
                   OrderDetail.orderId := OrderDetail.orderId st;
                   OrderDetail.order := data; OrderDetail.loading := false;
                   OrderDetail.error := "" |})
        /\ (forall e,
              outcome (Api.apiRequest env ("/orders/" ++ id) Options.empty st) = inl e ->
              final (OrderDetail.fetchOrderDetail env st)
              = {| OrderDetail.isLoggedIn := true;
                   OrderDetail.orderId := OrderDetail.orderId st;
                   OrderDetail.order := OrderDetail.order st; OrderDetail.loading := false;
                   OrderDetail.error := if (Error.message e =? "")%string
                                        then "Failed to fetch order details"
                                        else Error.message e |}
              /\ OrderDetail.error (final (OrderDetail.fetchOrderDetail env st)) <> ""))
  /\ (forall id, OrderDetail.orderId st = VStr id -> ToString (OrderDetail.orderId st) = inr id)
  /\ (forall a b,
        OrderDetail.orderId st = VArr [VStr a; VStr b] ->
        ToString (OrderDetail.orderId st) = inr (a ++ "," ++ b)).
Proof.
  split; [| split; [| split]].
  - unfold OrderDetail.fetchOrderDetail. cbn.
    intros [-> | H]; [reflexivity |].
    destruct (OrderDetail.isLoggedIn st); cbn; [| reflexivity]. now rewrite H.
  - intros id Hl Ht Hid. rewrite (fetchOrderDetail_run env st id Hl Ht Hid).
    unfold outcome at 1, final, trace at 1. cbn [fst snd].
    split; [discriminate |].
    split; [apply apiRequest_fetches |].
    split.
    + intros data ->. reflexivity.
    + intros e ->. split; [reflexivity | now apply message_or_nonempty].
  - intros id ->. reflexivity.
  - intros a b ->. reflexivity.
Qed.

Lemma fetchOrderDetail_outcomes_witness :
  OrderDetail.isLoggedIn (sample_order (VStr "7")) = true
  /\ truthy (OrderDetail.orderId (sample_order (VStr "7"))) = true
  /\ ToString (OrderDetail.orderId (sample_order (VStr "7"))) = inr "7"
  /\ fetches (trace (OrderDetail.fetchOrderDetail
                       (Sample.env (Some "/orders/7") (Some (Fulfilled Sample.not_found)))
                       (sample_order (VStr "7"))))
     = [("https://api.example.test/orders/7", RequestInit.mk None [] None "include")]
  /\ final (OrderDetail.fetchOrderDetail
              (Sample.env (Some "/orders/7") (Some (Fulfilled Sample.not_found)))
              (sample_order (VStr "7")))
     = {| OrderDetail.isLoggedIn := true; OrderDetail.orderId := VStr "7";
          OrderDetail.order := VObj [("tranid", VStr "SO6")]; OrderDetail.loading := false;
          OrderDetail.error := "Order not found" |}.
Proof.
  split; [reflexivity | split; [reflexivity | split; [reflexivity |]]].
  destruct (proj1 (proj2 (fetchOrderDetail_outcomes
                            (Sample.env (Some "/orders/7") (Some (Fulfilled Sample.not_found)))
                            (sample_order (VStr "7"))))
              "7" eq_refl eq_refl eq_refl) as [_ [Hf [_ He]]].
  split; [exact Hf |].
  exact (proj1 (He (Error.mk "Error" "Order not found" (Some 404)
                      (Some (VObj [("detail", VStr "Order not found")]))) eq_refl)).
Defined.

(* ===================================================================== *)
(** ** The login page and the chat entry point *)
(* ===================================================================== *)

Lemma formEncode_safe s :
  Forall (fun a => form_safe a = true) (list_ascii_of_string (Login.formEncode s)).
Proof.
  induction s as [|a s IH]; simpl; [constructor |].
  destruct (Login.formUnreserved a) eqn:Ha; simpl.
  - constructor; [unfold form_safe; now rewrite Ha | exact IH].
  - destruct (Ascii.eqb a " "); simpl.
    + constructor; [reflexivity | exact IH].
    + pose proof (N_ascii_bounded a) as Hb.
      assert (Hhex : forall k, k < 16 -> form_safe (hexdigit true k) = true).
      { intros k Hk. destruct k as [|p]; [reflexivity |].
        do 4 (destruct p as [p|p|]; try reflexivity); lia. }
      repeat constructor; try exact IH.
      * apply Hhex. apply N.Div0.div_lt_upper_bound. lia.
      * apply Hhex. apply N.mod_lt. lia.
Qed.

(** X24: submitting the login form sends one request, a POST to "/token"
    with credentials "include", whose form body has exactly the two fields
    [username], the trimmed customer id in form encoding, and an empty
    [password]: no "&" and no "=" of the customer id reaches the body as
    such. *)
Theorem login_request env st exchange :
  fetches (trace (Login.handleSubmit env exchange st))
  = [(NEXT_PUBLIC_API_URL env ++ "/token",
      RequestInit.mk (Some "POST")
        [("Content-Type", "application/x-www-form-urlencoded")]
        (Some ("username=" ++ Login.formEncode (trim (Login.customerId st))
               ++ "&password="))
        "include")]
  /\ forall c,
       In c (list_ascii_of_string (Login.formEncode (trim (Login.customerId st)))) ->
       c <> "&"%char /\ c <> "="%char.
Proof.
  split.
  - unfold Login.handleSubmit, try_finally, try_catch, json, getM, of_result,
      Login.on_auth. cbn -[append fetches].
    destruct exchange as [res|e]; cbn -[append fetches]; [| reflexivity].
    destruct (Response.ok res); cbn -[append fetches].
    + destruct (Response.body res) as [data|]; cbn -[append fetches]; [| reflexivity].
      destruct (get data "customer_id"); cbn -[append fetches]; [reflexivity |].
      destruct (truthy (Login.query_redirect st) && _); reflexivity.
    + destruct (Response.body res) as [data|]; cbn -[append fetches]; [| reflexivity].
      destruct (get data "detail"); cbn -[append fetches]; [reflexivity |].
      destruct (Error_of _); reflexivity.
  - intros c Hc.
    pose proof (formEncode_safe (trim (Login.customerId st))) as Hs.
    rewrite Forall_forall in Hs. specialize (Hs c Hc).
    split; intros ->; discriminate Hs.
Qed.

Lemma login_request_witness :
  Login.formEncode (trim " a&b=c d ") = "a%26b%3Dc+d"
  /\ ~ In "&"%char (list_ascii_of_string (Login.formEncode (trim " a&b=c d "))).
Proof.
  split; [reflexivity |]. intros H.
  exact (proj1 (proj2 (login_request (Sample.env (Some "/login") None)
                         (sample_login " a&b=c d " VUndefined)
                         (Rejected (new_Error "Failed to fetch"))) _ H) eq_refl).
Defined.

Lemma login_outcome_failed env st exchange err :
  (exists e, exchange = Rejected e /\ err = e)
  \/ (exists res, exchange = Fulfilled res /\ Response.body res = None
                  /\ err = Error.mk "SyntaxError" "Unexpected end of JSON input" None None)
  \/ (exists res data, exchange = Fulfilled res /\ Response.body res = Some data
                       /\ Response.ok res = false
                       /\ (get data "detail" = inl err
                           \/ exists d e,
                                get data "detail" = inr d
                                /\ Error_of (or_else d (VStr "Invalid customer ID")) = e
                                /\ (e = inl err \/ e = inr err)))
  \/ (exists res data, exchange = Fulfilled res /\ Response.body res = Some data
                       /\ Response.ok res = true /\ get data "customer_id" = inl err) ->
  outcome (Login.handleSubmit env exchange st) = inr tt
  /\ final (Login.handleSubmit env exchange st)
     = {| Login.customerId := Login.customerId st; Login.loading := false;
          Login.error := Orders.message_or err "Login failed";
          Login.auth := Login.auth st; Login.query_redirect := Login.query_redirect st;
          Login.replaced := Login.replaced st |}.
Proof.
  unfold Login.handleSubmit, try_finally, try_catch, json, getM, of_result,
    Login.on_auth, outcome, final.
  intros [[e [-> ->]] | [[res [-> [Hb ->]]] | [[res [data [-> [Hb [Hok Hd]]]]]
                                              | [res [data [-> [Hb [Hok Hd]]]]]]]];
    cbn; rewrite ?Hok, ?Hb; cbn.
  - auto.
  - destruct (Response.ok res); cbn; auto.
  - destruct Hd as [-> | [d [e [-> [-> [-> | ->]]]]]]; cbn; auto.
  - rewrite Hd. cbn. auto.
Qed.

(** X25: once the credential exchange has settled, [handleSubmit] has ended
    without throwing and with [loading] false.  When the exchange succeeded
    (a success status with a JSON body other than [null]) the store holds the
    [customer_id] of the body, no error is shown, and the router is replaced
    exactly once: by the [redirect] of the query when that is a text other
    than the empty one and "/login", or a list; and by "/orders" when the
    query has no [redirect], an empty one, or "/login".  In every other case
    the store and the router are left as they were and an error text that is
    not empty is shown. *)
Theorem login_outcomes env st exchange :
  (forall e, outcome (Login.handleSubmit env exchange st) <> inl e)
  /\ Login.loading (final (Login.handleSubmit env exchange st)) = false
  /\ (forall data,
        exchange_ok exchange data ->
        exists target,
          final (Login.handleSubmit env exchange st)
          = {| Login.customerId := Login.customerId st; Login.loading := false;
               Login.error := "";
               Login.auth :=
                 {| AuthContext.user :=
                      Some {| AuthContext.customer_id := field data "customer_id" |};
                    AuthContext.loading := AuthContext.loading (Login.auth st) |};
               Login.query_redirect := Login.query_redirect st;
               Login.replaced := (Login.replaced st ++ [target])%list |}
          /\ (forall to, Login.query_redirect st = VStr to ->
                to <> "" -> to <> "/login" -> target = VStr to)
          /\ (forall l, Login.query_redirect st = VArr l -> target = VArr l)
          /\ (Login.query_redirect st = VUndefined
              \/ Login.query_redirect st = VStr ""
              \/ Login.query_redirect st = VStr "/login" ->
              target = VStr "/orders"))
  /\ ((forall data, ~ exchange_ok exchange data) ->
      Login.auth (final (Login.handleSubmit env exchange st)) = Login.auth st
      /\ Login.replaced (final (Login.handleSubmit env exchange st)) = Login.replaced st
      /\ Login.error (final (Login.handleSubmit env exchange st)) <> "").
Proof.
  assert (Hfail : forall err,
            outcome (Login.handleSubmit env exchange st) = inr tt
            /\ final (Login.handleSubmit env exchange st)
               = {| Login.customerId := Login.customerId st; Login.loading := false;
                    Login.error := Orders.message_or err "Login failed";
                    Login.auth := Login.auth st;
                    Login.query_redirect := Login.query_redirect st;
                    Login.replaced := Login.replaced st |} ->
            (forall e, outcome (Login.handleSubmit env exchange st) <> inl e)
            /\ Login.loading (final (Login.handleSubmit env exchange st)) = false
            /\ Login.auth (final (Login.handleSubmit env exchange st)) = Login.auth st
            /\ Login.replaced (final (Login.handleSubmit env exchange st))
               = Login.replaced st
            /\ Login.error (final (Login.handleSubmit env exchange st)) <> "").
  { intros err [Ho Hf]. rewrite Ho, Hf. cbn. repeat split; auto; try discriminate.
    now apply message_or_nonempty. }
  assert (Hcases :
    (exists data, exchange_ok exchange data
       /\ get data "customer_id" = inr (field data "customer_id"))
    \/ ((forall data, ~ exchange_ok exchange data)
        /\ exists err,
             outcome (Login.handleSubmit env exchange st) = inr tt
             /\ final (Login.handleSubmit env exchange st)
                = {| Login.customerId := Login.customerId st; Login.loading := false;
                     Login.error := Orders.message_or err "Login failed";
                     Login.auth := Login.auth st;
                     Login.query_redirect := Login.query_redirect st;
                     Login.replaced := Login.replaced st |})).
  { destruct exchange as [res|e].
    - destruct (Response.body res) as [data|] eqn:Hb.
      + destruct (Response.ok res) eqn:Hok.
        * destruct (nullish_dec data) as [Hn | [Hn Hu]].
          -- right. split.
             ++ intros d [r [[= <-] [_ [Hb' [Hn' Hu']]]]].
                rewrite Hb in Hb'. injection Hb' as <-. destruct Hn; congruence.
             ++ destruct (get_nullish data "customer_id" Hn) as [err [Hg _]].
                exists err. apply login_outcome_failed. right. right. right.
                exists res, data. auto.
          -- left. exists data. split; [exists res; auto | now apply get_field].
        * right. split.
          -- intros d [r [[= <-] [Hok' _]]]. congruence.
          -- destruct (get data "detail") as [err|d] eqn:Hg.
             ++ exists err. apply login_outcome_failed. right. right. left.
                exists res, data. auto.
             ++ destruct (Error_of (or_else d (VStr "Invalid customer ID")))
                  as [err|err] eqn:He;
                  exists err; apply login_outcome_failed; right; right; left;
                  exists res, data; repeat split; auto; right;
                  eexists d, _; (split; [exact Hg |]); (split; [reflexivity |]);
                  rewrite He; auto.
      + right. split.
        * intros d [r [[= <-] [_ [Hb' _]]]]. congruence.
        * eexists. apply login_outcome_failed. right. left. exists res. auto.
    - right. split.
      + intros d [r [Hr _]]. discriminate.
      + exists e. apply login_outcome_failed. left. eauto. }
  destruct Hcases as [[data [Hok Hg]] | [Hno [err Hrun]]].
  - destruct Hok as [res [-> [Hok [Hb [Hn Hu]]]]].
    assert (Hrun :
      Login.handleSubmit env (Fulfilled res) st
      = (inr tt,
         {| Login.customerId := Login.customerId st; Login.loading := false;
            Login.error := "";
            Login.auth :=
              {| AuthContext.user :=
                   Some {| AuthContext.customer_id := field data "customer_id" |};
                 AuthContext.loading := AuthContext.loading (Login.auth st) |};
            Login.query_redirect := Login.query_redirect st;
            Login.replaced :=
              (Login.replaced st
               ++ [if truthy (Login.query_redirect st)
                      && Login.is_not_login (Login.query_redirect st)
                   then Login.query_redirect st else VStr "/orders"])%list |},
         [EvFetch (NEXT_PUBLIC_API_URL env ++ "/token")
            (Login.token_request (trim (Login.customerId st)));
          EvJson])).
    { unfold Login.handleSubmit, try_finally, try_catch, json, getM, of_result,
        Login.on_auth. cbn -[append]. rewrite Hok, Hb. cbn -[append]. rewrite Hg.
      cbn -[append].
      destruct (truthy (Login.query_redirect st)
                && Login.is_not_login (Login.query_redirect st)); reflexivity. }
    rewrite Hrun. unfold outcome, final. cbn [fst snd Login.loading].
    split; [discriminate |]. split; [reflexivity |]. split.
    + intros data' [res' [[= <-] [_ [Hb' _]]]].
      rewrite Hb in Hb'. injection Hb' as <-.
      eexists. split; [reflexivity |]. split; [| split].
      * intros to -> Hto Hlogin. cbn.
        apply String.eqb_neq in Hto, Hlogin. now rewrite Hto, Hlogin.
      * intros l ->. reflexivity.
      * intros [-> | [-> | ->]]; reflexivity.
    + intros Hno. exfalso. apply (Hno data). exists res. auto.
  - destruct (Hfail err Hrun) as [Ho [Hl [Ha [Hr He]]]].
    split; [exact Ho |]. split; [exact Hl |]. split.
    + intros data Hd. exfalso. exact (Hno data Hd).
    + intros _. auto.
Qed.

Lemma login_outcomes_witness :
  exchange_ok (Fulfilled (Response.mk 200 "OK" (Some (VObj [("customer_id", VStr "C-42")]))))
    (VObj [("customer_id", VStr "C-42")])
  /\ final (Login.handleSubmit (Sample.env (Some "/login") None)
              (Fulfilled (Response.mk 200 "OK" (Some (VObj [("customer_id", VStr "C-42")]))))
              (sample_login " C-42 " (VStr "/agent")))
     = {| Login.customerId := " C-42 "; Login.loading := false; Login.error := "";
          Login.auth :=
            {| AuthContext.user := Some {| AuthContext.customer_id := VStr "C-42" |};
               AuthContext.loading := false |};
          Login.query_redirect := VStr "/agent";
          Login.replaced := [VStr "/agent"] |}.
Proof.
  assert (H : exchange_ok
                (Fulfilled (Response.mk 200 "OK" (Some (VObj [("customer_id", VStr "C-42")]))))
                (VObj [("customer_id", VStr "C-42")])).
  { eexists. repeat split; discriminate. }
  split; [exact H |].
  destruct (proj1 (proj2 (proj2 (login_outcomes
                                   (Sample.env (Some "/login") None)
                                   (sample_login " C-42 " (VStr "/agent")) _)))
              _ H) as [target [Hf [Hto _]]].
  rewrite Hf, (Hto "/agent" eq_refl ltac:(discriminate) ltac:(discriminate)).
  reflexivity.
Defined.

(** X26: the chat entry point is on the screen exactly when the session
    check is over, there is a user, the page runs in the browser and its path
    is neither "/login" nor "/".  The popup's own test of the session never
    decides anything: under its guard it always passes. *)
Theorem chat_entry_shown s isClient pathname :
  (ChatPopup.App s isClient pathname = true
   <-> AuthContext.loading s = false /\ AuthContext.user s <> None
       /\ isClient = true /\ pathname <> "/login" /\ pathname <> "/")
  /\ (AuthValue.token s <> None ->
      ChatPopup.userLoggedIn (AuthContext.user s) (AuthContext.isLoggedIn s)
        (AuthValue.token s) = true).
Proof.
  unfold ChatPopup.App, AuthValue.AuthProvider, AuthValue.token, ChatPopup.renders,
    ChatPopup.userLoggedIn, AuthContext.isLoggedIn.
  destruct s as [[u|] l]; cbn; split.
  - destruct l; cbn; [split; [discriminate | intros [H _]; discriminate] |].
    destruct isClient; cbn; [| split; [discriminate | intros [_ [_ [H _]]]; discriminate]].
    destruct (String.eqb_spec pathname "/login") as [-> | H1]; cbn;
      [split; [discriminate | intros [_ [_ [_ [H _]]]]; now elim H] |].
    destruct (String.eqb_spec pathname "/") as [-> | H2]; cbn;
      [split; [discriminate | intros [_ [_ [_ [_ H]]]]; now elim H] |].
    split; [intros _; repeat split; auto; discriminate | reflexivity].
  - reflexivity.
  - destruct l; cbn; split; try discriminate; intros [_ [H _]]; now elim H.
  - intros H. now elim H.
Qed.

Lemma chat_entry_shown_witness :
  ChatPopup.App Sample.signed_in true "/orders" = true.
Proof.
  apply (proj2 (proj1 (chat_entry_shown Sample.signed_in true "/orders"))).
  repeat split; discriminate.
Defined.
